(** * kapi-kit: the multi-stream bot (examples/multi-stream-bot.js)

    A shallow embedding of the multi-tenant webhook bot and of the parts of
    the SDK it calls (src/client.js, src/auth.js), with the properties the
    specification states about them.

    Conventions of the embedding.
    - A JavaScript string is the list of its code points ([jsstring]): a
      surrogate pair is one code point, a lone surrogate a code point of its
      own.
    - A Buffer is a list of bytes.
    - A property that may be [undefined] or [null] has type [opt A].
    - The answers of the endpoints are typed as the Kick API documents them:
      a broadcaster id is a number, a token or a slug is a string, each
      possibly missing; numbers are integers, those that a JavaScript number
      holds exactly.
    - The Node.js and network collaborators (JSON, crypto, the OAuth and REST
      endpoints, the file system, the clock) are the fields of [Platform].
    - Asynchronous functions are run to completion: one call of a handler or
      of a timer callback is one computation in the monad [M], which threads
      the process state and may throw. *)

From Stdlib Require Import ZArith NArith List String Ascii Bool Lia.
From stdpp Require Import base option list gmap.

Import ListNotations.
#[local] Open Scope Z_scope.

(** ** JavaScript values *)

Definition jsstring := list N.

(** The code points of an ASCII literal. *)
Definition js (s : string) : jsstring :=
  List.map N_of_ascii (list_ascii_of_string s).

Inductive opt (A : Type) : Type :=
| undefined
| null
| val (a : A).
Arguments undefined {A}.
Arguments null {A}.
Arguments val {A} a.

#[global] Instance opt_eq_dec {A} `{EqDecision A} : EqDecision (opt A).
Proof. solve_decision. Defined.

#[global] Instance byte_eq_dec : EqDecision Byte.byte := Byte.byte_eq_dec.

(** [x ?? d] *)
Definition nullish {A} (x : opt A) (d : A) : A :=
  match x with val a => a | _ => d end.

(** Truthiness of a possibly missing string and of a possibly missing
    number: the empty string and 0 are falsy. *)
Definition truthyS (x : opt jsstring) : bool :=
  match x with val (_ :: _) => true | _ => false end.

Definition truthyZ (x : opt Z) : bool :=
  match x with val z => negb (z =? 0) | _ => false end.

(** JSON documents, as [JSON.parse] returns them. *)
#[local] Set Warnings "-register-all".
Inductive json : Type :=
| JNull
| JBool (b : bool)
| JNum (z : Z)
| JStr (s : jsstring)
| JArr (l : list json)
| JObj (fields : list (string * json)).

Definition truthyJ (v : option json) : bool :=
  match v with
  | None | Some JNull | Some (JBool false) | Some (JStr []) => false
  | Some (JNum z) => negb (z =? 0)
  | Some _ => true
  end.

Fixpoint assoc {V} (k : string) (l : list (string * V)) : option V :=
  match l with
  | [] => None
  | (k', v) :: r => if String.eqb k k' then Some v else assoc k r
  end.

(** [v?.k] : a property read that tolerates [null] and [undefined]; reading
    a property that a value does not have gives [undefined]. *)
Definition field (v : option json) (k : string) : option json :=
  match v with
  | Some (JObj fs) => assoc k fs
  | _ => None
  end.

(** ** String built-ins *)

(** ECMAScript WhiteSpace and LineTerminator code points, the ones
    [String.prototype.trim] strips. *)
Definition isWhiteSpace (c : N) : bool :=
  ((9 <=? c) && (c <=? 13) || (c =? 32) || (c =? 160) || (c =? 5760)
   || (8192 <=? c) && (c <=? 8202) || (c =? 8232) || (c =? 8233)
   || (c =? 8239) || (c =? 8287) || (c =? 12288) || (c =? 65279))%N.

Fixpoint trimStart (s : jsstring) : jsstring :=
  match s with
  | c :: r => if isWhiteSpace c then trimStart r else s
  | [] => []
  end.

Definition trim (s : jsstring) : jsstring :=
  rev (trimStart (rev (trimStart s))).

Fixpoint startsWith (s p : jsstring) : bool :=
  match p, s with
  | [], _ => true
  | c :: p', d :: s' => (c =? d)%N && startsWith s' p'
  | _ :: _, [] => false
  end.

(** [s.slice(n)] for a non-negative [n]. *)
Definition slice (n : nat) (s : jsstring) : jsstring := skipn n s.

Definition jsstring_eqb (a b : jsstring) : bool := bool_decide (a = b).

(** ** UTF-8, as [Buffer.prototype.toString] and [Verify.update] use it *)

Module Utf8.

(** A sequence in progress: the code point so far, the continuation bytes
    still needed and the range allowed for the next byte. *)
Record pending := {
  code_point : N;
  bytes_needed : nat;
  lower : N;
  upper : N;
}.

Definition replacement : N := 65533.

(** A byte read with no sequence in progress. *)
Definition lead (b : N) : jsstring * option pending :=
  (if b <=? 127 then ([b], None)
   else if (194 <=? b) && (b <=? 223) then
     ([], Some {| code_point := N.land b 31; bytes_needed := 1;
                  lower := 128; upper := 191 |})
   else if (224 <=? b) && (b <=? 239) then
     ([], Some {| code_point := N.land b 15; bytes_needed := 2;
                  lower := if b =? 224 then 160 else 128;
                  upper := if b =? 237 then 159 else 191 |})
   else if (240 <=? b) && (b <=? 244) then
     ([], Some {| code_point := N.land b 7; bytes_needed := 3;
                  lower := if b =? 240 then 144 else 128;
                  upper := if b =? 244 then 143 else 191 |})
   else ([replacement], None))%N.

(** Decoding with replacement: every ill-formed subsequence becomes
    U+FFFD and decoding resumes at the byte that broke it. *)
Fixpoint decode_from (st : option pending) (bs : list N) : jsstring :=
  match bs with
  | [] => match st with None => [] | Some _ => [replacement] end
  | b :: rest =>
      match st with
      | None => let '(out, st') := lead b in out ++ decode_from st' rest
      | Some p =>
          if ((lower p <=? b) && (b <=? upper p))%N then
            let cp := N.lor (N.shiftl (code_point p) 6) (N.land b 63) in
            match bytes_needed p with
            | S (S k) =>
                decode_from (Some {| code_point := cp; bytes_needed := S k;
                                     lower := 128; upper := 191 |}) rest
            | _ => cp :: decode_from None rest
            end
          else
            let '(out, st') := lead b in
            replacement :: out ++ decode_from st' rest
      end
  end.

Definition decode (buf : list Byte.byte) : jsstring :=
  decode_from None (List.map Byte.to_N buf).

Definition byte_of_N (n : N) : Byte.byte :=
  match Byte.of_N n with Some b => b | None => Byte.x00 end.

(** The bytes of one code point; a surrogate, which has no encoding, is
    written as U+FFFD. *)
Definition encode_cp (c : N) : list N :=
  (if c <? 128 then [c]
   else if c <? 2048 then [N.lor 192 (N.shiftr c 6); N.lor 128 (N.land c 63)]
   else if (55296 <=? c) && (c <=? 57343) || (1114111 <? c) then [239; 191; 189]
   else if c <? 65536 then
     [N.lor 224 (N.shiftr c 12); N.lor 128 (N.land (N.shiftr c 6) 63);
      N.lor 128 (N.land c 63)]
   else
     [N.lor 240 (N.shiftr c 18); N.lor 128 (N.land (N.shiftr c 12) 63);
      N.lor 128 (N.land (N.shiftr c 6) 63); N.lor 128 (N.land c 63)])%N.

Definition encode (s : jsstring) : list Byte.byte :=
  List.map byte_of_N (flat_map encode_cp s).

End Utf8.

(** [Buffer.prototype.toString()], which decodes as UTF-8. *)
Definition Buffer_toString (buf : list Byte.byte) : jsstring := Utf8.decode buf.

(** ** The platform

    What the bot exchanges with the OAuth endpoint and with the REST API,
    after the SDK has unwrapped the [data] envelope. *)

Inductive exn : Type :=
| ReferenceError (name : string)
| TypeError (msg : string)
| SyntaxError
| Error (msg : string)
| KickApiError (status : Z)
| FsError (code : string).

Record TokenResponse := {
  access_token : opt jsstring;
  refresh_token : opt jsstring;
  expires_in : opt Z;
}.

Inductive grant : Type :=
| AuthorizationCode (code redirectUri codeVerifier : json)
| RefreshGrant (refreshToken : jsstring).

Record Channel := {
  broadcaster_user_id : opt Z;
  channel_slug : opt jsstring;
}.

Record Subscription := {
  sub_id : opt jsstring;
  sub_event : opt jsstring;
  sub_version : opt Z;
}.

Record CreatedSubscription := {
  subscription_id : opt jsstring;
}.

Inductive chatType : Type := bot | user.

(** The body [sendChatMessage] posts to [/chat]. *)
Record chatBody := {
  content : jsstring;
  type : chatType;
  chat_broadcaster_user_id : option Z;
  reply_to_message_id : option json;
}.

Inductive apiRequest : Type :=
| PostChat (body : chatBody)
| GetChannels
| PatchChannels (stream_title : jsstring)
| ListEventSubscriptions (broadcaster : Z)
| CreateEventSubscriptions (broadcaster : Z)
| GetPublicKey.

Inductive apiResponse : Type :=
| RNull
| RChannels (l : list Channel)
| RSubscriptions (l : list Subscription)
| RCreated (l : list CreatedSubscription)
| RPublicKey (public_key : opt jsstring)
| ROther (v : json).

(** The collaborators of the bot.
    - [unicodeLower c] is the lower case of a code point outside ASCII.
    - [JSON_parse] gives [None] where [JSON.parse] throws a SyntaxError.
    - [base64_decode s] is [Buffer.from(s, 'base64')].
    - [rsa_sha256_verify pem data signature] is
      [crypto.createVerify('RSA-SHA256')] fed [data] and asked to [verify]
      [signature] under [pem]; it throws on a key it cannot read.
    - [oauth_token n g] is the answer of the token endpoint to the grant
      [g], and [api_request n token r] the answer of the REST API to [r]
      sent with [token], when they are the [n]-th external call of the run:
      the same request may succeed once and fail later.
    - [fs_write n] is the error, if any, of a [mkdir] or [writeFile] that is
      the [n]-th call.
    - [fs_written n] says how far a [writeFile] that fails as the [n]-th
      call got: [None] when the file could not be opened, which leaves it
      as it was, and [Some k] when it was opened, which truncates it, and
      [k] bytes were written before the error.
    - [date_now n] is [new Date().toISOString()] at the [n]-th call. *)
Class Platform := {
  unicodeLower : N -> jsstring;
  JSON_stringify : json -> jsstring;
  JSON_parse : jsstring -> option json;
  base64_decode : jsstring -> list Byte.byte;
  rsa_sha256_verify : jsstring -> list Byte.byte -> list Byte.byte -> exn + bool;
  oauth_token : nat -> grant -> exn + TokenResponse;
  api_request : nat -> opt jsstring -> apiRequest -> exn + apiResponse;
  fs_write : nat -> option exn;
  fs_written : nat -> option nat;
  date_now : nat -> jsstring;
}.

(** The fields of [config] that the functions below read. *)
Record Config := {
  redirectUri : jsstring;
  eventSecret : jsstring;
  keepAliveIntervalMs : Z;
  keepAliveUserMessage : jsstring;
  keepAliveBotMessage : jsstring;
}.

(** ** Process state *)

Definition loc := nat.

(** A streamer object. The first four fields are the persisted ones; a
    [client] is a [KickApiClient] and is described by the token it holds. *)
Record streamer := {
  broadcasterUserId : Z;
  slug : opt jsstring;
  refreshToken : jsstring;
  subscriptionId : opt jsstring;
  accessToken : opt jsstring;
  expiresIn : opt Z;
  updatedAt : opt jsstring;
  client : option (opt jsstring);
  refreshTimer : option nat;
  keepAliveTimer : option nat;
}.

(** The object [{}]. *)
Definition emptyObject : streamer :=
  {| broadcasterUserId := 0; slug := undefined; refreshToken := [];
     subscriptionId := undefined; accessToken := undefined;
     expiresIn := undefined; updatedAt := undefined; client := None;
     refreshTimer := None; keepAliveTimer := None |}.

(** What the event loop holds: the callback of a pending [setTimeout] or of
    a [setInterval], with the streamer object its closure captured. *)
Inductive timer : Type :=
| RefreshTimeout (s : loc) (delay : option Z)
| KeepAliveInterval (s : loc) (every : Z).

Inductive level : Type := log | warn | error.

(** Effects on the outside world, in the order they happen. *)
Inductive event : Type :=
| EvToken (g : grant)
| EvApi (token : opt jsstring) (r : apiRequest)
| EvMkdir
| EvWriteFile (data : jsstring)
| EvSetTimeout (id : nat) (s : loc) (delay : option Z)
| EvSetInterval (id : nat) (s : loc) (every : Z)
| EvConsole (l : level) (msg : string).

(** [st_heap] gives the streamer objects their identity: the two maps of
    [state] and the closures of the timers share them by reference.
    [st_streamers] and [st_subscriptions] are the two Maps of [state], in
    insertion order. *)
Record state := {
  st_heap : gmap loc streamer;
  st_next : loc;
  st_streamers : list (Z * loc);
  st_subscriptions : list (opt jsstring * loc);
  st_publicKey : opt jsstring;
  st_timers : list (nat * timer);
  st_nextTimer : nat;
  st_file : option jsstring;
  st_tick : nat;
  st_trace : list event;
}.

Definition initial : state :=
  {| st_heap := ∅; st_next := 0%nat; st_streamers := []; st_subscriptions := [];
     st_publicKey := null; st_timers := []; st_nextTimer := 0%nat;
     st_file := None; st_tick := 0%nat; st_trace := [] |}.

(** [Map.prototype.set] keeps the position of a key that is present and
    appends a new one; [Map.prototype.get]. *)
Fixpoint mapSet {K V} `{EqDecision K} (k : K) (v : V) (m : list (K * V))
  : list (K * V) :=
  match m with
  | [] => [(k, v)]
  | (k', v') :: r =>
      if decide (k = k') then (k, v) :: r else (k', v') :: mapSet k v r
  end.

Fixpoint mapGet {K V} `{EqDecision K} (k : K) (m : list (K * V)) : option V :=
  match m with
  | [] => None
  | (k', v) :: r => if decide (k = k') then Some v else mapGet k r
  end.

(** ** The monad of the bot: state and exceptions *)

Inductive outcome (A : Type) : Type :=
| Ret (a : A)
| Throw (e : exn).
Arguments Ret {A} a.
Arguments Throw {A} e.

Definition M (A : Type) : Type := state -> outcome A * state.

Definition ret {A} (a : A) : M A := fun s => (Ret a, s).

Definition bind {A B} (m : M A) (k : A -> M B) : M B :=
  fun s => match m s with
           | (Ret a, s') => k a s'
           | (Throw e, s') => (Throw e, s')
           end.

Definition throw {A} (e : exn) : M A := fun s => (Throw e, s).

(** [try { m } catch (e) { h e }] *)
Definition try_catch {A} (m : M A) (h : exn -> M A) : M A :=
  fun s => match m s with
           | (Ret a, s') => (Ret a, s')
           | (Throw e, s') => h e s'
           end.

Definition get_state : M state := fun s => (Ret s, s).
Definition modify (f : state -> state) : M unit := fun s => (Ret tt, f s).

Declare Scope bot_scope.
Delimit Scope bot_scope with bot.
Notation "x <- m ;; k" := (bind m (fun x => k))
  (at level 100, m at next level, right associativity) : bot_scope.
Notation "m ;; k" := (bind m (fun _ => k))
  (at level 100, right associativity) : bot_scope.
#[local] Open Scope bot_scope.

Definition set_heap h (s : state) : state :=
  {| st_heap := h; st_next := st_next s; st_streamers := st_streamers s;
     st_subscriptions := st_subscriptions s; st_publicKey := st_publicKey s;
     st_timers := st_timers s; st_nextTimer := st_nextTimer s;
     st_file := st_file s; st_tick := st_tick s; st_trace := st_trace s |}.

Definition set_next n (s : state) : state :=
  {| st_heap := st_heap s; st_next := n; st_streamers := st_streamers s;
     st_subscriptions := st_subscriptions s; st_publicKey := st_publicKey s;
     st_timers := st_timers s; st_nextTimer := st_nextTimer s;
     st_file := st_file s; st_tick := st_tick s; st_trace := st_trace s |}.

Definition set_streamers m (s : state) : state :=
  {| st_heap := st_heap s; st_next := st_next s; st_streamers := m;
     st_subscriptions := st_subscriptions s; st_publicKey := st_publicKey s;
     st_timers := st_timers s; st_nextTimer := st_nextTimer s;
     st_file := st_file s; st_tick := st_tick s; st_trace := st_trace s |}.

Definition set_subscriptions m (s : state) : state :=
  {| st_heap := st_heap s; st_next := st_next s; st_streamers := st_streamers s;
     st_subscriptions := m; st_publicKey := st_publicKey s;
     st_timers := st_timers s; st_nextTimer := st_nextTimer s;
     st_file := st_file s; st_tick := st_tick s; st_trace := st_trace s |}.

Definition set_publicKey k (s : state) : state :=
  {| st_heap := st_heap s; st_next := st_next s; st_streamers := st_streamers s;
     st_subscriptions := st_subscriptions s; st_publicKey := k;
     st_timers := st_timers s; st_nextTimer := st_nextTimer s;
     st_file := st_file s; st_tick := st_tick s; st_trace := st_trace s |}.

Definition set_timers t n (s : state) : state :=
  {| st_heap := st_heap s; st_next := st_next s; st_streamers := st_streamers s;
     st_subscriptions := st_subscriptions s; st_publicKey := st_publicKey s;
     st_timers := t; st_nextTimer := n;
     st_file := st_file s; st_tick := st_tick s; st_trace := st_trace s |}.

Definition set_file f (s : state) : state :=
  {| st_heap := st_heap s; st_next := st_next s; st_streamers := st_streamers s;
     st_subscriptions := st_subscriptions s; st_publicKey := st_publicKey s;
     st_timers := st_timers s; st_nextTimer := st_nextTimer s;
     st_file := f; st_tick := st_tick s; st_trace := st_trace s |}.

Definition set_tick n (s : state) : state :=
  {| st_heap := st_heap s; st_next := st_next s; st_streamers := st_streamers s;
     st_subscriptions := st_subscriptions s; st_publicKey := st_publicKey s;
     st_timers := st_timers s; st_nextTimer := st_nextTimer s;
     st_file := st_file s; st_tick := n; st_trace := st_trace s |}.

Definition set_trace t (s : state) : state :=
  {| st_heap := st_heap s; st_next := st_next s; st_streamers := st_streamers s;
     st_subscriptions := st_subscriptions s; st_publicKey := st_publicKey s;
     st_timers := st_timers s; st_nextTimer := st_nextTimer s;
     st_file := st_file s; st_tick := st_tick s; st_trace := t |}.

(** An effect on the outside world is appended to the trace. *)
Definition emit (e : event) : M unit :=
  modify (fun s => set_trace (st_trace s ++ [e]) s).

Definition console (l : level) (msg : string) : M unit :=
  emit (EvConsole l msg).

(** The index of the next external call. *)
Definition next_tick : M nat :=
  fun s => (Ret (st_tick s), set_tick (S (st_tick s)) s).

Definition lift {A} (r : exn + A) : M A :=
  match r with inl e => throw e | inr a => ret a end.

(** Reading and writing a streamer object through its reference. *)
Definition deref (l : loc) : M streamer :=
  fun s => (Ret (default emptyObject (st_heap s !! l)), s).

Definition update (l : loc) (f : streamer -> streamer) : M unit :=
  modify (fun s =>
    set_heap (<[l := f (default emptyObject (st_heap s !! l))]> (st_heap s)) s).

(** A new object literal. *)
Definition alloc (o : streamer) : M loc :=
  fun s => (Ret (st_next s),
            set_next (S (st_next s)) (set_heap (<[st_next s := o]> (st_heap s)) s)).

Definition with_persisted (sl : opt jsstring) (rt : jsstring)
  (sub : opt jsstring) (o : streamer) : streamer :=
  {| broadcasterUserId := broadcasterUserId o; slug := sl; refreshToken := rt;
     subscriptionId := sub; accessToken := accessToken o;
     expiresIn := expiresIn o; updatedAt := updatedAt o; client := client o;
     refreshTimer := refreshTimer o; keepAliveTimer := keepAliveTimer o |}.

Definition with_tokens (at_ : opt jsstring) (rt : jsstring) (ex : opt Z)
  (up : opt jsstring) (o : streamer) : streamer :=
  {| broadcasterUserId := broadcasterUserId o; slug := slug o;
     refreshToken := rt; subscriptionId := subscriptionId o;
     accessToken := at_; expiresIn := ex; updatedAt := up; client := client o;
     refreshTimer := refreshTimer o; keepAliveTimer := keepAliveTimer o |}.

Definition with_subscriptionId (sub : opt jsstring) (o : streamer) : streamer :=
  with_persisted (slug o) (refreshToken o) sub o.

Definition with_client (c : option (opt jsstring)) (o : streamer) : streamer :=
  {| broadcasterUserId := broadcasterUserId o; slug := slug o;
     refreshToken := refreshToken o; subscriptionId := subscriptionId o;
     accessToken := accessToken o; expiresIn := expiresIn o;
     updatedAt := updatedAt o; client := c;
     refreshTimer := refreshTimer o; keepAliveTimer := keepAliveTimer o |}.

Definition with_refreshTimer (t : option nat) (o : streamer) : streamer :=
  {| broadcasterUserId := broadcasterUserId o; slug := slug o;
     refreshToken := refreshToken o; subscriptionId := subscriptionId o;
     accessToken := accessToken o; expiresIn := expiresIn o;
     updatedAt := updatedAt o; client := client o;
     refreshTimer := t; keepAliveTimer := keepAliveTimer o |}.

Definition with_keepAliveTimer (t : option nat) (o : streamer) : streamer :=
  {| broadcasterUserId := broadcasterUserId o; slug := slug o;
     refreshToken := refreshToken o; subscriptionId := subscriptionId o;
     accessToken := accessToken o; expiresIn := expiresIn o;
     updatedAt := updatedAt o; client := client o;
     refreshTimer := refreshTimer o; keepAliveTimer := t |}.

(** An HTTP request as the handlers see it: the headers by their lower-case
    names and the body [readBody] resolves to, or the error it rejects
    with. A response is a status and a body. *)
Record request := {
  req_headers : list (string * jsstring);
  req_body : exn + list Byte.byte;
}.

Definition response : Type := Z * jsstring.

Definition header (h : list (string * jsstring)) (name : string) : opt jsstring :=
  match assoc name h with Some v => val v | None => undefined end.

#[local] Open Scope string_scope.
#[local] Open Scope list_scope.

Section Bot.

Context {P : Platform} (config : Config).

(** ** The SDK: src/auth.js and src/client.js *)

(** [KickAuthClient#refreshAccessToken] *)
Definition refreshAccessToken (token : jsstring) : M TokenResponse :=
  match token with
  | [] => throw (Error "refreshToken is required to refresh access token")
  | _ =>
      emit (EvToken (RefreshGrant token));;
      n <- next_tick;;
      lift (oauth_token n (RefreshGrant token))
  end.

(** [KickAuthClient#exchangeCodeForToken] *)
Definition exchangeCodeForToken (code redirect codeVerifier : option json)
  : M TokenResponse :=
  if negb (truthyJ code) then
    throw (Error "code is required to exchange for token")
  else if negb (truthyJ redirect) then
    throw (Error "redirectUri is required to exchange for token")
  else if negb (truthyJ codeVerifier) then
    throw (Error "codeVerifier is required to exchange for token")
  else
    match code, redirect, codeVerifier with
    | Some c, Some r, Some v =>
        emit (EvToken (AuthorizationCode c r v));;
        n <- next_tick;;
        lift (oauth_token n (AuthorizationCode c r v))
    | _, _, _ => throw (Error "code is required to exchange for token")
    end.

(** [KickApiClient##request] with [unwrapData], on a client that holds
    [token]. *)
Definition api (token : opt jsstring) (r : apiRequest) : M apiResponse :=
  emit (EvApi token r);;
  n <- next_tick;;
  lift (api_request n token r).

(** [KickApiClient#sendChatMessage] *)
Definition sendChatMessage (token : opt jsstring) (ty : chatType)
  (content : jsstring) (broadcasterUserId : option Z)
  (replyToMessageId : option json) : M apiResponse :=
  match trim content with
  | [] => throw (Error "content must be a non-empty string")
  | _ =>
      match ty, broadcasterUserId with
      | user, None =>
          throw (Error "broadcasterUserId is required when sending as a user")
      | _, _ =>
          api token (PostChat
            {| content := content; type := ty;
               chat_broadcaster_user_id := broadcasterUserId;
               reply_to_message_id :=
                 if truthyJ replyToMessageId then replyToMessageId else None |})
      end
  end.

(** [KickApiClient#updateChannelMetadata] with a [streamTitle] only. *)
Definition updateChannelMetadata (token : opt jsstring) (streamTitle : jsstring)
  : M unit :=
  api token (PatchChannels streamTitle);; ret tt.

(** [streamer.client.m(...)]: the property read fails on a streamer that
    has no client yet. *)
Definition with_streamer_client {A} (l : loc) (k : opt jsstring -> M A) : M A :=
  o <- deref l;;
  match client o with
  | None => throw (TypeError "Cannot read properties of undefined")
  | Some token => k token
  end.

(** [new KickApiClient({ accessToken })]: the HTTP client keeps
    [accessToken ?? null]. *)
Definition new_KickApiClient (accessToken : opt jsstring) : option (opt jsstring) :=
  Some (match accessToken with undefined => null | t => t end).

(** The token a client holds. *)
Definition nullish_client (c : option (opt jsstring)) : opt jsstring :=
  match c with Some t => t | None => null end.

(** ** The store *)

Definition emptyStore : json := JObj [("streamers", JArr [])].

Definition readFile : M jsstring :=
  fun s => match st_file s with
           | Some raw => (Ret raw, s)
           | None => (Throw (FsError "ENOENT"), s)
           end.

Definition parse (raw : jsstring) : M json :=
  match JSON_parse raw with
  | Some v => ret v
  | None => throw SyntaxError
  end.

Definition loadStore : M json :=
  try_catch
    (raw <- readFile;;
     data <- parse raw;;
     match data with
     | JNull => throw (TypeError "Cannot read properties of null")
     | _ =>
         match field (Some data) "streamers" with
         | Some (JArr _) => ret data
         | _ => ret emptyStore
         end
     end)
    (fun e =>
       match e with
       | FsError "ENOENT" => ret tt
       | _ => console warn "Failed to read store file:"
       end;;
       ret emptyStore).

Definition fs_op (ev : event) : M unit :=
  emit ev;;
  n <- next_tick;;
  match fs_write n with
  | Some e => throw e
  | None => ret tt
  end.

(** [fs.writeFile (path, data, 'utf8')] opens the file with the flag [w],
    which truncates it, and then writes the bytes of [data]: a write that
    fails once the file is open leaves the bytes written so far, and what
    the file held before is lost.  The text that [JSON.stringify] returns is
    well-formed, so that a complete write is read back as [data]. *)
Definition writeFile (data : jsstring) : M unit :=
  emit (EvWriteFile data);;
  n <- next_tick;;
  match fs_write n with
  | Some e =>
      match fs_written n with
      | Some k =>
          modify (set_file (Some (Buffer_toString (take k (Utf8.encode data)))))
      | None => ret tt
      end;;
      throw e
  | None => modify (set_file (Some data))
  end.

Definition saveStore (store : json) : M unit :=
  fs_op EvMkdir;;
  writeFile (JSON_stringify store);;
  console log "Updated streamer store".

(** A property of an object literal as [JSON.stringify] writes it: a
    property whose value is [undefined] is left out. *)
Definition property (k : string) (v : opt jsstring) : list (string * json) :=
  match v with
  | undefined => []
  | null => [(k, JNull)]
  | val s => [(k, JStr s)]
  end.

Definition persisted (o : streamer) : json :=
  JObj ([("broadcasterUserId", JNum (broadcasterUserId o))]
        ++ property "slug" (slug o)
        ++ [("refreshToken", JStr (refreshToken o))]
        ++ property "subscriptionId" (subscriptionId o)).

Definition payload (s : state) : json :=
  JObj [("streamers",
         JArr (List.map
                 (fun e => persisted (default emptyObject (st_heap s !! e.2)))
                 (st_streamers s)))].

Definition persistState : M unit :=
  s <- get_state;;
  saveStore (payload s).

Definition upsertStreamer (l : loc) : M unit :=
  o <- deref l;;
  modify (fun s => set_streamers (mapSet (broadcasterUserId o) l (st_streamers s)) s);;
  persistState.

(** ** Tokens and subscriptions *)

Definition refreshStreamerTokens (l : loc) : M unit :=
  o <- deref l;;
  response <- refreshAccessToken (refreshToken o);;
  n <- next_tick;;
  update l (fun o =>
    with_tokens (access_token response)
                (nullish (refresh_token response) (refreshToken o))
                (val (nullish (expires_in response) 3600%Z))
                (val (date_now n)) o).

Definition chat_message_sent : jsstring := js "chat.message.sent".

(** [entry?.event === 'chat.message.sent' && entry?.version === 1] *)
Definition is_chat_subscription (entry : Subscription) : bool :=
  bool_decide (sub_event entry = val chat_message_sent)
  && bool_decide (sub_version entry = val 1%Z).

Definition subscribe (key : opt jsstring) (l : loc) : M unit :=
  update l (with_subscriptionId key);;
  modify (fun s => set_subscriptions (mapSet key l (st_subscriptions s)) s).

Definition ensureSubscription (l : loc) : M unit :=
  o <- deref l;;
  match client o with
  | None => throw (TypeError "Cannot read properties of undefined")
  | Some token =>
      existing <- api token (ListEventSubscriptions (broadcasterUserId o));;
      let match_ :=
        match existing with
        | RSubscriptions entries => List.find is_chat_subscription entries
        | _ => None
        end in
      match match_ with
      | Some entry => subscribe (sub_id entry) l
      | None =>
          created <- api token (CreateEventSubscriptions (broadcasterUserId o));;
          let subscription :=
            match created with
            | RCreated (first :: _) => Some first
            | _ => None
            end in
          match subscription with
          | Some sub =>
              if truthyS (subscription_id sub) then
                subscribe (subscription_id sub) l
              else throw (Error "Failed to create chat.message.sent subscription")
          | None => throw (Error "Failed to create chat.message.sent subscription")
          end
      end
  end.

(** ** Webhook authentication *)

Definition loadKickPublicKey : M unit :=
  s <- get_state;;
  if truthyS (st_publicKey s) then ret tt
  else
    response <- api null GetPublicKey;;
    let public_key :=
      match response with RPublicKey k => k | _ => undefined end in
    if negb (truthyS public_key) then
      throw (Error "Unable to fetch Kick public key for webhook verification.")
    else
      modify (set_publicKey public_key);;
      console log "Loaded Kick public key.".

(** The argument of [verifier.update]: the template literal
    [`${messageId}.${timestamp}.${rawBody}`], in which the Buffer [rawBody]
    is converted with [toString], and which [update] hashes as UTF-8. *)
Definition signedData (messageId timestamp : jsstring)
  (rawBody : list Byte.byte) : list Byte.byte :=
  Utf8.encode (messageId ++ js "." ++ timestamp ++ js "."
               ++ Buffer_toString rawBody).

Definition verifyWebhook (headers : list (string * jsstring))
  (rawBody : list Byte.byte) : M bool :=
  s <- get_state;;
  if negb (truthyS (st_publicKey s)) then ret false
  else
    let messageId := header headers "kick-event-message-id" in
    let timestamp := header headers "kick-event-message-timestamp" in
    let signature := header headers "kick-event-signature" in
    let providedSecret := header headers "kick-app-secret" in
    if negb (truthyS messageId) || negb (truthyS timestamp)
       || negb (truthyS signature) then ret false
    else if truthyS (val (eventSecret config))
            && (negb (truthyS providedSecret)
                || negb (bool_decide (providedSecret = val (eventSecret config))))
    then console warn "Webhook secret mismatch.";; ret false
    else
      let data := signedData (nullish messageId []) (nullish timestamp [])
                             rawBody in
      try_catch
        (lift (rsa_sha256_verify (nullish (st_publicKey s) []) data
                 (base64_decode (nullish signature []))))
        (fun _ =>
           console error "Webhook signature verification failed:";;
           ret false).

(** ** Timers *)

Definition setTimer (t : timer) : M nat :=
  fun s => (Ret (st_nextTimer s),
            set_timers (st_timers s ++ [(st_nextTimer s, t)])
                       (S (st_nextTimer s)) s).

(** [Math.max((streamer.expiresIn - 120) * 1000, 30_000)], computed on the
    integers: this is the number that JavaScript computes as long as the
    product is below 2^53; above, both are beyond the delays that a timer
    holds.  [None] is NaN, the value for a streamer without [expiresIn]. *)
Definition refreshInMs (expiresIn : opt Z) : option Z :=
  match expiresIn with
  | undefined => None
  | null => Some (Z.max ((0 - 120) * 1000) 30000)
  | val e => Some (Z.max ((e - 120) * 1000) 30000)
  end.

(** [scheduleStreamerRefresh]: arms the timeout and returns it; what the
    callback does when it fires is [refreshTask]. *)
Definition scheduleStreamerRefresh (l : loc) : M nat :=
  o <- deref l;;
  let delay := refreshInMs (expiresIn o) in
  id <- setTimer (RefreshTimeout l delay);;
  emit (EvSetTimeout id l delay);;
  ret id.

Definition refreshTask (l : loc) : M unit :=
  try_catch
    (refreshStreamerTokens l;;
     o <- deref l;;
     update l (with_client (new_KickApiClient (accessToken o)));;
     id <- scheduleStreamerRefresh l;;
     update l (with_refreshTimer (Some id));;
     persistState;;
     console log "Refreshed token for broadcaster")
    (fun _ => console error "Automatic refresh failed for streamer").

Definition reportError (context : string) (e : exn) : M unit :=
  match e with
  | KickApiError _ => console error (String.append "Kick API error while " context)
  | _ => console error (String.append "Unexpected error while " context)
  end.

(** The callback of the keep-alive interval. *)
Definition keepAliveTask (l : loc) : M unit :=
  try_catch
    (o <- deref l;;
     with_streamer_client l (fun token =>
       sendChatMessage token user (keepAliveUserMessage config)
                       (Some (broadcasterUserId o)) None);;
     with_streamer_client l (fun token =>
       sendChatMessage token bot (keepAliveBotMessage config) None None);;
     console log "Keep-alive messages posted for broadcaster")
    (fun e => reportError "keep-alive" e).

Definition scheduleKeepAlive (l : loc) : M unit :=
  id <- setTimer (KeepAliveInterval l (keepAliveIntervalMs config));;
  emit (EvSetInterval id l (keepAliveIntervalMs config));;
  update l (with_keepAliveTimer (Some id)).

(** The event loop runs the callback of timer [id]: a timeout fires once
    and is gone, an interval stays armed. *)
Definition fire (id : nat) : M unit :=
  s <- get_state;;
  match mapGet id (st_timers s) with
  | Some (RefreshTimeout l _) =>
      modify (fun s => set_timers (List.filter (fun t => negb (t.1 =? id)%nat)
                                               (st_timers s))
                                  (st_nextTimer s) s);;
      refreshTask l
  | Some (KeepAliveInterval l _) => keepAliveTask l
  | None => ret tt
  end.

(** ** Commands *)

Definition toLowerCase (s : jsstring) : jsstring :=
  flat_map (fun c => if (65 <=? c) && (c <=? 90) then [c + 32]
                     else if c <? 128 then [c] else unicodeLower c)%N s.

Definition sendReply (l : loc) (message : jsstring)
  (replyToMessageId : option json) : M unit :=
  try_catch
    (with_streamer_client l (fun token =>
       sendChatMessage token bot message None replyToMessageId);;
     ret tt)
    (fun e => reportError "sending reply" e).

Definition handleChatMessage (l : loc) (payload : option json) : M unit :=
  match field payload "content" with
  | None | Some JNull => ret tt
  | Some (JStr raw) =>
      let content := trim raw in
      match content with
      | [] => ret tt
      | _ =>
          let lower := toLowerCase content in
          let messageId := field payload "message_id" in
          if bool_decide (lower = js "!ping") then
            sendReply l (js "!pong") messageId
          else if startsWith lower (js "!title ") then
            let newTitle := trim (slice (String.length "!title ") content) in
            match newTitle with
            | [] => ret tt
            | _ =>
                try_catch
                  (with_streamer_client l (fun token =>
                     updateChannelMetadata token newTitle);;
                   sendReply l (js "Updated title to: " ++ newTitle) messageId;;
                   console log "Updated title for broadcaster")
                  (fun e =>
                     reportError "updating title" e;;
                     sendReply l (js "Failed to update title. Check logs.")
                               messageId)
            end
          else ret tt
      end
  | Some _ => throw (TypeError "payload?.content?.trim is not a function")
  end.

(** ** HTTP handlers *)

Definition readBody (req : request) : M (list Byte.byte) := lift (req_body req).

Definition handleEventWebhook (req : request) : M response :=
  try_catch
    (rawBody <- readBody req;;
     ok <- verifyWebhook (req_headers req) rawBody;;
     if negb ok then ret (401%Z, js "invalid signature")
     else
       payload <- parse (Buffer_toString rawBody);;
       let eventType := header (req_headers req) "kick-event-type" in
       let subscriptionId := header (req_headers req) "kick-event-subscription-id" in
       (if bool_decide (eventType = val chat_message_sent) then
          s <- get_state;;
          match mapGet subscriptionId (st_subscriptions s) with
          | None => console warn "No streamer mapped for subscription"
          | Some l => handleChatMessage l (Some payload)
          end
        else ret tt);;
       ret (200%Z, js "ok"))
    (fun _ =>
       console error "Webhook handler error:";;
       ret (500%Z, js "error")).

(** The module neither defines nor imports [initializeStreamer]: evaluating
    the identifier throws. *)
Definition initializeStreamer (l : loc) : M unit :=
  throw (ReferenceError "initializeStreamer").

Definition handleAddStreamer (req : request) : M response :=
  try_catch
    (rawBody <- readBody req;;
     body <- parse (Buffer_toString rawBody);;
     let secret := header (req_headers req) "kick-app-secret" in
     if truthyS (val (eventSecret config))
        && negb (bool_decide (secret = val (eventSecret config)))
     then ret (401%Z, js "invalid secret")
     else
       let code := field (Some body) "code" in
       let codeVerifier := field (Some body) "code_verifier" in
       let redirect_uri := field (Some body) "redirect_uri" in
       if negb (truthyJ code) || negb (truthyJ codeVerifier) then
         ret (400%Z, js "code and code_verifier required")
       else
         tokenResponse <-
           exchangeCodeForToken code
             (match redirect_uri with
              | None | Some JNull => Some (JStr (redirectUri config))
              | r => r
              end)
             codeVerifier;;
         let accessToken_ := access_token tokenResponse in
         let refreshToken_ := refresh_token tokenResponse in
         if negb (truthyS accessToken_) || negb (truthyS refreshToken_) then
           ret (500%Z, js "token exchange failed")
         else
           channels <- api (nullish_client (new_KickApiClient accessToken_))
                           GetChannels;;
           let channel :=
             match channels with
             | RChannels (first :: _) => Some first
             | _ => None
             end in
           match channel with
           | Some ch =>
               if truthyZ (broadcaster_user_id ch) then
                 l <- alloc
                        (with_persisted (channel_slug ch)
                           (nullish refreshToken_ []) null
                           {| broadcasterUserId :=
                                nullish (broadcaster_user_id ch) 0%Z;
                              slug := undefined; refreshToken := [];
                              subscriptionId := undefined;
                              accessToken := undefined;
                              expiresIn := undefined; updatedAt := undefined;
                              client := None; refreshTimer := None;
                              keepAliveTimer := None |});;
                 upsertStreamer l;;
                 initializeStreamer l;;
                 o <- deref l;;
                 ret (200%Z,
                      JSON_stringify
                        (JObj ([("ok", JBool true);
                                ("broadcasterUserId", JNum (broadcasterUserId o))]
                               ++ property "slug" (slug o))))
               else ret (500%Z, js "unable to determine broadcaster")
           | None => ret (500%Z, js "unable to determine broadcaster")
           end)
    (fun _ =>
       console error "Failed to add streamer:";;
       ret (500%Z, js "error")).

End Bot.

(** ** A platform to run the bot on

    [Json] is [JSON.stringify (v, null, 2)] and [JSON.parse] for documents
    whose numbers are integers written without fraction or exponent, as
    [JSON.stringify] writes the integers below 10^21, and whose keys are
    Latin-1 and no array indices, which an object would list first: a
    number of another form is not read.  [Base64] is the standard alphabet.
    They instantiate [Platform] in the examples and in the properties of
    the store. *)

Module Json.

Definition hex_digit (n : N) : N :=
  (if n <? 10 then 48 + n else 87 + n)%N.

Definition isSurrogate (c : N) : bool := ((55296 <=? c) && (c <=? 57343))%N.
Definition isHigh (c : N) : bool := ((55296 <=? c) && (c <=? 56319))%N.
Definition isLow (c : N) : bool := ((56320 <=? c) && (c <=? 57343))%N.

(** [\uXXXX] *)
Definition unicodeEscape (c : N) : jsstring :=
  [92; 117; hex_digit (c / 4096); hex_digit ((c / 256) mod 16);
   hex_digit ((c / 16) mod 16); hex_digit (c mod 16)]%N.

(** A character of a string literal: the quote, the backslash and the
    control characters are escaped, and so is a lone surrogate. *)
Definition escape (c : N) : jsstring :=
  (if c =? 34 then [92; 34]
   else if c =? 92 then [92; 92]
   else if c =? 8 then [92; 98]
   else if c =? 12 then [92; 102]
   else if c =? 10 then [92; 110]
   else if c =? 13 then [92; 114]
   else if c =? 9 then [92; 116]
   else if (c <? 32) || isSurrogate c then unicodeEscape c
   else [c])%N.

Definition quote (s : jsstring) : jsstring :=
  [34%N] ++ flat_map escape s ++ [34%N].

Fixpoint digits (fuel : nat) (n : N) (acc : jsstring) : jsstring :=
  match fuel with
  | O => acc
  | S fuel' =>
      (if n <? 10 then (48 + n) :: acc
       else digits fuel' (n / 10) ((48 + n mod 10) :: acc))%N
  end.

Definition number (z : Z) : jsstring :=
  let n := Z.abs_N z in
  (if (z <? 0)%Z then [45%N] else [])
  ++ digits (S (N.to_nat (N.log2 n))) n [].

Definition indent (depth : nat) : jsstring := repeat 32%N (2 * depth).

Fixpoint sep (depth : nat) (items : list jsstring) : jsstring :=
  match items with
  | [] => []
  | [x] => x
  | x :: r => x ++ js "," ++ [10%N] ++ indent depth ++ sep depth r
  end.

Definition block (open close : N) (depth : nat) (items : list jsstring)
  : jsstring :=
  match items with
  | [] => [open; close]
  | _ => [open; 10%N] ++ indent (S depth) ++ sep (S depth) items
         ++ [10%N] ++ indent depth ++ [close]
  end.

Fixpoint print (depth : nat) (v : json) : jsstring :=
  match v with
  | JNull => js "null"
  | JBool true => js "true"
  | JBool false => js "false"
  | JNum z => number z
  | JStr s => quote s
  | JArr l => block 91 93 depth (List.map (print (S depth)) l)
  | JObj fs =>
      block 123 125 depth
        (List.map (fun kv => quote (js kv.1) ++ js ": " ++ print (S depth) kv.2)
                  fs)
  end.

Definition stringify (v : json) : jsstring := print 0 v.

Definition is_ws (c : N) : bool :=
  ((c =? 32) || (c =? 9) || (c =? 10) || (c =? 13))%N.

Fixpoint skip_ws (s : jsstring) : jsstring :=
  match s with
  | c :: r => if is_ws c then skip_ws r else s
  | [] => []
  end.

Definition hex_value (c : N) : option N :=
  (if (48 <=? c) && (c <=? 57) then Some (c - 48)
   else if (97 <=? c) && (c <=? 102) then Some (c - 87)
   else if (65 <=? c) && (c <=? 70) then Some (c - 55)
   else None)%N.

(** The code points of a sequence of code units: a high surrogate followed
    by a low one is one code point. *)
Fixpoint pairs (s : jsstring) : jsstring :=
  match s with
  | [] => []
  | h :: r =>
      match r with
      | l :: r' =>
          if isHigh h && isLow l
          then (65536 + (h - 55296) * 1024 + (l - 56320))%N :: pairs r'
          else h :: pairs r
      | [] => [h]
      end
  end.

(** The characters after an opening quote, up to the closing one: the code
    units that the escapes denote are put together with the characters
    around them.  A control character is not allowed. *)
Fixpoint chars (s : jsstring) (acc : jsstring) : option (jsstring * jsstring) :=
  match s with
  | [] => None
  | c :: r =>
      (if c =? 34 then Some (pairs (rev acc), r)
       else if c =? 92 then
         match r with
         | [] => None
         | e :: r1 =>
             if e =? 117 then
               match r1 with
               | a :: b :: c :: d :: r2 =>
                   match hex_value a, hex_value b, hex_value c, hex_value d with
                   | Some a, Some b, Some c, Some d =>
                       chars r2 ((((a * 16 + b) * 16 + c) * 16 + d) :: acc)
                   | _, _, _, _ => None
                   end
               | _ => None
               end
             else if (e =? 34) || (e =? 92) || (e =? 47) then chars r1 (e :: acc)
             else if e =? 98 then chars r1 (8 :: acc)
             else if e =? 102 then chars r1 (12 :: acc)
             else if e =? 110 then chars r1 (10 :: acc)
             else if e =? 114 then chars r1 (13 :: acc)
             else if e =? 116 then chars r1 (9 :: acc)
             else None
         end
       else if c <? 32 then None
       else chars r (c :: acc))%N
  end.

Definition is_digit (c : N) : bool := ((48 <=? c) && (c <=? 57))%N.

Fixpoint nat_digits (s : jsstring) (acc : N) : N * jsstring :=
  match s with
  | c :: r =>
      if is_digit c then nat_digits r (acc * 10 + (c - 48))%N
      else (acc, s)
  | [] => (acc, [])
  end.

(** An integer: no leading zero, and no fraction or exponent after it. *)
Definition integer (s : jsstring) : option (Z * jsstring) :=
  let '(neg, s1) :=
    match s with
    | c :: r => if (c =? 45)%N then (true, r) else (false, s)
    | [] => (false, s)
    end in
  match s1 with
  | d :: r =>
      if is_digit d then
        if (d =? 48)%N && match r with e :: _ => is_digit e | [] => false end
        then None
        else
          let '(n, rest) := nat_digits s1 0%N in
          if match rest with
             | c :: _ => ((c =? 46) || (c =? 101) || (c =? 69))%N
             | [] => false
             end
          then None
          else Some (if neg then (- Z.of_N n)%Z else Z.of_N n, rest)
      else None
  | [] => None
  end.

Definition string_of_js (s : jsstring) : string :=
  string_of_list_ascii (List.map ascii_of_N s).

(** A member read from an object: a key that comes again replaces the
    value read before and keeps its place.  [acc] holds the members read
    so far, the last one first. *)
Fixpoint replaceMember (k : string) (v : json) (acc : list (string * json))
  : option (list (string * json)) :=
  match acc with
  | [] => None
  | (k', v') :: r =>
      if String.eqb k k' then Some ((k, v) :: r)
      else match replaceMember k v r with
           | Some r' => Some ((k', v') :: r')
           | None => None
           end
  end.

Definition addMember (k : string) (v : json) (acc : list (string * json))
  : list (string * json) :=
  match replaceMember k v acc with
  | Some acc' => acc'
  | None => (k, v) :: acc
  end.

(** The elements of an array and the members of an object, read with the
    parser [value] of the values; [n] bounds their number. *)
Fixpoint elements (value : jsstring -> option (json * jsstring)) (n : nat)
  (s : jsstring) (acc : list json) : option (list json * jsstring) :=
  match n with
  | O => None
  | S n' =>
      match value s with
      | Some (v, r) =>
          match skip_ws r with
          | c :: r' =>
              (if c =? 44 then elements value n' r' (v :: acc)
               else if c =? 93 then Some (rev (v :: acc), r')
               else None)%N
          | [] => None
          end
      | None => None
      end
  end.

Fixpoint members (value : jsstring -> option (json * jsstring)) (n : nat)
  (s : jsstring) (acc : list (string * json))
  : option (list (string * json) * jsstring) :=
  match n with
  | O => None
  | S n' =>
      match skip_ws s with
      | q :: r =>
          if (q =? 34)%N then
            match chars r [] with
            | Some (k, r1) =>
                match skip_ws r1 with
                | c :: r2 =>
                    if (c =? 58)%N then
                      match value r2 with
                      | Some (v, r3) =>
                          let acc' := addMember (string_of_js k) v acc in
                          match skip_ws r3 with
                          | c' :: r4 =>
                              (if c' =? 44 then members value n' r4 acc'
                               else if c' =? 125 then Some (rev acc', r4)
                               else None)%N
                          | [] => None
                          end
                      | None => None
                      end
                    else None
                | [] => None
                end
            | None => None
            end
          else None
      | [] => None
      end
  end.

(** A value; [fuel] bounds the depth of the document. *)
Fixpoint value (fuel : nat) (s : jsstring) : option (json * jsstring) :=
  match fuel with
  | O => None
  | S fuel' =>
      match skip_ws s with
      | [] => None
      | c :: r =>
          (if c =? 34 then
             match chars r [] with
             | Some (str, r') => Some (JStr str, r')
             | None => None
             end
           else if c =? 91 then
             match skip_ws r with
             | c' :: r' =>
                 if c' =? 93 then Some (JArr [], r')
                 else
                   match elements (value fuel') (S (length r)) r [] with
                   | Some (l, r') => Some (JArr l, r')
                   | None => None
                   end
             | [] => None
             end
           else if c =? 123 then
             match skip_ws r with
             | c' :: r' =>
                 if c' =? 125 then Some (JObj [], r')
                 else
                   match members (value fuel') (S (length r)) r [] with
                   | Some (fs, r') => Some (JObj fs, r')
                   | None => None
                   end
             | [] => None
             end
           else if startsWith (c :: r) (js "null") then Some (JNull, skipn 4 (c :: r))
           else if startsWith (c :: r) (js "true") then
             Some (JBool true, skipn 4 (c :: r))
           else if startsWith (c :: r) (js "false") then
             Some (JBool false, skipn 5 (c :: r))
           else
             match integer (c :: r) with
             | Some (z, r') => Some (JNum z, r')
             | None => None
             end)%N
      end
  end.

Definition parse (s : jsstring) : option json :=
  match value (S (length s)) s with
  | Some (v, r) => match skip_ws r with [] => Some v | _ => None end
  | None => None
  end.

End Json.

Module Base64.

Definition sextet (c : N) : option N :=
  (if (65 <=? c) && (c <=? 90) then Some (c - 65)
   else if (97 <=? c) && (c <=? 122) then Some (c - 71)
   else if (48 <=? c) && (c <=? 57) then Some (c + 4)
   else if (c =? 43) || (c =? 45) then Some 62
   else if (c =? 47) || (c =? 95) then Some 63
   else None)%N.

Fixpoint sextets (s : jsstring) : list N :=
  match s with
  | [] => []
  | c :: r =>
      if (c =? 61)%N then []
      else match sextet c with
           | Some v => v :: sextets r
           | None => sextets r
           end
  end.

Fixpoint octets (l : list N) : list N :=
  match l with
  | a :: b :: c :: d :: r =>
      (a * 4 + b / 16 :: (b mod 16) * 16 + c / 4 :: (c mod 4) * 64 + d
         :: octets r)%N
  | [a; b; c] => [a * 4 + b / 16; (b mod 16) * 16 + c / 4]%N
  | [a; b] => [a * 4 + b / 16]%N
  | _ => []
  end.

Definition decode (s : jsstring) : list Byte.byte :=
  List.map Utf8.byte_of_N (octets (sextets s)).

End Base64.

Module Demo.

(** A stand-in for the signature check: a key is readable when it is
    PEM-armoured, and a signature is valid when it repeats the data.  A
    write that the disk refuses has opened the file and written nothing. *)
Definition verify (pem : jsstring) (data signature : list Byte.byte)
  : exn + bool :=
  if startsWith pem (js "-----BEGIN ") then inr (bool_decide (signature = data))
  else inl (Error "error:1E08010C:DECODER routines::unsupported").

Definition platform (oauth : nat -> grant -> exn + TokenResponse)
  (rest : nat -> opt jsstring -> apiRequest -> exn + apiResponse)
  (disk : nat -> option exn) : Platform :=
  {| unicodeLower := fun c => [c];
     JSON_stringify := Json.stringify;
     JSON_parse := Json.parse;
     base64_decode := Base64.decode;
     rsa_sha256_verify := verify;
     oauth_token := oauth;
     api_request := rest;
     fs_write := disk;
     fs_written := fun _ => Some 0%nat;
     date_now := fun _ => js "2025-11-02T00:00:00.000Z" |}.

Definition config : Config :=
  {| redirectUri := js "http://localhost:3000/oauth/callback";
     eventSecret := js "s3cret";
     keepAliveIntervalMs := 300000;
     keepAliveUserMessage := js "Remember to stretch and grab some water!";
     keepAliveBotMessage := js "Your friendly bot is online across all channels" |}.

Definition pem : jsstring := js "-----BEGIN PUBLIC KEY-----".

(** A network that is down, and one that accepts everything. *)
Definition offline : Platform :=
  platform (fun _ _ => inl (KickApiError 503))
           (fun _ _ _ => inl (KickApiError 503)) (fun _ => None).

Definition online : Platform :=
  platform (fun _ _ => inr {| access_token := val (js "AT2");
                              refresh_token := val (js "RT2");
                              expires_in := val 3600%Z |})
           (fun _ _ _ => inr RNull) (fun _ => None).

End Demo.

(** ** The UTF-8 decoder as a transducer

    [step] is one transition of [Utf8.decode_from] and [run] a sequence of
    them; [scalar] are the code points that have an encoding.  The [_ok]
    predicates are checked over their whole range by evaluation. *)

Module Utf8Check.
Import Utf8.

Definition step (st : option pending) (b : N) : jsstring * option pending :=
  match st with
  | None => lead b
  | Some p =>
      if ((lower p <=? b) && (b <=? upper p))%N then
        let cp := N.lor (N.shiftl (code_point p) 6) (N.land b 63) in
        match bytes_needed p with
        | S (S k) => ([], Some {| code_point := cp; bytes_needed := S k;
                                  lower := 128; upper := 191 |})
        | _ => ([cp], None)
        end
      else let '(out, st') := lead b in (replacement :: out, st')
  end.

Fixpoint run (st : option pending) (bs : list N) : jsstring * option pending :=
  match bs with
  | [] => ([], st)
  | b :: r => let '(o1, st1) := step st b in
              let '(o2, st2) := run st1 r in (o1 ++ o2, st2)
  end.

Definition scalar (c : N) : bool :=
  ((c <? 55296) || (57343 <? c) && (c <=? 1114111))%N.

(** [f] holds of every number whose binary digits are [prefix] followed by
    [bits] more. *)
Fixpoint all_below (bits : nat) (prefix : N) (f : N -> bool) : bool :=
  match bits with
  | O => f prefix
  | S k => all_below k (N.double prefix) f && all_below k (N.succ_double prefix) f
  end.

(** The first three bytes of a four-byte sequence, from the code point
    without its low six bits. *)
Definition head3 (hi : N) : list N :=
  [N.lor 240 (N.shiftr hi 12); N.lor 128 (N.land (N.shiftr hi 6) 63);
   N.lor 128 (N.land hi 63)].

Definition small_ok (c : N) : bool :=
  implb (scalar c && (c <? 65536)%N)
        (forallb (fun b => b <? 256)%N (encode_cp c)
         && match run None (encode_cp c) with
            | ([c'], None) => (c' =? c)%N
            | _ => false
            end).

Definition head3_ok (hi : N) : bool :=
  implb ((1024 <=? hi) && (hi <=? 17407))%N
        (forallb (fun b => b <? 256)%N (head3 hi)
         && match run None (head3 hi) with
            | ([], Some p) =>
                (code_point p =? hi)%N && (bytes_needed p =? 1)%nat
                && (lower p =? 128)%N && (upper p =? 191)%N
            | _ => false
            end).

Definition last_ok (lo : N) : bool :=
  ((128 <=? N.lor 128 lo) && (N.lor 128 lo <=? 191)
   && (N.land (N.lor 128 lo) 63 =? lo))%N.

End Utf8Check.

(** A Buffer is well-formed UTF-8 when it encodes a string of scalar
    values. *)
Definition wellFormedUtf8 (buf : list Byte.byte) : Prop :=
  exists str, Forall (fun c => Utf8Check.scalar c = true) str
              /\ buf = Utf8.encode str.

(** The payload as the specification words it: the bytes of
    [messageId + "." + timestamp + "."] followed by the body as received. *)
Definition exactPayload (messageId timestamp : jsstring)
  (rawBody : list Byte.byte) : list Byte.byte :=
  Utf8.encode (messageId ++ js "." ++ timestamp ++ js ".") ++ rawBody.

(** ** Vocabulary of the properties *)

(** The streamer object behind a reference. *)
Definition obj (s : state) (l : loc) : streamer :=
  default emptyObject (st_heap s !! l).

Definition is_console (e : event) : bool :=
  match e with EvConsole _ _ => true | _ => false end.

(** Everything but the trace and the count of external calls is the same. *)
Definition same_process (s s' : state) : Prop :=
  st_heap s' = st_heap s /\ st_next s' = st_next s
  /\ st_streamers s' = st_streamers s
  /\ st_subscriptions s' = st_subscriptions s
  /\ st_publicKey s' = st_publicKey s
  /\ st_timers s' = st_timers s /\ st_nextTimer s' = st_nextTimer s
  /\ st_file s' = st_file s.

(** The reply to [!ping]. *)
Definition pong (messageId : json) : chatBody :=
  {| content := js "!pong"; type := bot; chat_broadcaster_user_id := None;
     reply_to_message_id := Some messageId |}.

(** A failure that was reported: a line on the console, at the level of
    errors. *)
Definition reported (line : event) : Prop :=
  exists msg, line = EvConsole error msg.

(** The two posts of a keep-alive tick. *)
Definition keepAliveUser (config : Config) (o : streamer) : chatBody :=
  {| content := keepAliveUserMessage config; type := user;
     chat_broadcaster_user_id := Some (broadcasterUserId o);
     reply_to_message_id := None |}.

Definition keepAliveBot (config : Config) : chatBody :=
  {| content := keepAliveBotMessage config; type := bot;
     chat_broadcaster_user_id := None; reply_to_message_id := None |}.

(** The registry once [state.streamers.set] has run in [upsertStreamer]. *)
Definition upserted (s : state) (l : loc) : state :=
  set_streamers (mapSet (broadcasterUserId (obj s l)) l (st_streamers s)) s.

(** What reading a property of a reloaded record gives, for a field that
    held [x] when the record was written. *)
Definition reloaded (x : opt jsstring) : option json :=
  match x with
  | undefined => None
  | null => Some JNull
  | val v => Some (JStr v)
  end.

(** Two streamer objects with the same persisted fields. *)
Definition same_record (o o' : streamer) : Prop :=
  broadcasterUserId o = broadcasterUserId o' /\ slug o = slug o'
  /\ refreshToken o = refreshToken o' /\ subscriptionId o = subscriptionId o'.

(** The order of a refresh as the specification words it: whenever a
    timeout is armed, the store has been written before in the same trace. *)
Fixpoint persists_before_rearming (written : bool) (trace : list event) : bool :=
  match trace with
  | [] => true
  | EvWriteFile _ :: rest => persists_before_rearming true rest
  | EvSetTimeout _ _ _ :: rest =>
      written && persists_before_rearming written rest
  | _ :: rest => persists_before_rearming written rest
  end.

(** ** Scenarios *)

(** The onboarding scenario of the specification: the exchange of code
    [abc] with verifier [xyz] returns AT1, RT1 and 3600; the channel lookup
    returns broadcaster 42, slug foo; subscriptions can be listed and
    created. *)
Module Scenario.

Definition tokens : TokenResponse :=
  {| access_token := val (js "AT1"); refresh_token := val (js "RT1");
     expires_in := val 3600%Z |}.

Definition oauth (n : nat) (g : grant) : exn + TokenResponse :=
  match g with
  | AuthorizationCode (JStr code) _ (JStr verifier) =>
      if bool_decide (code = js "abc" /\ verifier = js "xyz")
      then inr tokens else inl (KickApiError 400)
  | AuthorizationCode _ _ _ => inl (KickApiError 400)
  | RefreshGrant _ => inr tokens
  end.

Definition rest (n : nat) (token : opt jsstring) (r : apiRequest)
  : exn + apiResponse :=
  match r with
  | GetChannels =>
      inr (RChannels [{| broadcaster_user_id := val 42%Z;
                         channel_slug := val (js "foo") |}])
  | ListEventSubscriptions _ => inr (RSubscriptions [])
  | CreateEventSubscriptions _ =>
      inr (RCreated [{| subscription_id := val (js "sub-1") |}])
  | _ => inr RNull
  end.

Definition platform : Platform := Demo.platform oauth rest (fun _ => None).

Definition body : json :=
  JObj [("code", JStr (js "abc")); ("code_verifier", JStr (js "xyz"))].

Definition request : request :=
  {| req_headers := [("kick-app-secret", js "s3cret")];
     req_body := inr (Utf8.encode (Json.stringify body)) |}.

End Scenario.

Module Examples.

(** A process whose public key has been loaded. *)
Definition ready : state := set_publicKey (val Demo.pem) initial.

(** A signed delivery: the signature header is the base64 of [body] behind
    the message id [m] and the timestamp [t]. *)
Definition delivery (subscription signature : string)
  (body : list Byte.byte) : request :=
  {| req_headers :=
       [("kick-event-message-id", js "m");
        ("kick-event-message-timestamp", js "t");
        ("kick-event-signature", js signature);
        ("kick-app-secret", js "s3cret");
        ("kick-event-type", js "chat.message.sent");
        ("kick-event-subscription-id", js subscription)];
     req_body := inr body |}.

Definition tenant (id : Z) (name token sub : string) (refresh keepAlive : nat)
  : streamer :=
  {| broadcasterUserId := id; slug := val (js name);
     refreshToken := js (String.append "RT-" token);
     subscriptionId := val (js sub);
     accessToken := val (js (String.append "AT-" token));
     expiresIn := val 3600%Z; updatedAt := undefined;
     client := Some (val (js (String.append "AT-" token)));
     refreshTimer := Some refresh; keepAliveTimer := Some keepAlive |}.

(** Two onboarded tenants, each with its refresh timeout and its
    keep-alive interval. *)
Definition two_tenants : state :=
  {| st_heap := {[ 0%nat := tenant 42%Z "foo" "1" "sub-1" 0%nat 1%nat;
                   1%nat := tenant 43%Z "bar" "2" "sub-2" 2%nat 3%nat ]};
     st_next := 2%nat;
     st_streamers := [(42%Z, 0%nat); (43%Z, 1%nat)];
     st_subscriptions := [(val (js "sub-1"), 0%nat); (val (js "sub-2"), 1%nat)];
     st_publicKey := val Demo.pem;
     st_timers := [(0%nat, RefreshTimeout 0%nat (Some 3480000%Z));
                   (1%nat, KeepAliveInterval 0%nat 300000%Z);
                   (2%nat, RefreshTimeout 1%nat (Some 3480000%Z));
                   (3%nat, KeepAliveInterval 1%nat 300000%Z)];
     st_nextTimer := 4%nat;
     st_file := None;
     st_tick := 0%nat;
     st_trace := [] |}.

(** A chat message event. *)
Definition event_of (text : string) : json :=
  JObj [("message_id", JStr (js "msg-1")); ("content", JStr (js text))].

Definition message (text : string) : option json := Some (event_of text).

(** A network whose first call fails and whose later calls succeed. *)
Definition flaky : Platform :=
  Demo.platform (fun _ _ => inl (KickApiError 503))
                (fun n _ _ => match n with
                              | O => inl (KickApiError 500)
                              | S _ => inr RNull
                              end)
                (fun _ => None).

End Examples.

(** * More of the program

    The start-up path of the bot, the request listener and the PKCE helpers
    of the SDK, and the vocabulary of the properties proved about them and
    about the functions above. *)

(** ** Start-up: [initStreamers], [startWebhookServer] and [main] *)

(** An entry of the store as [initStreamers] meets it: [null], an entry
    whose [refreshToken] is falsy (any other value that is not an object
    among them), or an entry that becomes a streamer object.  The streamer
    objects of this development are typed, and hold the entries that
    [persistState] writes: a numeric [broadcasterUserId], a string
    [refreshToken], and a [slug] and a [subscriptionId] that are strings,
    [null] or absent; an entry with a truthy [refreshToken] and a field of
    another type is [Untyped].  The other properties of an entry are
    overwritten before they are read, and are left out. *)
Inductive storeEntry : Type :=
| NullEntry
| NoRefreshToken
| Entry (o : streamer)
| Untyped.

Definition optString (v : option json) : option (opt jsstring) :=
  match v with
  | None => Some undefined
  | Some JNull => Some null
  | Some (JStr s) => Some (val s)
  | Some _ => None
  end.

Definition readEntry (entry : json) : storeEntry :=
  match entry with
  | JNull => NullEntry
  | _ =>
      if negb (truthyJ (field (Some entry) "refreshToken")) then NoRefreshToken
      else
        match field (Some entry) "broadcasterUserId",
              optString (field (Some entry) "slug"),
              field (Some entry) "refreshToken",
              optString (field (Some entry) "subscriptionId") with
        | Some (JNum id), Some sl, Some (JStr token), Some sub =>
            Entry {| broadcasterUserId := id; slug := sl; refreshToken := token;
                     subscriptionId := sub; accessToken := undefined;
                     expiresIn := undefined; updatedAt := undefined;
                     client := None; refreshTimer := None;
                     keepAliveTimer := None |}
        | _, _, _, _ => Untyped
        end
  end.

(** The two paths the server listens on. *)
Record Routes := {
  webhookPath : jsstring;
  addStreamerEndpoint : jsstring;
}.

Section Startup.

Context {P : Platform} (config : Config) (routes : Routes).

(** The [try] block of the loop of [initStreamers], for the entry [l]. *)
Definition initStreamers_try (l : loc) : M unit :=
  refreshStreamerTokens l;;
  o <- deref l;;
  update l (with_client (new_KickApiClient (accessToken o)));;
  id <- scheduleStreamerRefresh l;;
  update l (with_refreshTimer (Some id));;
  ensureSubscription l;;
  o <- deref l;;
  modify (fun s =>
    set_streamers (mapSet (broadcasterUserId o) l (st_streamers s)) s);;
  (if truthyS (subscriptionId o) then
     modify (fun s =>
       set_subscriptions (mapSet (subscriptionId o) l (st_subscriptions s)) s)
   else ret tt);;
  scheduleKeepAlive config l;;
  console log "Streamer ready".

(** The loop of [initStreamers] over the entries of the store.  Reading
    [entry.refreshToken] throws on a [null] entry.  What the bot does with
    an [Untyped] entry is not described: the embedding stops there, and the
    properties of start-up are stated for the other stores, those that
    [persistState] writes among them. *)
Fixpoint initStreamers_for (entries : list json) : M unit :=
  match entries with
  | [] => ret tt
  | entry :: rest =>
      match readEntry entry with
      | NullEntry => throw (TypeError "Cannot read properties of null")
      | NoRefreshToken =>
          console warn "Streamer missing refresh token. Skipping.";;
          initStreamers_for rest
      | Entry o =>
          l <- alloc o;;
          try_catch (initStreamers_try l)
                    (fun _ => console error "Failed to initialize streamer");;
          initStreamers_for rest
      | Untyped => throw (TypeError "store entry with a field of another type")
      end
  end.

Definition initStreamers : M unit :=
  store <- loadStore;;
  match field (Some store) "streamers" with
  | Some (JArr []) =>
      console log "No streamers registered yet. Awaiting incoming add requests"
  | Some (JArr entries) =>
      initStreamers_for entries;;
      persistState
  | _ => throw (TypeError "Cannot read properties of undefined")
  end.

(** The request listener of [startWebhookServer]. *)
Definition listener (method url : jsstring) (req : request) : M response :=
  if bool_decide (method = js "POST")
     && bool_decide (url = addStreamerEndpoint routes) then
    handleAddStreamer config req
  else if bool_decide (method = js "POST")
          && bool_decide (url = webhookPath routes) then
    handleEventWebhook config req
  else ret (404%Z, []).

(** [startWebhookServer]: once the server listens it logs the two lines. *)
Definition startWebhookServer : M unit :=
  console log "Webhook server listening";;
  console log "Expose this endpoint via a public URL".

Definition main : M unit :=
  loadKickPublicKey;;
  initStreamers;;
  startWebhookServer.

End Startup.

(** A store whose entries the typed streamer objects hold. *)
Definition typedStore {P : Platform} (s : state) : Prop :=
  forall store entries,
    (loadStore s).1 = Ret store ->
    field (Some store) "streamers" = Some (JArr entries) ->
    Forall (fun entry => readEntry entry <> Untyped) entries.

(** ** PKCE: src/auth.js *)

Module Pkce.

(** [Buffer.prototype.toString('base64')]: the standard alphabet, with
    padding. *)
Definition digit (v : N) : N :=
  (if v <? 26 then v + 65
   else if v <? 52 then v + 71
   else if v <? 62 then v - 4
   else if v =? 62 then 43
   else 47)%N.

Fixpoint base64 (bytes : list N) : jsstring :=
  match bytes with
  | a :: b :: c :: rest =>
      (digit (a / 4) :: digit ((a mod 4) * 16 + b / 16)
         :: digit ((b mod 16) * 4 + c / 64) :: digit (c mod 64)
         :: base64 rest)%N
  | [a; b] =>
      [digit (a / 4); digit ((a mod 4) * 16 + b / 16);
       digit ((b mod 16) * 4); 61]%N
  | [a] => [digit (a / 4); digit ((a mod 4) * 16); 61; 61]%N
  | [] => []
  end.

Definition Buffer_toString_base64 (buffer : list Byte.byte) : jsstring :=
  base64 (List.map Byte.to_N buffer).

(** [s.replace(/c/g, d)] for a character [c]. *)
Definition replaceAll (c d : N) (s : jsstring) : jsstring :=
  List.map (fun x => if (x =? c)%N then d else x) s.

Fixpoint dropPadding (s : jsstring) : jsstring :=
  match s with
  | c :: r => if (c =? 61)%N then dropPadding r else s
  | [] => []
  end.

(** [s.replace(/=+$/, '')] *)
Definition stripPadding (s : jsstring) : jsstring :=
  rev (dropPadding (rev s)).

Definition base64UrlEncode (buffer : list Byte.byte) : jsstring :=
  stripPadding
    (replaceAll 47 95 (replaceAll 43 45 (Buffer_toString_base64 buffer))).

Section Pair.

(** [crypto.createHash('sha256').update(verifier).digest()] *)
Variable sha256 : jsstring -> list Byte.byte.

(** [generatePkceVerifier], given the bytes that [crypto.randomBytes]
    returned. *)
Definition generatePkceVerifier (random : list Byte.byte) : jsstring :=
  base64UrlEncode random.

Definition generatePkceChallenge (verifier : jsstring) : jsstring :=
  base64UrlEncode (sha256 verifier).

Definition createPkcePair (random : list Byte.byte) : jsstring * jsstring :=
  let verifier := generatePkceVerifier random in
  let challenge := generatePkceChallenge verifier in
  (verifier, challenge).

End Pair.

(** The unreserved characters of RFC 7636 that base64url uses:
    letters, digits, [-] and [_]. *)
Definition urlSafe (c : N) : bool :=
  ((65 <=? c) && (c <=? 90) || (97 <=? c) && (c <=? 122)
   || (48 <=? c) && (c <=? 57) || (c =? 45) || (c =? 95))%N.

(** The sextets that [base64] writes, without the padding. *)
Fixpoint sextetsOf (bytes : list N) : list N :=
  match bytes with
  | a :: b :: c :: rest =>
      (a / 4 :: (a mod 4) * 16 + b / 16 :: (b mod 16) * 4 + c / 64 :: c mod 64
         :: sextetsOf rest)%N
  | [a; b] => [a / 4; (a mod 4) * 16 + b / 16; (b mod 16) * 4]%N
  | [a] => [a / 4; (a mod 4) * 16]%N
  | [] => []
  end.

Definition urlDigit (v : N) : N :=
  (if v =? 62 then 45 else if v =? 63 then 95 else digit v)%N.

Definition digit_ok (v : N) : bool :=
  urlSafe (urlDigit v)
  && match Base64.sextet (urlDigit v) with
     | Some v' => (v' =? v)%N
     | None => false
     end
  && (urlDigit v =? (if (digit v =? 47) then 95
                     else if (digit v =? 43) then 45 else digit v))%N.

(** The padding of [base64]. *)
Fixpoint padding (bytes : list N) : list N :=
  match bytes with
  | _ :: _ :: _ :: rest => padding rest
  | [_; _] => [61%N]
  | [_] => [61%N; 61%N]
  | [] => []
  end.

End Pkce.

(** ** Frames *)

(** Every run of [m], whether it returns or throws, relates the state
    before to the state after. *)
Definition keeps {A} (R : state -> state -> Prop) (m : M A) : Prop :=
  forall s r s', m s = (r, s') -> R s s'.

(** A relation between the state before and the state after that can be
    followed along a run: it is reflexive and transitive, and it ignores
    the trace and the count of external calls. *)
Class Frame (R : state -> state -> Prop) : Prop := {
  frame_refl : forall s, R s s;
  frame_trans : forall s1 s2 s3, R s1 s2 -> R s2 s3 -> R s1 s3;
  frame_trace : forall s t, R s (set_trace t s);
  frame_tick : forall s n, R s (set_tick n s);
}.

(** Relations that also ignore the streamer objects, the timers, the store
    file, the registry, the reverse index. *)
Class IgnoresHeap (R : state -> state -> Prop) : Prop := {
  ignores_heap : forall s h, R s (set_heap h s);
  ignores_next : forall s n, R s (set_next n s);
}.

Class IgnoresTimers (R : state -> state -> Prop) : Prop :=
  ignores_timers : forall s t n, R s (set_timers t n s).

Class IgnoresFile (R : state -> state -> Prop) : Prop :=
  ignores_file : forall s f, R s (set_file f s).

Class IgnoresStreamers (R : state -> state -> Prop) : Prop :=
  ignores_streamers : forall s m, R s (set_streamers m s).

Class IgnoresSubscriptions (R : state -> state -> Prop) : Prop :=
  ignores_subscriptions : forall s m, R s (set_subscriptions m s).

(** The registry, the reverse index and the public key are the same. *)
Definition same_tenants (s s' : state) : Prop :=
  st_streamers s' = st_streamers s
  /\ st_subscriptions s' = st_subscriptions s
  /\ st_publicKey s' = st_publicKey s.

Definition same_key (s s' : state) : Prop := st_publicKey s' = st_publicKey s.

(** The reverse index, the timers and the key are the same. *)
Definition same_wiring (s s' : state) : Prop :=
  st_subscriptions s' = st_subscriptions s
  /\ st_timers s' = st_timers s
  /\ st_nextTimer s' = st_nextTimer s
  /\ st_publicKey s' = st_publicKey s.

(** ** Vocabulary of the further properties *)

(** The keys of a Map, in insertion order. *)
Definition keys {K V} (m : list (K * V)) : list K := List.map fst m.

(** A string in the form of the convention, in which a surrogate pair is
    one code point: no high surrogate is followed by a low one. *)
Definition codePoints (s : jsstring) : Prop := Json.pairs s = s.

Definition optCodePoints (x : opt jsstring) : Prop :=
  match x with val v => codePoints v | _ => True end.

(** A document that [JSON.parse] reads back as it was written: its strings
    are in the form of the convention and the keys of an object are all
    different. *)
Fixpoint printable (v : json) : Prop :=
  match v with
  | JStr s => codePoints s
  | JArr l => fold_right (fun x rest => printable x /\ rest) True l
  | JObj fs =>
      NoDup (List.map fst fs)
      /\ fold_right (fun kv rest => printable (snd kv) /\ rest) True fs
  | _ => True
  end.

(** What may follow a number in a text: no digit, and nothing that starts
    a fraction or an exponent. *)
Definition terminated (rest : jsstring) : Prop :=
  match rest with
  | [] => True
  | c :: _ =>
      Json.is_digit c = false
      /\ ((c =? 46) || (c =? 101) || (c =? 69))%N = false
  end.

Definition MAX_SAFE_INTEGER : Z := 2 ^ 53 - 1.

(** The persisted fields of a streamer object are JavaScript values: the id
    is an integer that a number holds exactly, and the strings are in the
    form of the convention. *)
Definition representable (o : streamer) : Prop :=
  Z.abs (broadcasterUserId o) <= MAX_SAFE_INTEGER
  /\ optCodePoints (slug o) /\ codePoints (refreshToken o)
  /\ optCodePoints (subscriptionId o).

(** A record of a store that holds the persisted fields of the streamer
    object [o], as they are read from it, and no other property. *)
Definition recordOf (o : streamer) (record : json) : Prop :=
  field (Some record) "broadcasterUserId" = Some (JNum (broadcasterUserId o))
  /\ field (Some record) "slug" = reloaded (slug o)
  /\ field (Some record) "refreshToken" = Some (JStr (refreshToken o))
  /\ field (Some record) "subscriptionId" = reloaded (subscriptionId o)
  /\ forall k v, field (Some record) k = Some v ->
       k ∈ ["broadcasterUserId"; "slug"; "refreshToken"; "subscriptionId"].

(** Two processes with the same registry whose streamer objects have the
    same persisted fields: they may differ in the access tokens and in the
    other runtime fields. *)
Definition same_records (s s2 : state) : Prop :=
  st_streamers s2 = st_streamers s
  /\ forall l, same_record (obj s2 l) (obj s l).

(** The delay that Node arms for the second argument of [setTimeout]: a
    delay that is NaN, below 1 or above [TIMEOUT_MAX] becomes 1 ms. *)
Definition TIMEOUT_MAX : Z := 2 ^ 31 - 1.

Definition armedDelay (delay : option Z) : Z :=
  match delay with
  | Some ms => if ((1 <=? ms) && (ms <=? TIMEOUT_MAX))%Z then ms else 1
  | None => 1
  end.

(** [Array.isArray(existing) ? existing.find(...) : null] and
    [Array.isArray(created) ? created[0] : null], then
    [subscription?.subscription_id], in [ensureSubscription]. *)
Definition listedSubscription (existing : apiResponse) : option Subscription :=
  match existing with
  | RSubscriptions entries => List.find is_chat_subscription entries
  | _ => None
  end.

Definition createdId (created : apiResponse) : opt jsstring :=
  match created with
  | RCreated (first :: _) => subscription_id first
  | _ => undefined
  end.

(** [redirectUri ?? config.redirectUri] in [handleAddStreamer]. *)
Definition redirectOf (config : Config) (body : json) : option json :=
  let redirect_uri := field (Some body) "redirect_uri" in
  match redirect_uri with
  | None | Some JNull => Some (JStr (redirectUri config))
  | r => r
  end.

(** The object literal [handleAddStreamer] builds for a new tenant. *)
Definition newTenant (id : Z) (sl : opt jsstring) (token : jsstring) : streamer :=
  {| broadcasterUserId := id; slug := sl; refreshToken := token;
     subscriptionId := null; accessToken := undefined;
     expiresIn := undefined; updatedAt := undefined; client := None;
     refreshTimer := None; keepAliveTimer := None |}.

(** A reply of the bot: [sendReply] posts it through [sendChatMessage]. *)
Definition botReply (message : jsstring) (replyTo : option json) : chatBody :=
  {| content := message; type := bot; chat_broadcaster_user_id := None;
     reply_to_message_id := if truthyJ replyTo then replyTo else None |}.

(** What a chat command may do on behalf of a streamer whose client is
    [c]: write to the console, post a non-blank message as the bot, set a
    title that is not blank and has no blank at either end, each with the
    token of that client. *)
Definition command_effect (c : option (opt jsstring)) (e : event) : Prop :=
  match e with
  | EvConsole _ _ => True
  | EvApi token (PostChat b) =>
      c = Some token /\ type b = bot /\ trim (content b) <> []
      /\ chat_broadcaster_user_id b = None
  | EvApi token (PatchChannels title) =>
      c = Some token /\ title <> [] /\ trim title = title
  | _ => False
  end.

(** The refresh timeouts of the streamer object [l] that are pending. *)
Definition is_refresh_of (l : loc) (t : nat * timer) : bool :=
  match t.2 with
  | RefreshTimeout l' _ => bool_decide (l' = l)
  | KeepAliveInterval _ _ => false
  end.

Definition pendingRefreshes (l : loc) (timers : list (nat * timer)) : nat :=
  length (List.filter (is_refresh_of l) timers).

(** The streamer object of a store entry that holds the persisted fields of
    [o]: the runtime fields are not stored. *)
Definition stored (o : streamer) : streamer :=
  {| broadcasterUserId := broadcasterUserId o; slug := slug o;
     refreshToken := refreshToken o; subscriptionId := subscriptionId o;
     accessToken := undefined; expiresIn := undefined; updatedAt := undefined;
     client := None; refreshTimer := None; keepAliveTimer := None |}.

(** What start-up reads from the record of a streamer object: an entry
    without a refresh token is skipped, and the runtime fields are not
    there. *)
Definition restarted (o : streamer) : storeEntry :=
  match refreshToken o with
  | [] => NoRefreshToken
  | _ => Entry (stored o)
  end.

(** A streamer object that start-up has made ready: it has a client, its
    refresh timeout and its keep-alive interval are armed, and the registry
    and the reverse index lead to it. *)
Definition wired (config : Config) (s : state) (l : loc) : Prop :=
  mapGet (broadcasterUserId (obj s l)) (st_streamers s) = Some l
  /\ mapGet (subscriptionId (obj s l)) (st_subscriptions s) = Some l
  /\ client (obj s l) = new_KickApiClient (accessToken (obj s l))
  /\ (exists id d, refreshTimer (obj s l) = Some id
                   /\ (id, RefreshTimeout l d) ∈ st_timers s)
  /\ (exists id, keepAliveTimer (obj s l) = Some id
                 /\ (id, KeepAliveInterval l (keepAliveIntervalMs config))
                    ∈ st_timers s).

(** A streamer object that can serve: it has a client, and the refresh
    timeout and the keep-alive interval it names are armed for it. *)
Definition ready (config : Config) (s : state) (l : loc) : Prop :=
  client (obj s l) <> None
  /\ (exists id d, refreshTimer (obj s l) = Some id
                   /\ (id, RefreshTimeout l d) ∈ st_timers s)
  /\ (exists id, keepAliveTimer (obj s l) = Some id
                 /\ (id, KeepAliveInterval l (keepAliveIntervalMs config))
                    ∈ st_timers s).

(** The delay of the refresh timeout armed after the token endpoint has
    answered [response]. *)
Definition delayAfter (response : TokenResponse) : option Z :=
  refreshInMs (val (nullish (expires_in response) 3600)).

(** Every registered streamer object has been allocated and is ready. *)
Definition registry_ready (config : Config) (s : state) : Prop :=
  forall k l, (k, l) ∈ st_streamers s ->
              (l < st_next s)%nat /\ ready config s l.

(** ** Further scenarios *)

Module Cases.

(** A disk that is full. *)
Definition full_disk : Platform :=
  Demo.platform (fun _ _ => inl (KickApiError 503))
                (fun _ _ _ => inr RNull)
                (fun _ => Some (FsError "ENOSPC")).

(** An API on which broadcaster 42 has a subscription to follows and one to
    chat messages. *)
Definition subscribed : Platform :=
  Demo.platform Scenario.oauth
    (fun _ _ r =>
       match r with
       | ListEventSubscriptions _ =>
           inr (RSubscriptions
                  [{| sub_id := val (js "sub-follow");
                      sub_event := val (js "channel.followed");
                      sub_version := val 1%Z |};
                   {| sub_id := val (js "sub-chat");
                      sub_event := val (js "chat.message.sent");
                      sub_version := val 1%Z |}])
       | _ => inr RNull
       end)
    (fun _ => None).

(** A token endpoint that has revoked the refresh token [RT-1]. *)
Definition revoked : Platform :=
  Demo.platform
    (fun _ g => match g with
                | RefreshGrant token =>
                    if bool_decide (token = js "RT-1")
                    then inl (KickApiError 401) else inr Scenario.tokens
                | _ => inl (KickApiError 400)
                end)
    Scenario.rest (fun _ => None).

(** A REST API that is down behind a token endpoint that works. *)
Definition api_down : Platform :=
  Demo.platform Scenario.oauth (fun _ _ _ => inl (KickApiError 503))
                (fun _ => None).

(** A disk that fills up: the directory is there, and the file is opened
    and truncated before the write fails. *)
Definition disk_fills : Platform :=
  Demo.platform (fun _ _ => inl (KickApiError 503))
                (fun _ _ _ => inr RNull)
                (fun n => match n with
                          | O => None
                          | S _ => Some (FsError "ENOSPC")
                          end).

(** The two tenants with a store on disk, and a streamer object for a third
    broadcaster that is not registered yet. *)
Definition arrival : state :=
  set_file (Some (Json.stringify (payload Examples.two_tenants)))
    (set_next 3%nat
       (set_heap (<[2%nat := newTenant 44 (val (js "baz")) (js "RT-3")]>
                    (st_heap Examples.two_tenants))
                 Examples.two_tenants)).

(** The two tenants after the first has been given another access token,
    with another lifetime. *)
Definition reissued : state :=
  set_heap (<[0%nat := with_client (Some (val (js "AT-9")))
                         (with_tokens (val (js "AT-9")) (js "RT-1") (val 60)
                            (val (js "2025-11-03T00:00:00.000Z"))
                            (obj Examples.two_tenants 0%nat))]>
              (st_heap Examples.two_tenants))
           Examples.two_tenants.

(** A process that starts on the store of two tenants. *)
Definition restart : state :=
  set_file (Some (Json.stringify (payload Examples.two_tenants))) Examples.ready.

(** The first entry of that store. *)
Definition entry : json := persisted (obj Examples.two_tenants 0%nat).

(** An onboarding request with the given secret and body. *)
Definition onboarding (secret : string) (body : json) : request :=
  {| req_headers := [("kick-app-secret", js secret)];
     req_body := inr (Utf8.encode (Json.stringify body)) |}.

End Cases.

(** * Properties *)

(** ** UTF-8: decoding what was encoded *)

Module Utf8Facts.
Import Utf8 Utf8Check.

Lemma decode_from_step st b rest :
  decode_from st (b :: rest) = (step st b).1 ++ decode_from (step st b).2 rest.
Proof.
  destruct st as [p |]; simpl.
  - destruct (_ && _)%N.
    + destruct (bytes_needed p) as [| [| k]]; reflexivity.
    + destruct (lead b); reflexivity.
  - destruct (lead b); reflexivity.
Qed.

Lemma decode_from_run bs : forall st rest,
  decode_from st (bs ++ rest) = (run st bs).1 ++ decode_from (run st bs).2 rest.
Proof.
  induction bs as [| b bs IH]; intros st rest; [reflexivity |].
  change ((b :: bs) ++ rest) with (b :: (bs ++ rest)).
  rewrite decode_from_step, IH. simpl.
  destruct (step st b) as [o1 st1]. simpl.
  destruct (run st1 bs) as [o2 st2].
  simpl. by rewrite app_assoc.
Qed.

Lemma run_app a b st :
  run st (a ++ b) = ((run st a).1 ++ (run (run st a).2 b).1, (run (run st a).2 b).2).
Proof.
  revert st. induction a as [| x a IH]; intros st; simpl.
  - by destruct (run st b).
  - destruct (step st x) as [o1 st1]. rewrite IH.
    destruct (run st1 a) as [o2 st2]. simpl.
    destruct (run st2 b) as [o3 st3]. simpl. by rewrite app_assoc.
Qed.

Lemma all_below_spec f bits : forall prefix c,
  all_below bits prefix f = true ->
  (prefix * 2 ^ N.of_nat bits <= c < (prefix + 1) * 2 ^ N.of_nat bits)%N ->
  f c = true.
Proof.
  induction bits as [| k IH]; intros prefix c H Hc; simpl in H.
  - change (2 ^ N.of_nat 0)%N with 1%N in Hc.
    assert (c = prefix) as -> by lia. exact H.
  - apply andb_true_iff in H as [H1 H2].
    rewrite Nat2N.inj_succ, N.pow_succ_r' in Hc.
    destruct (N.lt_ge_cases c ((2 * prefix + 1) * 2 ^ N.of_nat k)) as [Hlt | Hge].
    + apply (IH _ _ H1). rewrite N.double_spec. lia.
    + apply (IH _ _ H2). rewrite N.succ_double_spec. lia.
Qed.

Lemma small_ok_all : all_below 16 0 small_ok = true.
Proof. vm_cast_no_check (eq_refl true). Qed.

Lemma head3_ok_all : all_below 15 0 head3_ok = true.
Proof. vm_cast_no_check (eq_refl true). Qed.

Lemma last_ok_all : all_below 6 0 last_ok = true.
Proof. vm_cast_no_check (eq_refl true). Qed.

Lemma testbit_63 n : N.testbit 63 n = (n <? 6)%N.
Proof.
  change 63%N with (N.ones 6).
  destruct (N.ltb_spec n 6).
  - by apply N.ones_spec_low.
  - by apply N.ones_spec_high.
Qed.

Lemma join_low6 c : N.lor (N.shiftl (N.shiftr c 6) 6) (N.land c 63) = c.
Proof.
  apply N.bits_inj. intros n.
  rewrite N.lor_spec, N.land_spec, testbit_63.
  destruct (N.ltb_spec n 6).
  - rewrite N.shiftl_spec_low by done. simpl. by rewrite andb_true_r.
  - rewrite N.shiftl_spec_high' by done. rewrite N.shiftr_spec'.
    rewrite andb_false_r, orb_false_r. f_equal. lia.
Qed.

Lemma land_63_lt c : (N.land c 63 < 64)%N.
Proof.
  change 63%N with (N.ones 6). rewrite N.land_ones.
  apply N.mod_lt. done.
Qed.

Lemma encode_cp_4 c :
  (65536 <= c <= 1114111)%N ->
  encode_cp c = head3 (N.shiftr c 6) ++ [N.lor 128 (N.land c 63)].
Proof.
  intros Hc. unfold encode_cp, head3.
  assert ((c <? 128) = false)%N as -> by (apply N.ltb_ge; lia).
  assert ((c <? 2048) = false)%N as -> by (apply N.ltb_ge; lia).
  assert ((c <? 65536) = false)%N as -> by (apply N.ltb_ge; lia).
  assert ((55296 <=? c) && (c <=? 57343) || (1114111 <? c) = false)%N as ->.
  { apply orb_false_iff. split.
    - apply andb_false_iff. right. apply N.leb_gt. lia.
    - apply N.ltb_ge. lia. }
  rewrite !N.shiftr_shiftr. reflexivity.
Qed.

Lemma implb_elim (a b : bool) : implb a b = true -> a = true -> b = true.
Proof. by destruct a, b. Qed.

Lemma forallb_lt_256 l :
  forallb (fun b => b <? 256)%N l = true -> Forall (fun b => b < 256)%N l.
Proof.
  intros H. apply Forall_forall. intros b Hb. apply N.ltb_lt.
  rewrite forallb_forall in H. apply H. by apply list_elem_of_In.
Qed.

Lemma run_small c :
  scalar c = true -> (c < 65536)%N ->
  Forall (fun b => b < 256)%N (encode_cp c) /\ run None (encode_cp c) = ([c], None).
Proof.
  intros Hs Hlt.
  assert (small_ok c = true) as H.
  { apply (all_below_spec _ _ 0%N c small_ok_all).
    change (2 ^ N.of_nat 16)%N with 65536%N. lia. }
  assert (scalar c && (c <? 65536)%N = true) as E
    by (rewrite Hs; by apply N.ltb_lt).
  apply (implb_elim _ _ H) in E. clear H.
  apply andb_true_iff in E as [H1 H2].
  split; [by apply forallb_lt_256 |].
  destruct (run None (encode_cp c)) as [[| c' [| ? ?]] [p |]]; try discriminate.
  apply N.eqb_eq in H2. by subst.
Qed.

Lemma run_head3 hi :
  (1024 <= hi <= 17407)%N ->
  Forall (fun b => b < 256)%N (head3 hi)
  /\ run None (head3 hi)
     = ([], Some {| code_point := hi; bytes_needed := 1;
                    lower := 128; upper := 191 |}).
Proof.
  intros Hhi.
  assert (head3_ok hi = true) as H.
  { apply (all_below_spec _ _ 0%N hi head3_ok_all).
    change (2 ^ N.of_nat 15)%N with 32768%N. lia. }
  assert ((1024 <=? hi) && (hi <=? 17407) = true)%N as E
    by (apply andb_true_iff; split; apply N.leb_le; lia).
  apply (implb_elim _ _ H) in E. clear H.
  apply andb_true_iff in E as [H1 H2].
  split; [by apply forallb_lt_256 |].
  destruct (run None (head3 hi)) as [[| ? ?] [[cp n lo up] |]]; try discriminate.
  simpl in H2.
  apply andb_true_iff in H2 as [H2 Hu]. apply andb_true_iff in H2 as [H2 Hl].
  apply andb_true_iff in H2 as [Hcp Hn].
  apply N.eqb_eq in Hcp, Hl, Hu. apply Nat.eqb_eq in Hn. by subst.
Qed.

Lemma run_last c :
  run (Some {| code_point := N.shiftr c 6; bytes_needed := 1;
               lower := 128; upper := 191 |})
      [N.lor 128 (N.land c 63)] = ([c], None)
  /\ (N.lor 128 (N.land c 63) < 256)%N.
Proof.
  pose proof (land_63_lt c) as Hlo.
  assert (last_ok (N.land c 63) = true) as L.
  { apply (all_below_spec _ _ 0%N _ last_ok_all).
    change (2 ^ N.of_nat 6)%N with 64%N. lia. }
  unfold last_ok in L.
  apply andb_true_iff in L as [L L3]. apply andb_true_iff in L as [L1 L2].
  split; [| apply N.leb_le in L2; lia].
  simpl. rewrite L1, L2. simpl. apply N.eqb_eq in L3. rewrite L3.
  by rewrite join_low6.
Qed.

Lemma run_encode_cp c :
  scalar c = true ->
  Forall (fun b => b < 256)%N (encode_cp c) /\ run None (encode_cp c) = ([c], None).
Proof.
  intros Hs.
  destruct (N.lt_ge_cases c 65536) as [Hlt | Hge]; [by apply run_small |].
  assert (c <= 1114111)%N as Hle.
  { unfold scalar in Hs. apply orb_true_iff in Hs as [Hs | Hs].
    - apply N.ltb_lt in Hs. lia.
    - apply andb_true_iff in Hs as [_ Hs]. by apply N.leb_le. }
  rewrite encode_cp_4 by lia.
  assert (1024 <= N.shiftr c 6 <= 17407)%N as Hhi.
  { rewrite N.shiftr_div_pow2. change (2 ^ 6)%N with 64%N. split.
    - apply N.div_le_lower_bound; lia.
    - apply N.lt_succ_r. apply N.Div0.div_lt_upper_bound; lia. }
  destruct (run_head3 _ Hhi) as [F1 R1]. destruct (run_last c) as [R2 F2].
  split.
  - apply Forall_app. split; [exact F1 | by constructor].
  - rewrite run_app, R1. cbn [fst snd]. rewrite R2. reflexivity.
Qed.

Lemma to_N_byte_of_N n : (n < 256)%N -> Byte.to_N (byte_of_N n) = n.
Proof.
  intros Hn. unfold byte_of_N.
  destruct (Byte.of_N n) as [b |] eqn:E.
  - by apply Byte.to_of_N.
  - apply Byte.of_N_None_iff in E. lia.
Qed.

Lemma to_N_byte_of_N_all l :
  Forall (fun b => b < 256)%N l -> List.map Byte.to_N (List.map byte_of_N l) = l.
Proof.
  induction 1 as [| n l Hn _ IH]; simpl; [done |].
  by rewrite to_N_byte_of_N, IH.
Qed.

Lemma encode_cp_bytes str :
  Forall (fun c => scalar c = true) str ->
  Forall (fun b => b < 256)%N (flat_map encode_cp str).
Proof.
  induction 1 as [| c str Hc _ IH]; simpl; [constructor |].
  apply Forall_app. split; [| exact IH]. by apply run_encode_cp.
Qed.

Lemma decode_from_encode str :
  Forall (fun c => scalar c = true) str ->
  decode_from None (flat_map encode_cp str) = str.
Proof.
  induction 1 as [| c str Hc _ IH]; simpl; [done |].
  rewrite decode_from_run.
  destruct (run_encode_cp c Hc) as [_ ->]. simpl. by rewrite IH.
Qed.

(** Decoding inverts encoding on strings of scalar values. *)
Lemma decode_encode str :
  Forall (fun c => scalar c = true) str -> decode (encode str) = str.
Proof.
  intros H. unfold decode, encode.
  rewrite to_N_byte_of_N_all by (by apply encode_cp_bytes).
  by apply decode_from_encode.
Qed.

Lemma encode_app a b : encode (a ++ b) = encode a ++ encode b.
Proof. unfold encode. by rewrite flat_map_app, List.map_app. Qed.

End Utf8Facts.

(** A well-formed body goes through [toString] and [update] unchanged. *)
Lemma reencode_wellFormed rawBody :
  wellFormedUtf8 rawBody -> Utf8.encode (Buffer_toString rawBody) = rawBody.
Proof.
  intros (str & Hstr & ->). unfold Buffer_toString.
  by rewrite Utf8Facts.decode_encode.
Qed.

Lemma signedData_parts messageId timestamp rawBody :
  signedData messageId timestamp rawBody
  = Utf8.encode (messageId ++ js "." ++ timestamp ++ js ".")
    ++ Utf8.encode (Buffer_toString rawBody).
Proof.
  unfold signedData. rewrite <- Utf8Facts.encode_app.
  by rewrite <- !app_assoc.
Qed.

(** ** JSON: reading what was written *)

Module JsonFacts.
Import Json.

(** *** Strings *)

Lemma hex_value_digit n : (n < 16)%N -> hex_value (hex_digit n) = Some n.
Proof.
  intros Hn. unfold hex_value, hex_digit.
  destruct (N.ltb_spec n 10).
  - replace ((48 <=? 48 + n) && (48 + n <=? 57))%N with true.
    + f_equal. lia.
    + symmetry. apply andb_true_iff. split; apply N.leb_le; lia.
  - replace ((48 <=? 87 + n) && (87 + n <=? 57))%N with false.
    + replace ((97 <=? 87 + n) && (87 + n <=? 102))%N with true.
      * f_equal. lia.
      * symmetry. apply andb_true_iff. split; apply N.leb_le; lia.
    + symmetry. apply andb_false_iff. right. apply N.leb_gt. lia.
Qed.

Ltac Zify.zify_post_hook ::= Z.to_euclidean_division_equations.

Lemma chars_unicodeEscape c r acc :
  (c < 65536)%N -> chars (unicodeEscape c ++ r) acc = chars r (c :: acc).
Proof.
  intros Hc. unfold unicodeEscape. simpl.
  rewrite !hex_value_digit by lia.
  f_equal. f_equal. lia.
Qed.

Ltac Zify.zify_post_hook ::= idtac.

Lemma chars_escape c r acc : chars (escape c ++ r) acc = chars r (c :: acc).
Proof.
  unfold escape.
  destruct (N.eqb_spec c 34) as [-> | H34]; [reflexivity |].
  destruct (N.eqb_spec c 92) as [-> | H92]; [reflexivity |].
  destruct (N.eqb_spec c 8) as [-> | H8]; [reflexivity |].
  destruct (N.eqb_spec c 12) as [-> | H12]; [reflexivity |].
  destruct (N.eqb_spec c 10) as [-> | H10]; [reflexivity |].
  destruct (N.eqb_spec c 13) as [-> | H13]; [reflexivity |].
  destruct (N.eqb_spec c 9) as [-> | H9]; [reflexivity |].
  destruct ((c <? 32)%N || isSurrogate c) eqn:E.
  - apply chars_unicodeEscape.
    apply orb_true_iff in E as [E | E].
    + apply N.ltb_lt in E. lia.
    + unfold isSurrogate in E. apply andb_true_iff in E as [_ E].
      apply N.leb_le in E. lia.
  - apply orb_false_iff in E as [E _].
    simpl. apply N.eqb_neq in H34, H92. by rewrite H34, H92, E.
Qed.

Lemma chars_quote s : forall acc r,
  chars (flat_map escape s ++ 34%N :: r) acc = Some (pairs (rev acc ++ s), r).
Proof.
  induction s as [| c s IH]; intros acc r; simpl.
  - by rewrite app_nil_r.
  - rewrite <- app_assoc, chars_escape, IH. simpl. by rewrite <- app_assoc.
Qed.

(** The strings of the keys are Latin-1: they hold no surrogate. *)
Lemma pairs_small s : Forall (fun c => (c < 256)%N) s -> pairs s = s.
Proof.
  induction 1 as [| c s Hc Hs IH]; [reflexivity |].
  simpl. destruct s as [| d s']; [reflexivity |].
  replace (isHigh c) with false.
  - simpl. f_equal. exact IH.
  - symmetry. unfold isHigh. apply andb_false_iff. left. apply N.leb_gt. lia.
Qed.

Lemma js_small k : Forall (fun c => (c < 256)%N) (js k).
Proof.
  unfold js. induction (list_ascii_of_string k) as [| a l IH]; constructor;
    [| exact IH].
  pose proof (N_ascii_bounded a). lia.
Qed.

Lemma string_of_js_js k : string_of_js (js k) = k.
Proof.
  unfold string_of_js, js. rewrite List.map_map.
  rewrite (List.map_ext _ id) by (intros a; apply ascii_N_embedding).
  rewrite List.map_id. apply string_of_list_ascii_of_string.
Qed.

(** *** Numbers *)

Lemma digits_app fuel : forall n acc, digits fuel n acc = digits fuel n [] ++ acc.
Proof.
  induction fuel as [| fuel IH]; intros n acc; simpl; [done |].
  destruct (n <? 10)%N; [done |].
  rewrite IH, (IH _ [_]). by rewrite <- app_assoc.
Qed.

Lemma is_digit_small n : (n < 10)%N -> is_digit (48 + n) = true.
Proof.
  intros H. unfold is_digit. apply andb_true_iff. split; apply N.leb_le; lia.
Qed.

Lemma nat_digits_stop rest a : terminated rest -> nat_digits rest a = (a, rest).
Proof. destruct rest as [| c r]; [done |]. intros [H _]. simpl. by rewrite H. Qed.

Ltac Zify.zify_post_hook ::= Z.to_euclidean_division_equations.

(** The digits of [n] are read back as [n]; there is no leading zero. *)
Lemma digits_spec fuel : forall n,
  (0 < fuel)%nat -> (n < 2 ^ N.of_nat fuel)%N ->
  exists d ds,
    digits fuel n [] = d :: ds
    /\ is_digit d = true
    /\ (d = 48%N -> n = 0%N /\ ds = [])
    /\ forall a rest,
         nat_digits (d :: ds ++ rest) a
         = nat_digits rest (a * 10 ^ N.of_nat (length (d :: ds)) + n)%N.
Proof.
  induction fuel as [| fuel IH]; intros n Hfuel Hn; [lia |].
  - simpl digits. destruct (N.ltb_spec n 10) as [Hs | Hl].
    + exists (48 + n)%N, []. split; [done |].
      split; [by apply is_digit_small |]. split; [intros; split; [lia | done] |].
      intros a rest. simpl nat_digits. rewrite is_digit_small by done.
      f_equal. simpl length. change (N.of_nat 1) with 1%N.
      rewrite N.pow_1_r. lia.
    + assert (Hq : (n / 10 < 2 ^ N.of_nat fuel)%N).
      { rewrite Nat2N.inj_succ, N.pow_succ_r' in Hn.
        set (p := (2 ^ N.of_nat fuel)%N) in *. lia. }
      assert (Hpos : (0 < fuel)%nat).
      { destruct fuel; [| lia]. simpl in Hq. lia. }
      destruct (IH _ Hpos Hq) as (d & ds & E & Hd & Hz & Hread).
      rewrite digits_app, E.
      exists d, (ds ++ [48 + n mod 10])%N. split; [done |].
      split; [done |].
      split; [intros H0; destruct (Hz H0); lia |].
      intros a rest. rewrite <- app_assoc. simpl app.
      assert (Hm : (n mod 10 < 10)%N) by lia.
      assert (Hlen : N.of_nat (length (d :: ds ++ [(48 + n mod 10)%N]))
                     = N.succ (N.of_nat (length (d :: ds)))).
      { simpl. rewrite length_app. simpl. lia. }
      rewrite Hlen, N.pow_succ_r', (Hread a (_ :: rest)).
      generalize (10 ^ N.of_nat (length (d :: ds)))%N. intros p.
      cbn [nat_digits]. rewrite is_digit_small by done. f_equal. lia.
Qed.

Ltac Zify.zify_post_hook ::= idtac.

Lemma number_fuel n : (n < 2 ^ N.of_nat (S (N.to_nat (N.log2 n))))%N.
Proof.
  rewrite Nat2N.inj_succ, N2Nat.id.
  destruct n as [| p]; [done |].
  apply N.log2_spec. lia.
Qed.

(** A number is read back, whatever follows it that is no part of a
    number. *)
Lemma integer_number z rest :
  terminated rest -> integer (number z ++ rest) = Some (z, rest).
Proof.
  intros Hrest. unfold number.
  destruct (digits_spec _ _ (Nat.lt_0_succ _) (number_fuel (Z.abs_N z)))
    as (d & ds & E & Hd & Hz & Hread).
  rewrite E.
  assert (H45 : (d =? 45)%N = false).
  { apply N.eqb_neq. intros ->. discriminate. }
  assert (Hlead : (d =? 48)%N
                  && match ds ++ rest with e :: _ => is_digit e | [] => false end
                  = false).
  { destruct (N.eqb_spec d 48) as [-> | _]; [| done].
    destruct (Hz eq_refl) as [_ ->]. simpl.
    destruct rest as [| c r]; [done |]. by destruct Hrest. }
  assert (Hstop : match rest with
                  | c :: _ => ((c =? 46) || (c =? 101) || (c =? 69))%N
                  | [] => false
                  end = false).
  { destruct rest as [| c r]; [done |]. by destruct Hrest. }
  unfold integer.
  destruct (z <? 0)%Z eqn:Hneg; simpl app.
  - cbv beta iota. rewrite N.eqb_refl. cbv beta iota.
    rewrite Hd, Hlead, Hread, nat_digits_stop by done.
    rewrite Hstop. f_equal. f_equal. apply Z.ltb_lt in Hneg. lia.
  - cbv beta iota. rewrite H45. cbv beta iota.
    rewrite Hd, Hlead, Hread, nat_digits_stop by done.
    rewrite Hstop. f_equal. f_equal. apply Z.ltb_ge in Hneg. lia.
Qed.

Lemma number_head z :
  exists d r, number z = d :: r /\ (d = 45%N \/ is_digit d = true).
Proof.
  unfold number.
  destruct (digits_spec _ _ (Nat.lt_0_succ _) (number_fuel (Z.abs_N z)))
    as (d & ds & E & Hd & _).
  rewrite E. destruct (z <? 0)%Z; simpl; eauto.
Qed.

(** *** Documents *)

Lemma json_ind' (Q : json -> Prop) :
  Q JNull -> (forall b, Q (JBool b)) -> (forall z, Q (JNum z)) ->
  (forall s, Q (JStr s)) ->
  (forall l, Forall Q l -> Q (JArr l)) ->
  (forall fs, Forall (fun kv => Q kv.2) fs -> Q (JObj fs)) ->
  forall v, Q v.
Proof.
  intros H1 H2 H3 H4 H5 H6. fix IH 1.
  intros [| b | z | s | l | fs];
    [exact H1 | apply H2 | apply H3 | apply H4 | |].
  - apply H5. induction l as [| x l IHl]; constructor; [apply IH | exact IHl].
  - apply H6. induction fs as [| [k x] fs IHfs]; constructor;
      [apply IH | exact IHfs].
Qed.

Lemma skip_ws_head c r : is_ws c = false -> skip_ws (c :: r) = c :: r.
Proof. intros H. simpl. by rewrite H. Qed.

Lemma skip_ws_indent d s : skip_ws (indent d ++ s) = skip_ws s.
Proof.
  unfold indent. induction (2 * d)%nat as [| n IH]; [reflexivity |]. exact IH.
Qed.

Lemma skip_ws_line d s : skip_ws (10%N :: indent d ++ s) = skip_ws s.
Proof. simpl. apply skip_ws_indent. Qed.

Lemma value_skip fuel s s' : skip_ws s = skip_ws s' -> value fuel s = value fuel s'.
Proof. destruct fuel; [done |]. simpl. by intros ->. Qed.

Lemma digit_tests c :
  is_digit c = true ->
  is_ws c = false /\ (c =? 34)%N = false /\ (c =? 91)%N = false
  /\ (c =? 123)%N = false /\ (c =? 93)%N = false /\ (110 =? c)%N = false
  /\ (116 =? c)%N = false /\ (102 =? c)%N = false.
Proof.
  unfold is_digit, is_ws. intros H. apply andb_true_iff in H as [H1 H2].
  apply N.leb_le in H1, H2.
  repeat split; try (apply N.eqb_neq; lia).
  repeat (apply orb_false_iff; split); apply N.eqb_neq; lia.
Qed.

Lemma print_head d v :
  exists c r, print d v = c :: r /\ is_ws c = false /\ (c =? 93)%N = false.
Proof.
  destruct v as [| [|] | z | s | l | fs].
  - simpl. eauto.
  - simpl. eauto.
  - simpl. eauto.
  - change (print d (JNum z)) with (number z).
    destruct (number_head z) as (c & r & -> & [-> | H]); [eauto |].
    destruct (digit_tests c H) as (? & _ & _ & _ & ? & _). eauto.
  - simpl. unfold quote. simpl. eauto.
  - simpl. unfold block. destruct (List.map _ l); simpl; eauto.
  - simpl. unfold block. destruct (List.map _ fs); simpl; eauto.
Qed.

Lemma print_nonempty d v : print d v <> [].
Proof. destruct (print_head d v) as (c & r & -> & _). done. Qed.

Lemma sep_in d items i : i ∈ items -> (length i <= length (sep d items))%nat.
Proof.
  induction items as [| x [| y r] IH]; intros Hi.
  - by apply elem_of_nil in Hi.
  - apply list_elem_of_singleton in Hi as ->. done.
  - apply elem_of_cons in Hi as [-> | Hi].
    + change (sep d (x :: y :: r))
        with (x ++ js "," ++ [10%N] ++ indent d ++ sep d (y :: r)).
      rewrite length_app. lia.
    + change (sep d (x :: y :: r))
        with (x ++ js "," ++ [10%N] ++ indent d ++ sep d (y :: r)).
      rewrite !length_app. specialize (IH Hi). lia.
Qed.

Lemma sep_length d items :
  Forall (fun i => i <> []) items -> (length items <= length (sep d items))%nat.
Proof.
  induction items as [| x [| y r] IH]; intros H; [done | |].
  - apply Forall_cons in H as [Hx _]. destruct x; [done |]. simpl. lia.
  - apply Forall_cons in H as [Hx H].
    change (sep d (x :: y :: r))
      with (x ++ js "," ++ [10%N] ++ indent d ++ sep d (y :: r)).
    rewrite !length_app. specialize (IH H). simpl length in *. lia.
Qed.

Lemma sep_cons d x y r :
  sep d (x :: y :: r) = x ++ 44%N :: 10%N :: indent d ++ sep d (y :: r).
Proof. reflexivity. Qed.

(** The elements of an array are read back. *)
Lemma elements_sep (p : jsstring -> option (json * jsstring)) d xs :
  (forall s s', skip_ws s = skip_ws s' -> p s = p s') ->
  (forall x tail, x ∈ xs -> terminated tail ->
     p (print (S d) x ++ tail) = Some (x, tail)) ->
  xs <> [] ->
  forall n acc rest s0,
    (length xs <= n)%nat ->
    skip_ws s0
    = skip_ws (sep (S d) (List.map (print (S d)) xs)
               ++ 10%N :: indent d ++ 93%N :: rest) ->
    elements p n s0 acc = Some (rev acc ++ xs, rest).
Proof.
  intros Hp. induction xs as [| x [| y ys] IH]; intros Hx Hne n acc rest s0 Hn Hs0;
    [congruence | |].
  - destruct n as [| n]; [simpl in Hn; lia |]. cbn [elements].
    rewrite (Hp _ _ Hs0). cbn [List.map sep].
    rewrite Hx; [| apply list_elem_of_here | split; reflexivity].
    rewrite skip_ws_line, skip_ws_head by reflexivity.
    reflexivity.
  - destruct n as [| n]; [simpl in Hn; lia |]. cbn [elements].
    rewrite (Hp _ _ Hs0). cbn [List.map]. rewrite sep_cons, <- app_assoc.
    cbn [app].
    rewrite Hx; [| apply list_elem_of_here | split; reflexivity].
    rewrite skip_ws_head by reflexivity.
    change ((44 =? 44)%N) with true. cbv iota.
    rewrite (IH (fun x' tail Hin => Hx x' tail (list_elem_of_further _ _ _ Hin))
                ltac:(done) n (x :: acc) rest).
    + cbn [rev]. by rewrite <- app_assoc.
    + simpl in Hn. simpl. lia.
    + rewrite <- app_assoc, skip_ws_line. reflexivity.
Qed.

Lemma replaceMember_None k v acc :
  k ∉ List.map fst acc -> replaceMember k v acc = None.
Proof.
  induction acc as [| [k' v'] acc IH]; [done |]. simpl.
  intros H. apply not_elem_of_cons in H as [Hne H].
  destruct (String.eqb_spec k k'); [done |]. by rewrite IH.
Qed.

Lemma member_text k x d tail :
  (quote (js k) ++ js ": " ++ print d x) ++ tail
  = 34%N :: flat_map escape (js k) ++ 34%N :: 58%N :: 32%N :: print d x ++ tail.
Proof.
  unfold quote. change (js ": ") with [58%N; 32%N].
  rewrite <- !app_assoc. reflexivity.
Qed.

Lemma members_step (p : jsstring -> option (json * jsstring)) n k x text tail
  acc s0 :
  skip_ws s0
  = 34%N :: flat_map escape (js k) ++ 34%N :: 58%N :: 32%N :: text ++ tail ->
  p (32%N :: text ++ tail) = Some (x, tail) ->
  k ∉ List.map fst acc ->
  members p (S n) s0 acc
  = match skip_ws tail with
    | c :: r =>
        if (c =? 44)%N then members p n r ((k, x) :: acc)
        else if (c =? 125)%N then Some (rev ((k, x) :: acc), r)
        else None
    | [] => None
    end.
Proof.
  intros Hs0 Hp Hk. cbn [members]. rewrite Hs0.
  change ((34 =? 34)%N) with true. cbv iota.
  rewrite chars_quote. cbn [rev app].
  rewrite (pairs_small _ (js_small k)), string_of_js_js.
  rewrite skip_ws_head by reflexivity.
  change ((58 =? 58)%N) with true. cbv iota.
  rewrite Hp. unfold addMember. by rewrite replaceMember_None.
Qed.

(** The members of an object are read back. *)
Lemma members_sep (p : jsstring -> option (json * jsstring)) d fs :
  (forall k x tail, (k, x) ∈ fs -> terminated tail ->
     p (32%N :: print (S d) x ++ tail) = Some (x, tail)) ->
  fs <> [] ->
  forall n acc rest s0,
    (length fs <= n)%nat ->
    NoDup (List.map fst (rev acc ++ fs)) ->
    skip_ws s0
    = skip_ws (sep (S d)
                 (List.map (fun kv => quote (js kv.1) ++ js ": "
                                      ++ print (S d) kv.2) fs)
               ++ 10%N :: indent d ++ 125%N :: rest) ->
    members p n s0 acc = Some (rev acc ++ fs, rest).
Proof.
  induction fs as [| [k x] [| [k2 x2] fs'] IH];
    intros Hx Hne n acc rest s0 Hn Hkeys Hs0; [congruence | |].
  - destruct n as [| n]; [simpl in Hn; lia |].
    cbn [List.map sep fst snd] in Hs0. rewrite member_text in Hs0.
    rewrite skip_ws_head in Hs0 by reflexivity.
    rewrite (members_step p n k x _ _ acc s0 Hs0).
    + rewrite skip_ws_line, skip_ws_head by reflexivity. reflexivity.
    + apply (Hx k x); [apply list_elem_of_here | split; reflexivity].
    + rewrite List.map_app in Hkeys. apply NoDup_app in Hkeys as (_ & H & _).
      intros Hin. apply (H k); [| apply list_elem_of_here].
      rewrite List.map_rev. apply list_elem_of_In. rewrite <- in_rev.
      by apply list_elem_of_In.
  - destruct n as [| n]; [simpl in Hn; lia |].
    cbn [List.map fst snd] in Hs0. rewrite sep_cons, <- app_assoc in Hs0.
    rewrite member_text in Hs0. cbn [app] in Hs0.
    rewrite skip_ws_head in Hs0 by reflexivity.
    rewrite (members_step p n k x _ _ acc s0 Hs0).
    + rewrite skip_ws_head by reflexivity.
      change ((44 =? 44)%N) with true. cbv iota.
      rewrite (IH (fun k' x' tail Hin =>
                     Hx k' x' tail (list_elem_of_further _ _ _ Hin))
                  ltac:(done) n ((k, x) :: acc) rest).
      * cbn [rev]. by rewrite <- app_assoc.
      * simpl in Hn. simpl. lia.
      * cbn [rev]. by rewrite <- app_assoc.
      * rewrite <- app_assoc, skip_ws_line. reflexivity.
    + apply (Hx k x); [apply list_elem_of_here | split; reflexivity].
    + rewrite List.map_app in Hkeys. apply NoDup_app in Hkeys as (_ & H & _).
      intros Hin. apply (H k); [| apply list_elem_of_here].
      rewrite List.map_rev. apply list_elem_of_In. rewrite <- in_rev.
      by apply list_elem_of_In.
Qed.

Lemma printable_arr l : printable (JArr l) -> Forall printable l.
Proof.
  simpl. induction l as [| x l IH]; [constructor |].
  simpl. intros [Hx Hl]. constructor; [exact Hx | by apply IH].
Qed.

Lemma printable_obj fs :
  printable (JObj fs) ->
  NoDup (List.map fst fs) /\ Forall (fun kv => printable kv.2) fs.
Proof.
  simpl. intros [Hk H]. split; [exact Hk |]. clear Hk.
  induction fs as [| kv fs IH]; [constructor |].
  simpl in H. destruct H as [Hx Hl]. constructor; [exact Hx | by apply IH].
Qed.

Lemma value_number fuel z rest :
  terminated rest -> value (S fuel) (number z ++ rest) = Some (JNum z, rest).
Proof.
  intros Hrest. pose proof (integer_number z rest Hrest) as Hi.
  destruct (number_head z) as (c & r & E & Hc). rewrite E in *.
  cbn [app] in *. cbn [value].
  assert (H : is_ws c = false /\ (c =? 34)%N = false /\ (c =? 91)%N = false
              /\ (c =? 123)%N = false /\ (110 =? c)%N = false
              /\ (116 =? c)%N = false /\ (102 =? c)%N = false).
  { destruct Hc as [-> | Hc]; [by repeat split |].
    destruct (digit_tests c Hc) as (?&?&?&?&?&?&?&?). by repeat split. }
  destruct H as (H1 & H2 & H3 & H4 & H5 & H6 & H7).
  rewrite skip_ws_head by done. rewrite H2, H3, H4.
  unfold js. cbn [list_ascii_of_string List.map startsWith].
  change (N_of_ascii "n") with 110%N. change (N_of_ascii "t") with 116%N.
  change (N_of_ascii "f") with 102%N.
  rewrite H5, H6, H7. cbn [andb]. by rewrite Hi.
Qed.

(** What [print] writes, [value] reads back. *)
Lemma value_print v : forall fuel d rest,
  (length (print d v) < fuel)%nat -> printable v -> terminated rest ->
  value fuel (print d v ++ rest) = Some (v, rest).
Proof.
  induction v as [| b | z | s | l IH | fs IH] using json_ind';
    intros fuel d rest Hfuel Hv Hrest;
    (destruct fuel as [| fuel]; [lia |]).
  - by destruct rest.
  - by destruct b, rest.
  - by apply value_number.
  - cbn [print]. unfold quote. rewrite <- !app_assoc. cbn [app value].
    rewrite skip_ws_head by reflexivity.
    change ((34 =? 34)%N) with true. cbv iota.
    rewrite chars_quote. cbn [rev app]. simpl in Hv. unfold codePoints in Hv.
    by rewrite Hv.
  - destruct l as [| x xs]; [reflexivity |].
    apply printable_arr in Hv.
    set (items := List.map (print (S d)) (x :: xs)).
    assert (Hitems : print d (JArr (x :: xs))
                     = 91%N :: 10%N :: indent (S d) ++ sep (S d) items
                       ++ 10%N :: indent d ++ [93%N]) by reflexivity.
    rewrite Hitems in *. clear Hitems.
    rewrite <- !app_comm_cons, <- !app_assoc. cbn [app value].
    rewrite skip_ws_head by reflexivity.
    change ((91 =? 34)%N) with false. change ((91 =? 91)%N) with true.
    cbv iota. rewrite skip_ws_line.
    destruct (print_head (S d) x) as (c & r & Ex & Hws & H93).
    assert (Hsep : exists r', sep (S d) items = c :: r').
    { subst items. cbn [List.map]. destruct xs as [| y ys].
      - cbn [List.map sep]. rewrite Ex. eauto.
      - cbn [List.map]. rewrite sep_cons, Ex. cbn [app]. eauto. }
    destruct Hsep as [r' Hsep].
    match goal with
    | |- context [skip_ws (sep (S d) items ++ ?X)] =>
        assert (Hskip : skip_ws (sep (S d) items ++ X) = c :: r' ++ X)
          by (rewrite Hsep; cbn [app]; by rewrite skip_ws_head)
    end.
    rewrite Hskip, H93.
    rewrite (elements_sep (value fuel) d (x :: xs)) with (rest := rest);
      [reflexivity | | | | |].
    + intros. by apply value_skip.
    + intros x' tail Hin Htail.
      rewrite List.Forall_forall in IH. apply IH.
      * by apply list_elem_of_In.
      * assert (Hlen : (length (print (S d) x') <= length (sep (S d) items))%nat).
        { apply sep_in. subst items. by apply list_elem_of_fmap_2. }
        cbn [length] in Hfuel. rewrite !length_app in Hfuel.
        cbn [length] in Hfuel. lia.
      * rewrite List.Forall_forall in Hv. by apply Hv, list_elem_of_In.
      * done.
    + done.
    + assert (Hlen : (length items <= length (sep (S d) items))%nat).
      { apply sep_length. subst items. apply List.Forall_forall.
        intros i Hi. apply in_map_iff in Hi as (v & <- & _).
        apply print_nonempty. }
      unfold items in Hlen at 1. rewrite length_map in Hlen.
      cbn [length]. rewrite !length_app. cbn [length] in *. lia.
    + rewrite skip_ws_line, <- !app_assoc. reflexivity.
  - destruct fs as [| [k x] fs']; [reflexivity |].
    apply printable_obj in Hv as [Hkeys Hv].
    set (item := fun kv : string * json =>
                   quote (js kv.1) ++ js ": " ++ print (S d) kv.2).
    set (items := List.map item ((k, x) :: fs')).
    assert (Hitems : print d (JObj ((k, x) :: fs'))
                     = 123%N :: 10%N :: indent (S d) ++ sep (S d) items
                       ++ 10%N :: indent d ++ [125%N]) by reflexivity.
    rewrite Hitems in *. clear Hitems.
    rewrite <- !app_comm_cons, <- !app_assoc. cbn [app value].
    rewrite skip_ws_head by reflexivity.
    change ((123 =? 34)%N) with false. change ((123 =? 91)%N) with false.
    change ((123 =? 123)%N) with true.
    cbv iota. rewrite skip_ws_line.
    assert (Hsep : exists r', sep (S d) items = 34%N :: r').
    { subst items. cbn [List.map]. destruct fs' as [| y ys].
      - cbn [List.map sep]. unfold item, quote. cbn [app]. eauto.
      - cbn [List.map]. rewrite sep_cons. unfold item at 1, quote.
        cbn [app]. eauto. }
    destruct Hsep as [r' Hsep].
    match goal with
    | |- context [skip_ws (sep (S d) items ++ ?X)] =>
        assert (Hskip : skip_ws (sep (S d) items ++ X) = 34%N :: r' ++ X)
          by (rewrite Hsep; cbn [app]; by rewrite skip_ws_head)
    end.
    rewrite Hskip. change ((34 =? 125)%N) with false. cbv iota.
    rewrite (members_sep (value fuel) d ((k, x) :: fs')) with (rest := rest);
      [reflexivity | | | | |].
    + intros k' x' tail Hin Htail.
      rewrite (value_skip fuel _ (print (S d) x' ++ tail)) by reflexivity.
      rewrite List.Forall_forall in IH.
      apply (IH (k', x')).
      * by apply list_elem_of_In.
      * assert (Hlen : (length (item (k', x')) <= length (sep (S d) items))%nat).
        { apply sep_in. subst items. by apply list_elem_of_fmap_2. }
        unfold item in Hlen at 1. rewrite !length_app in Hlen.
        cbn [length] in Hfuel. rewrite !length_app in Hfuel.
        cbn [length] in Hfuel. cbn [snd] in *. lia.
      * rewrite List.Forall_forall in Hv.
        by apply (Hv (k', x')), list_elem_of_In.
      * done.
    + done.
    + assert (Hlen : (length items <= length (sep (S d) items))%nat).
      { apply sep_length. subst items. apply List.Forall_forall.
        intros i Hi. apply in_map_iff in Hi as (v & <- & _).
        unfold item, quote. done. }
      unfold items in Hlen at 1. rewrite length_map in Hlen.
      cbn [length]. rewrite !length_app. cbn [length] in *. lia.
    + exact Hkeys.
    + rewrite skip_ws_line, <- !app_assoc. reflexivity.
Qed.

(** [JSON.parse] reads back what [JSON.stringify] wrote. *)
Lemma parse_stringify v : printable v -> parse (stringify v) = Some v.
Proof.
  intros Hv. unfold parse, stringify.
  rewrite <- (app_nil_r (print 0 v)) at 2.
  rewrite value_print; [reflexivity | lia | done | done].
Qed.

End JsonFacts.

(** ** Strings *)

Lemma trimStart_head s :
  trimStart s = [] \/ exists c r, trimStart s = c :: r /\ isWhiteSpace c = false.
Proof.
  induction s as [| c r IH]; simpl; [by left |].
  destruct (isWhiteSpace c) eqn:E; [exact IH |]. right. eauto.
Qed.

Lemma trimStart_fixed c r : isWhiteSpace c = false -> trimStart (c :: r) = c :: r.
Proof. intros H. simpl. by rewrite H. Qed.

Lemma trimStart_suffix s : exists p, s = p ++ trimStart s.
Proof.
  induction s as [| c r [p IH]]; simpl; [by exists [] |].
  destruct (isWhiteSpace c); [| by exists []].
  exists (c :: p). simpl. by rewrite <- IH.
Qed.

Lemma trim_trim s : trim (trim s) = trim s.
Proof.
  unfold trim.
  destruct (trimStart_head s) as [E | (c & r & E & Hc)].
  - rewrite E. reflexivity.
  - rewrite E.
    destruct (trimStart_head (rev (c :: r))) as [E' | (d & w & E' & Hd)].
    + rewrite E'. reflexivity.
    + rewrite E'.
      destruct (trimStart_suffix (rev (c :: r))) as [p Hp]. rewrite E' in Hp.
      assert (Hu : c :: r = rev (d :: w) ++ rev p).
      { rewrite <- rev_app_distr, <- Hp. by rewrite rev_involutive. }
      assert (Hw : exists w', rev (d :: w) = c :: w').
      { destruct (rev (d :: w)) as [| x w'] eqn:X.
        - apply (f_equal (@length N)) in X. rewrite length_rev in X.
          discriminate.
        - simpl in Hu. injection Hu as -> _. by exists w'. }
      destruct Hw as [w' Hw]. rewrite Hw.
      rewrite (trimStart_fixed c w' Hc). rewrite <- Hw.
      rewrite rev_involutive. by rewrite (trimStart_fixed d w Hd).
Qed.

Lemma trim_head c r : isWhiteSpace c = false -> trim (c :: r) <> [].
Proof.
  intros Hc. unfold trim. rewrite (trimStart_fixed c r Hc).
  intros H. apply (f_equal (@rev N)) in H. rewrite rev_involutive in H.
  simpl in H.
  destruct (trimStart_head (rev r ++ [c])) as [E | (d & w & E & Hd)].
  - clear H. induction (rev r) as [| x y IH]; simpl in E.
    + by rewrite Hc in E.
    + destruct (isWhiteSpace x); [by apply IH | done].
  - rewrite E in H. done.
Qed.

Lemma trimStart_nil_trim s : trimStart s = [] -> trim s = [].
Proof. intros H. unfold trim. by rewrite H. Qed.

Lemma trim_nil s : trim s = [] -> trimStart s = [].
Proof.
  intros H. destruct (trimStart_head s) as [E | (c & r & E & Hc)]; [done |].
  exfalso. apply (trim_head c r Hc). unfold trim in *.
  rewrite E in H. by rewrite (trimStart_fixed c r Hc).
Qed.

(** A string that is blank stays blank without its first character. *)
Lemma trim_nil_tail c r : trim (c :: r) = [] -> trim r = [].
Proof.
  intros H. apply trim_nil in H. apply trimStart_nil_trim.
  simpl in H. by destruct (isWhiteSpace c).
Qed.

Lemma toLowerCase_nil {P : Platform} : toLowerCase [] = [].
Proof. reflexivity. Qed.

Section Properties.

Context {P : Platform} (config : Config).

Ltac run_bot :=
  unfold bind, ret, throw, try_catch, get_state, modify, emit, console,
    next_tick, lift, deref, update; simpl.

(** ** Webhook authentication *)

(** The verifier always returns a boolean: no input makes it throw. *)
Lemma verifyWebhook_returns headers rawBody s :
  exists b s', verifyWebhook config headers rawBody s = (Ret b, s').
Proof.
  unfold verifyWebhook, bind, get_state, try_catch, lift, console, emit, modify, ret,
    throw.
  repeat (match goal with
          | |- context [if ?c then _ else _] => destruct c
          | |- context [match ?x with inl _ => _ | inr _ => _ end] => destruct x
          end; simpl);
    eauto.
Qed.

(** It writes to the console at most: the process state is otherwise left
    as it was. *)
Lemma verifyWebhook_state headers rawBody s r s' :
  verifyWebhook config headers rawBody s = (r, s') ->
  exists logs, s' = set_trace (st_trace s ++ logs) s
               /\ (r = Ret true -> logs = []).
Proof.
  unfold verifyWebhook, bind, get_state, try_catch, lift, console, emit, modify, ret,
    throw.
  assert (Hid : s = set_trace (st_trace s ++ []) s)
    by (rewrite app_nil_r; destruct s; reflexivity).
  repeat (match goal with
          | |- context [if ?c then _ else _] => destruct c
          | |- context [match ?x with inl _ => _ | inr _ => _ end] => destruct x
          end; simpl);
    intros [= <- <-];
    first [ exists []; split; [exact Hid | reflexivity]
          | eexists; split; [reflexivity | discriminate] ].
Qed.

(** C10. While the public key has not been loaded, [verifyWebhook] answers
    false for every headers and body, whatever the configured secret and
    the signature are, and does nothing else. *)
Theorem verifyWebhook_key_not_loaded headers rawBody s :
  truthyS (st_publicKey s) = false ->
  verifyWebhook config headers rawBody s = (Ret false, s).
Proof.
  intros H. unfold verifyWebhook, bind, get_state. simpl. rewrite H. reflexivity.
Qed.

(** The key that [loadKickPublicKey] caches is the one the platform
    publishes; a key that is already cached is kept. *)
Lemma loadKickPublicKey_caches s s' :
  loadKickPublicKey s = (Ret tt, s') ->
  (truthyS (st_publicKey s) = true /\ s' = s)
  \/ (truthyS (st_publicKey s) = false
      /\ api_request (st_tick s) null GetPublicKey
         = inr (RPublicKey (st_publicKey s'))).
Proof.
  unfold loadKickPublicKey, api. run_bot.
  destruct (truthyS (st_publicKey s)) eqn:E; [intros [= <-]; by left |].
  destruct (api_request _ _ _) as [e | [| | | | k |]]; simpl; try discriminate.
  destruct (truthyS k) eqn:Ek; simpl; [| discriminate].
  intros [= <-]. by right.
Qed.

(** Once [loadKickPublicKey] has returned, the key is loaded. *)
Lemma loadKickPublicKey_loads s s' :
  loadKickPublicKey s = (Ret tt, s') -> truthyS (st_publicKey s') = true.
Proof.
  unfold loadKickPublicKey, api. run_bot.
  destruct (truthyS (st_publicKey s)) eqn:E; [by intros [= <-] |].
  destruct (api_request _ _ _) as [e | [| | | | k |]]; simpl; try discriminate.
  destruct (truthyS k) eqn:Ek; simpl; [| discriminate].
  by intros [= <-].
Qed.

(** C2. [verifyWebhook] fails closed: it returns false, without throwing,
    when the message id, the timestamp or the signature header is missing,
    when a configured secret differs from the header (whatever the
    signature is), and when the signature library throws. *)
Theorem verifyWebhook_fails_closed headers rawBody s :
  header headers "kick-event-message-id" = undefined
  \/ header headers "kick-event-message-timestamp" = undefined
  \/ header headers "kick-event-signature" = undefined
  \/ (eventSecret config <> []
      /\ header headers "kick-app-secret" <> val (eventSecret config))
  \/ (exists e,
        rsa_sha256_verify (nullish (st_publicKey s) [])
          (signedData (nullish (header headers "kick-event-message-id") [])
                      (nullish (header headers "kick-event-message-timestamp") [])
                      rawBody)
          (base64_decode (nullish (header headers "kick-event-signature") []))
        = inl e) ->
  exists s', verifyWebhook config headers rawBody s = (Ret false, s').
Proof.
  intros H.
  unfold verifyWebhook, bind, get_state, try_catch, lift, console, emit, modify, ret,
    throw.
  simpl.
  destruct (truthyS (st_publicKey s)); simpl; [| eauto].
  destruct H as [H | [H | [H | [[Hs H] | [e H]]]]].
  - rewrite H. simpl. eauto.
  - rewrite H. simpl. rewrite orb_true_r. simpl. eauto.
  - rewrite H. simpl. rewrite !orb_true_r. eauto.
  - destruct (_ || _ || _); [eauto |].
    destruct (eventSecret config) as [| c r] eqn:E; [congruence |].
    simpl. rewrite bool_decide_eq_false_2 by exact H.
    simpl. rewrite orb_true_r. eauto.
  - rewrite H.
    destruct (_ || _ || _); [eauto |].
    destruct (_ && _); simpl; eauto.
Qed.

Lemma truthyS_val x : truthyS x = true -> exists v, x = val v /\ v <> [].
Proof. destruct x as [| | [| c r]]; try discriminate. intros _. eauto. Qed.

(** C5 (amended). When [verifyWebhook] accepts a delivery, the key is
    loaded, the three headers are present and the base64-decoded signature
    verifies, under that key, the UTF-8 bytes of
    [messageId + "." + timestamp + "."] followed by the body decoded as
    UTF-8 and encoded again; for a body that is well-formed UTF-8 these are
    the bytes of the body as received. *)
Theorem verifyWebhook_signed_payload headers rawBody s s' :
  verifyWebhook config headers rawBody s = (Ret true, s') ->
  exists messageId timestamp signature key,
    header headers "kick-event-message-id" = val messageId
    /\ header headers "kick-event-message-timestamp" = val timestamp
    /\ header headers "kick-event-signature" = val signature
    /\ st_publicKey s = val key
    /\ rsa_sha256_verify key (signedData messageId timestamp rawBody)
                         (base64_decode signature) = inr true
    /\ signedData messageId timestamp rawBody
       = Utf8.encode (messageId ++ js "." ++ timestamp ++ js ".")
         ++ Utf8.encode (Buffer_toString rawBody)
    /\ (wellFormedUtf8 rawBody ->
        signedData messageId timestamp rawBody
        = exactPayload messageId timestamp rawBody).
Proof.
  unfold verifyWebhook, bind, get_state, try_catch, lift, console, emit, modify, ret,
    throw.
  simpl.
  destruct (truthyS (st_publicKey s)) eqn:Hk; simpl; [| discriminate].
  destruct (truthyS (header headers "kick-event-message-id")) eqn:Hm;
    simpl; [| discriminate].
  destruct (truthyS (header headers "kick-event-message-timestamp")) eqn:Ht;
    simpl; [| discriminate].
  destruct (truthyS (header headers "kick-event-signature")) eqn:Hg;
    simpl; [| discriminate].
  destruct (_ && _); simpl; [discriminate |].
  apply truthyS_val in Hk as (key & Ek & _), Hm as (m & Em & _),
    Ht as (t & Et & _), Hg as (g & Eg & _).
  rewrite Ek, Em, Et, Eg. simpl.
  destruct (rsa_sha256_verify key _ _) as [e | [|]] eqn:Ev; simpl;
    try discriminate.
  intros _. exists m, t, g, key.
  repeat split; try done.
  - apply signedData_parts.
  - intros Hwf. rewrite signedData_parts. unfold exactPayload.
    by rewrite reencode_wellFormed.
Qed.


Lemma set_trace_nil s : set_trace (st_trace s ++ []) s = s.
Proof. rewrite app_nil_r. by destruct s. Qed.

(** An accepted delivery leaves the process state untouched. *)
Lemma verifyWebhook_accepts headers rawBody s :
  (verifyWebhook config headers rawBody s).1 = Ret true ->
  verifyWebhook config headers rawBody s = (Ret true, s).
Proof.
  destruct (verifyWebhook config headers rawBody s) as [r s'] eqn:E.
  simpl. intros ->.
  apply verifyWebhook_state in E as (logs & -> & Hl).
  rewrite (Hl eq_refl). by rewrite set_trace_nil.
Qed.

(** ** Commands *)

(** A reply is one post as the bot; a failure to send it is reported and
    goes no further. *)
Lemma sendReply_spec l message replyTo s token :
  client (obj s l) = Some token ->
  trim message <> [] ->
  exists s' logs,
    sendReply l message replyTo s = (Ret tt, s')
    /\ same_process s s'
    /\ st_tick s' = S (st_tick s)
    /\ st_trace s'
       = st_trace s
         ++ EvApi token (PostChat
              {| content := message; type := bot;
                 chat_broadcaster_user_id := None;
                 reply_to_message_id :=
                   if truthyJ replyTo then replyTo else None |}) :: logs
    /\ forallb is_console logs = true.
Proof.
  intros Hc Hm. unfold sendReply, with_streamer_client, sendChatMessage, api,
    reportError.
  run_bot. unfold obj in Hc. rewrite Hc.
  destruct (trim message) as [| c r] eqn:E; [done |]. simpl.
  destruct (api_request _ _ _) as [e | v]; simpl.
  - destruct e; simpl; eexists _, [_]; repeat split; simpl;
      by rewrite <- ?app_assoc.
  - eexists _, []; repeat split.
Qed.

(** C6. For a chat message routed to a streamer that has a client: a
    content that is [!ping] once trimmed and lower-cased, [!PING] among
    them, is answered by exactly one post, [!pong] as the bot, in reply to
    the message id of the event, and by no metadata update; [!title], in
    any case, followed by blanks only does nothing at all; so does every
    content that, trimmed and lower-cased, is neither [!ping] nor starts
    with [!title] and a space. *)
Theorem handleChatMessage_commands l s token :
  client (obj s l) = Some token ->
  (forall payload raw messageId,
      field payload "content" = Some (JStr raw) ->
      toLowerCase (trim raw) = js "!ping" ->
      field payload "message_id" = Some messageId ->
      truthyJ (Some messageId) = true ->
      exists s' logs,
        handleChatMessage l payload s = (Ret tt, s')
        /\ same_process s s'
        /\ st_trace s'
           = st_trace s ++ EvApi token (PostChat (pong messageId)) :: logs
        /\ forallb is_console logs = true)
  /\ (forall payload raw,
         field payload "content" = Some (JStr raw) ->
         startsWith (toLowerCase (trim raw)) (js "!title") = true ->
         trim (slice 6 (trim raw)) = [] ->
         handleChatMessage l payload s = (Ret tt, s))
  /\ (forall payload raw,
         field payload "content" = Some (JStr raw) ->
         toLowerCase (trim raw) <> js "!ping" ->
         startsWith (toLowerCase (trim raw)) (js "!title ") = false ->
         handleChatMessage l payload s = (Ret tt, s)).
Proof.
  intros Hc. split; [| split].
  - intros payload raw messageId Hcontent Hping Hid Htruthy.
    unfold handleChatMessage. rewrite Hcontent, Hid. cbv zeta.
    destruct (trim raw) as [| c r] eqn:E; [discriminate |].
    rewrite bool_decide_eq_true_2 by exact Hping.
    destruct (sendReply_spec l (js "!pong") (Some messageId) s token Hc)
      as (s' & logs & -> & Hf & _ & Ht & Hl); [done |].
    rewrite Htruthy in Ht. by exists s', logs.
  - intros payload raw Hcontent Htitle Hblank.
    unfold handleChatMessage. rewrite Hcontent. cbv zeta.
    destruct (trim raw) as [| c r] eqn:E; [reflexivity |].
    rewrite bool_decide_eq_false_2
      by (intros Hping; rewrite Hping in Htitle; discriminate).
    destruct (startsWith (toLowerCase (c :: r)) (js "!title ")); [| reflexivity].
    change (String.length "!title ") with 7%nat.
    assert (Hnone : trim (slice 7 (c :: r)) = []).
    { unfold slice in *.
      destruct (skipn 6 (c :: r)) as [| c6 r6] eqn:S6.
      - apply (f_equal (skipn 1)) in S6. rewrite skipn_skipn in S6.
        simpl in S6. change (skipn 6 r) with (skipn 7 (c :: r)) in S6.
        by rewrite S6.
      - apply trim_nil_tail in Hblank.
        apply (f_equal (skipn 1)) in S6. rewrite skipn_skipn in S6.
        simpl in S6. change (skipn 6 r) with (skipn 7 (c :: r)) in S6.
        by rewrite S6. }
    by rewrite Hnone.
  - intros payload raw Hcontent Hping Htitle.
    unfold handleChatMessage. rewrite Hcontent.
    destruct (trim raw) as [| c r] eqn:E; [reflexivity |].
    rewrite bool_decide_eq_false_2 by exact Hping. by rewrite Htitle.
Qed.

(** ** Routing *)

(** C7 (amended). An authenticated delivery whose subscription id is not in
    the reverse index is answered 200 when its body parses as JSON and 500
    when it does not; in both cases the handler dispatches no command and
    makes no outbound call: it writes to the console and nothing else. *)
Theorem handleEventWebhook_unrouted req rawBody s :
  req_body req = inr rawBody ->
  (verifyWebhook config (req_headers req) rawBody s).1 = Ret true ->
  mapGet (header (req_headers req) "kick-event-subscription-id")
         (st_subscriptions s) = None ->
  exists body logs,
    handleEventWebhook config req s
    = (Ret (match JSON_parse (Buffer_toString rawBody) with
            | Some _ => 200%Z
            | None => 500%Z
            end, body),
       set_trace (st_trace s ++ logs) s)
    /\ forallb is_console logs = true.
Proof.
  intros Hbody Hverify Hroute.
  apply verifyWebhook_accepts in Hverify.
  unfold handleEventWebhook, readBody, parse. rewrite Hbody.
  unfold bind at 1, try_catch, lift, ret at 1. unfold bind at 1.
  rewrite Hverify. cbn [negb].
  destruct (JSON_parse (Buffer_toString rawBody)) as [payload |].
  - unfold bind at 1, ret at 1.
    destruct (bool_decide _).
    + run_bot. rewrite Hroute. simpl. eexists _, [_]. split; reflexivity.
    + run_bot. eexists _, []. rewrite set_trace_nil. split; reflexivity.
  - run_bot. eexists _, [_]. split; reflexivity.
Qed.

(** A delivery that is routed to a streamer is answered 200 once the
    command has been handled, and 500 if handling it throws. *)
Lemma handleEventWebhook_routed req rawBody payload l s :
  req_body req = inr rawBody ->
  (verifyWebhook config (req_headers req) rawBody s).1 = Ret true ->
  JSON_parse (Buffer_toString rawBody) = Some payload ->
  header (req_headers req) "kick-event-type" = val chat_message_sent ->
  mapGet (header (req_headers req) "kick-event-subscription-id")
         (st_subscriptions s) = Some l ->
  handleEventWebhook config req s
  = match handleChatMessage l (Some payload) s with
    | (Ret _, s') => (Ret (200%Z, js "ok"), s')
    | (Throw _, s') =>
        (Ret (500%Z, js "error"),
         set_trace (st_trace s' ++ [EvConsole error "Webhook handler error:"]) s')
    end.
Proof.
  intros Hbody Hverify Hparse Htype Hroute.
  apply verifyWebhook_accepts in Hverify.
  unfold handleEventWebhook, readBody, parse. rewrite Hbody, Htype.
  unfold bind at 1, try_catch, lift, ret at 1. unfold bind at 1.
  rewrite Hverify. cbn [negb]. rewrite Hparse.
  rewrite bool_decide_eq_true_2 by reflexivity.
  run_bot. rewrite Hroute.
  destruct (handleChatMessage l (Some payload) s) as [[[] | e] s']; reflexivity.
Qed.

(** ** Timers *)

Lemma mapGet_filter_ne (id id2 : nat) (t : list (nat * timer)) :
  id2 <> id ->
  mapGet id2 (List.filter (fun e => negb (e.1 =? id)%nat) t) = mapGet id2 t.
Proof.
  intros Hne. induction t as [| [k v] t IH]; simpl; [done |].
  destruct (Nat.eqb_spec k id) as [-> | Hk]; simpl.
  - rewrite IH. by destruct (decide (id2 = id)).
  - by rewrite IH.
Qed.

(** [scheduleStreamerRefresh] and [scheduleKeepAlive] arm the timers that
    [fire] runs. *)
Lemma scheduleStreamerRefresh_arms l s :
  exists s',
    scheduleStreamerRefresh l s = (Ret (st_nextTimer s), s')
    /\ st_timers s'
       = st_timers s
         ++ [(st_nextTimer s, RefreshTimeout l (refreshInMs (expiresIn (obj s l))))].
Proof.
  unfold scheduleStreamerRefresh, setTimer. run_bot.
  eexists. split; reflexivity.
Qed.

Lemma scheduleKeepAlive_arms l s :
  exists s',
    scheduleKeepAlive config l s = (Ret tt, s')
    /\ st_timers s'
       = st_timers s
         ++ [(st_nextTimer s, KeepAliveInterval l (keepAliveIntervalMs config))]
    /\ keepAliveTimer (obj s' l) = Some (st_nextTimer s).
Proof.
  unfold scheduleKeepAlive, setTimer. run_bot.
  eexists. split; [reflexivity |]. split; [reflexivity |].
  unfold obj. simpl. by rewrite lookup_insert_eq.
Qed.

Lemma refreshTask_returns l s : exists s', refreshTask l s = (Ret tt, s').
Proof.
  unfold refreshTask, try_catch.
  match goal with |- context [match ?m s with _ => _ end] =>
    destruct (m s) as [[[] | e] s1] end; [eauto |].
  unfold console, emit, modify. eauto.
Qed.

Lemma keepAliveTask_returns l s :
  exists s', keepAliveTask config l s = (Ret tt, s').
Proof.
  unfold keepAliveTask, try_catch.
  match goal with |- context [match ?m s with _ => _ end] =>
    destruct (m s) as [[[] | e] s1] end; [eauto |].
  unfold reportError, console, emit, modify. destruct e; eauto.
Qed.

(** No timer callback lets an exception escape into the event loop,
    whatever the platform answers. *)
Lemma fire_returns id s : exists s', fire config id s = (Ret tt, s').
Proof.
  unfold fire, bind, get_state.
  destruct (mapGet id (st_timers s)) as [[l d | l d] |].
  - unfold modify. apply refreshTask_returns.
  - apply keepAliveTask_returns.
  - unfold ret. eauto.
Qed.

(** C4. When the refresh timeout of a tenant fires and the token endpoint
    rejects its refresh credential, the callback returns normally and the
    process is as before but for that timeout, which has fired: the streamer
    objects, the registry, the reverse index, the store and every other
    timer, hence the record, the index entry, the refresh timeout and the
    keep-alive interval of any other tenant, are unchanged. *)
Theorem refresh_failure_isolated s id l1 delay e :
  mapGet id (st_timers s) = Some (RefreshTimeout l1 delay) ->
  oauth_token (st_tick s) (RefreshGrant (refreshToken (obj s l1))) = inl e ->
  exists s',
    fire config id s = (Ret tt, s')
    /\ st_heap s' = st_heap s
    /\ st_streamers s' = st_streamers s
    /\ st_subscriptions s' = st_subscriptions s
    /\ st_file s' = st_file s
    /\ (forall id2, id2 <> id ->
          mapGet id2 (st_timers s') = mapGet id2 (st_timers s)).
Proof.
  intros Htimer Hfail.
  unfold fire, bind at 1, get_state. rewrite Htimer.
  unfold refreshTask, refreshStreamerTokens, refreshAccessToken.
  unfold obj in Hfail.
  destruct (refreshToken (default emptyObject (st_heap s !! l1)))
    as [| c r] eqn:E.
  - run_bot. rewrite E. simpl. eexists. split; [reflexivity |].
    simpl. repeat split. intros. by apply mapGet_filter_ne.
  - run_bot. rewrite E. simpl. rewrite Hfail. simpl.
    eexists. split; [reflexivity |].
    simpl. repeat split. intros. by apply mapGet_filter_ne.
Qed.

(** Whatever happens to the two posts, the callback of the keep-alive
    interval returns normally and changes nothing but the trace and the
    count of calls. *)
Lemma keepAliveTask_frame l s :
  exists s', keepAliveTask config l s = (Ret tt, s') /\ same_process s s'.
Proof.
  unfold keepAliveTask, with_streamer_client, sendChatMessage, api, reportError.
  run_bot.
  repeat (match goal with
          | |- context [match ?x with inl _ => _ | inr _ => _ end] =>
              destruct x; simpl
          | |- context [match ?x with Some _ => _ | None => _ end] =>
              destruct x; simpl
          | |- context [match ?x with [] => _ | _ :: _ => _ end] =>
              destruct x; simpl
          | |- context [match ?e with KickApiError _ => _ | _ => _ end] =>
              destruct e; simpl
          end);
    eexists; (split; [reflexivity | by repeat split]).
Qed.

(** C8 (amended). A tick of a keep-alive interval returns normally and
    leaves every timer armed, the interval included, whatever happens to
    the posts.  It ends with one line on the console: the confirmation when
    both posts succeeded, the report of the error otherwise.  A streamer
    that has a client posts as the user first, and posts as the bot only
    when that first post succeeded; nothing is posted for a streamer
    without a client or with a message that is blank, which the SDK
    refuses before it sends, and this failure is reported as well. *)
Theorem keepAlive_tick s id l every :
  mapGet id (st_timers s) = Some (KeepAliveInterval l every) ->
  exists s' posts line,
    fire config id s = (Ret tt, s')
    /\ same_process s s'
    /\ mapGet id (st_timers s') = Some (KeepAliveInterval l every)
    /\ st_trace s' = st_trace s ++ posts ++ [line]
    /\ match client (obj s l) with
       | None => posts = [] /\ reported line
       | Some token =>
           let asUser :=
             EvApi token (PostChat (keepAliveUser config (obj s l))) in
           let asBot := EvApi token (PostChat (keepAliveBot config)) in
           match trim (keepAliveUserMessage config) with
           | [] => posts = [] /\ reported line
           | _ =>
               match api_request (st_tick s) token
                       (PostChat (keepAliveUser config (obj s l))) with
               | inl _ => posts = [asUser] /\ reported line
               | inr _ =>
                   match trim (keepAliveBotMessage config) with
                   | [] => posts = [asUser] /\ reported line
                   | _ =>
                       posts = [asUser; asBot]
                       /\ match api_request (S (st_tick s)) token
                                  (PostChat (keepAliveBot config)) with
                          | inl _ => reported line
                          | inr _ =>
                              line = EvConsole log
                                       "Keep-alive messages posted for broadcaster"
                          end
                   end
               end
           end
       end.
Proof.
  intros Htimer.
  unfold fire, bind at 1, get_state. rewrite Htimer.
  destruct (keepAliveTask_frame l s) as (s' & Hrun & Hframe).
  exists s'.
  assert (Hkeep : mapGet id (st_timers s') = Some (KeepAliveInterval l every)).
  { destruct Hframe as (_ & _ & _ & _ & _ & -> & _). exact Htimer. }
  revert Hrun.
  unfold keepAliveTask, with_streamer_client, sendChatMessage, api, reportError,
    keepAliveUser, keepAliveBot, reported, obj.
  run_bot.
  destruct (client (default emptyObject (st_heap s !! l))) as [token |] eqn:C;
    simpl.
  2:{ intros [= <-]. eexists [], _. repeat split; try done. eauto. }
  destruct (trim (keepAliveUserMessage config)) as [| c1 r1] eqn:E1; simpl.
  { intros [= <-]. eexists [], _. repeat split; try done. eauto. }
  destruct (api_request (st_tick s) token _) as [e | v]; simpl.
  { destruct e; simpl; intros [= <-]; eexists [_], _;
      (repeat split; try done; [by rewrite <- app_assoc | eauto]). }
  rewrite C. simpl.
  destruct (trim (keepAliveBotMessage config)) as [| c2 r2] eqn:E2; simpl.
  { intros [= <-]. eexists [_], _.
    repeat split; try done; [by rewrite <- app_assoc | eauto]. }
  match goal with
  | |- context [api_request ?n ?t ?r] =>
      destruct (api_request n t r) as [e | v']; simpl
  end.
  - destruct e; simpl; intros [= <-]; eexists [_; _], _;
      (repeat split; try done; [by rewrite <- !app_assoc | eauto]).
  - intros [= <-]. eexists [_; _], _.
    repeat split; try done. by rewrite <- !app_assoc.
Qed.

Lemma mapGet_elem {K V} `{EqDecision K} (k : K) (v : V) m :
  mapGet k m = Some v -> (k, v) ∈ m.
Proof.
  induction m as [| [k' v'] m IH]; simpl; [done |].
  destruct (decide (k = k')) as [-> | Hne].
  - intros [= ->]. apply list_elem_of_here.
  - intros H. apply list_elem_of_further. by apply IH.
Qed.

(** The record that [persistState] builds for a streamer object holds its
    four persisted fields and no other property. *)
Lemma recordOf_persisted o : recordOf o (persisted o).
Proof.
  unfold recordOf, persisted, property.
  destruct (slug o), (subscriptionId o); simpl; repeat split;
    intros k v;
    repeat (match goal with
            | |- context [String.eqb k ?x] =>
                destruct (String.eqb_spec k x) as [-> | ?]
            end;
            [intros _; set_solver |]);
    discriminate.
Qed.

(** A store that was written holds the snapshot of the registry: one record
    for each registered streamer object, in the order of the registry. *)
Lemma snapshot_records s :
  exists records,
    field (Some (payload s)) "streamers" = Some (JArr records)
    /\ Forall2 (fun e record => recordOf (obj s e.2) record)
               (st_streamers s) records.
Proof.
  unfold payload. eexists. split; [reflexivity |].
  induction (st_streamers s) as [| e m IH]; simpl; constructor; [| exact IH].
  apply recordOf_persisted.
Qed.

(** C9 (amended). On a successful scheduled refresh, the callback returns
    normally; it stores the rotated refresh credential in the streamer
    object, arms the next refresh timeout and only then writes the store:
    the token request, the arming of the timeout and the creation of the
    store directory are the first three effects, in this order.  When the
    file system accepts both writes, the document written last is the
    snapshot of the registry, one record for each registered streamer
    object; the record of the streamer that was refreshed, if the registry
    holds it, has the rotated credential. *)
Theorem refresh_rearms_then_persists s l response :
  refreshToken (obj s l) <> [] ->
  oauth_token (st_tick s) (RefreshGrant (refreshToken (obj s l)))
  = inr response ->
  let rotated := nullish (refresh_token response) (refreshToken (obj s l)) in
  let delay := delayAfter response in
  exists s' rest,
    refreshTask l s = (Ret tt, s')
    /\ refreshToken (obj s' l) = rotated
    /\ st_streamers s' = st_streamers s
    /\ st_timers s'
       = st_timers s ++ [(st_nextTimer s, RefreshTimeout l delay)]
    /\ st_trace s'
       = st_trace s
         ++ EvToken (RefreshGrant (refreshToken (obj s l)))
         :: EvSetTimeout (st_nextTimer s) l delay :: EvMkdir :: rest
    /\ (fs_write (2 + st_tick s) = None ->
        fs_write (3 + st_tick s) = None ->
        exists doc records,
          rest = [EvWriteFile (JSON_stringify doc);
                  EvConsole log "Updated streamer store";
                  EvConsole log "Refreshed token for broadcaster"]
          /\ st_file s' = Some (JSON_stringify doc)
          /\ field (Some doc) "streamers" = Some (JArr records)
          /\ Forall2 (fun e record => recordOf (obj s' e.2) record)
                     (st_streamers s') records
          /\ (forall id, mapGet id (st_streamers s) = Some l ->
                exists record,
                  record ∈ records
                  /\ recordOf (obj s' l) record
                  /\ field (Some record) "refreshToken"
                     = Some (JStr rotated))).
Proof.
  intros Htoken Hok rotated delay. subst rotated delay.
  assert (Hfile : forall s',
             exists records,
               field (Some (payload s')) "streamers" = Some (JArr records)
               /\ Forall2 (fun e record => recordOf (obj s' e.2) record)
                          (st_streamers s') records
               /\ forall id, mapGet id (st_streamers s') = Some l ->
                    exists record, record ∈ records
                                   /\ recordOf (obj s' l) record).
  { intros s'. destruct (snapshot_records s') as (records & Hf & Hall).
    exists records. split; [done |]. split; [done |].
    intros id Hid. apply mapGet_elem in Hid.
    apply list_elem_of_lookup in Hid as [i Hi].
    destruct (Forall2_lookup_l _ _ _ _ _ Hall Hi) as (record & Hr & Hrec).
    exists record. split; [| done]. by eapply list_elem_of_lookup_2. }
  unfold refreshTask, refreshStreamerTokens, refreshAccessToken,
    scheduleStreamerRefresh, setTimer, persistState, saveStore, writeFile,
    fs_op, delayAfter.
  unfold obj in *.
  destruct (refreshToken (default emptyObject (st_heap s !! l)))
    as [| c r] eqn:E; [done |].
  run_bot. rewrite E. simpl. rewrite Hok. simpl.
  rewrite !lookup_insert_eq. simpl.
  destruct (fs_write (S (S (st_tick s)))) as [e1 |] eqn:F1; simpl.
  - eexists _, [_]. split; [reflexivity |]. simpl.
    rewrite !lookup_insert_eq. simpl. rewrite E.
    repeat split; by rewrite <- ?app_assoc.
  - destruct (fs_write (S (S (S (st_tick s))))) as [e2 |] eqn:F2; simpl.
    + destruct (fs_written (S (S (S (st_tick s))))); simpl;
        (eexists _, [_; _]; split; [reflexivity |]; simpl;
         rewrite !lookup_insert_eq; simpl; rewrite E;
         repeat split; by rewrite <- ?app_assoc).
    + eexists _, [_; _; _]. split; [reflexivity |]. simpl.
      rewrite !lookup_insert_eq. simpl. rewrite E.
      split; [done |]. split; [done |]. split; [done |].
      split; [by rewrite <- ?app_assoc |].
      intros _ _.
      match goal with
      | |- context [JSON_stringify (payload ?s0)] =>
          destruct (Hfile s0) as (records & Hf & Hall & Hreg);
          exists (payload s0), records
      end.
      split; [done |]. split; [done |]. split; [exact Hf |].
      split; [exact Hall |].
      intros id Hid. destruct (Hreg id Hid) as (record & Hin & Hrec).
      simpl in Hrec. rewrite !lookup_insert_eq in Hrec. simpl in Hrec.
      exists record. split; [done |]. split; [exact Hrec |].
      destruct Hrec as (_ & _ & H3 & _). exact H3.
Qed.

(** ** The store *)

Lemma mapSet_elem {K V} `{EqDecision K} (k : K) (v : V) m :
  (k, v) ∈ mapSet k v m.
Proof.
  induction m as [| [k' v'] m IH]; simpl.
  - apply list_elem_of_here.
  - destruct (decide (k = k')).
    + apply list_elem_of_here.
    + by apply list_elem_of_further.
Qed.

Lemma mapGet_mapSet {K V} `{EqDecision K} (k : K) (v : V) m :
  mapGet k (mapSet k v m) = Some v.
Proof.
  induction m as [| [k' v'] m IH]; simpl.
  - by rewrite decide_True.
  - destruct (decide (k = k')) as [-> | Hne]; simpl.
    + by rewrite decide_True.
    + by rewrite decide_False.
Qed.

(** A persisted record has the four properties and reads back as the
    streamer object had them. *)
Lemma persisted_fields o :
  field (Some (persisted o)) "broadcasterUserId"
  = Some (JNum (broadcasterUserId o))
  /\ field (Some (persisted o)) "slug" = reloaded (slug o)
  /\ field (Some (persisted o)) "refreshToken" = Some (JStr (refreshToken o))
  /\ field (Some (persisted o)) "subscriptionId" = reloaded (subscriptionId o).
Proof.
  unfold persisted, property.
  destruct (slug o), (subscriptionId o); repeat split.
Qed.

(** It depends on nothing else: not on the access token, nor on any other
    runtime field. *)
Lemma persisted_same_record o o' : same_record o o' -> persisted o = persisted o'.
Proof.
  intros (H1 & H2 & H3 & H4). unfold persisted. by rewrite H1, H2, H3, H4.
Qed.

(** A store entry that [persistState] wrote is read at start-up as the
    streamer object it was written from, without the runtime fields. *)
Lemma readEntry_persisted o : readEntry (persisted o) = restarted o.
Proof.
  unfold readEntry, persisted, property, restarted, stored.
  destruct (slug o), (subscriptionId o), (refreshToken o); reflexivity.
Qed.

Lemma elem_of_mapSet {K V} `{EqDecision K} (k : K) (v : V) m e :
  e ∈ mapSet k v m -> e = (k, v) \/ e ∈ m.
Proof.
  induction m as [| [k' v'] m IH]; simpl.
  - intros H. apply list_elem_of_singleton in H. by left.
  - destruct (decide (k = k')) as [-> | Hk].
    + intros H. apply elem_of_cons in H as [-> | H]; [by left |].
      right. by apply list_elem_of_further.
    + intros H. apply elem_of_cons in H as [-> | H].
      * right. apply list_elem_of_here.
      * destruct (IH H) as [-> | Hm]; [by left |].
        right. by apply list_elem_of_further.
Qed.

Lemma printable_of_arr l : Forall printable l -> printable (JArr l).
Proof.
  induction 1 as [| x l Hx _ IH]; [exact I |]. simpl. split; [exact Hx | exact IH].
Qed.

(** The record of a streamer object whose fields are JavaScript values,
    and the snapshot of a registry of such objects, are documents that are
    read back. *)
Lemma printable_persisted o : representable o -> printable (persisted o).
Proof.
  intros (_ & Hs & Hr & Hi). unfold persisted, property.
  destruct (slug o), (subscriptionId o); simpl in *;
    (split; [| by repeat split]);
    repeat (apply NoDup_cons; split;
            [intros H;
             repeat (apply elem_of_cons in H as [H | H]; [discriminate |]);
             by apply elem_of_nil in H |]);
    apply NoDup_nil_2.
Qed.

Lemma printable_payload s :
  (forall k l, (k, l) ∈ st_streamers s -> representable (obj s l)) ->
  printable (payload s).
Proof.
  intros H. unfold payload. simpl.
  split; [apply NoDup_singleton |]. split; [| exact I].
  apply printable_of_arr. apply List.Forall_forall. intros x Hx.
  apply in_map_iff in Hx as ([k l] & <- & Hin).
  apply printable_persisted. apply (H k l). by apply list_elem_of_In.
Qed.

Lemma upsertStreamer_writes l s :
  fs_write (st_tick s) = None -> fs_write (S (st_tick s)) = None ->
  exists s',
    upsertStreamer l s = (Ret tt, s')
    /\ st_heap s' = st_heap s
    /\ st_streamers s'
       = mapSet (broadcasterUserId (obj s l)) l (st_streamers s)
    /\ st_file s' = Some (JSON_stringify (payload s')).
Proof.
  intros F1 F2.
  unfold upsertStreamer, persistState, saveStore, writeFile, fs_op, obj.
  run_bot. rewrite F1. simpl. rewrite F2. simpl.
  eexists. split; [reflexivity |]. by repeat split.
Qed.

Lemma loadStore_reads s text s0 :
  st_file s = Some text -> JSON_parse text = Some (payload s0) ->
  loadStore s = (Ret (payload s0), s).
Proof.
  intros Hf Hp. unfold loadStore, readFile, parse, try_catch, bind, ret.
  by rewrite Hf, Hp.
Qed.

Lemma payload_same_records s s2 :
  st_streamers s2 = st_streamers s ->
  (forall l, same_record (obj s2 l) (obj s l)) ->
  payload s2 = payload s.
Proof.
  intros Hs Ho. unfold payload. rewrite Hs.
  rewrite (List.map_ext
             (fun e => persisted (default emptyObject (st_heap s2 !! e.2)))
             (fun e => persisted (default emptyObject (st_heap s !! e.2))));
    [done |].
  intros [k l]. apply persisted_same_record, Ho.
Qed.

(** ** Subscriptions *)

(** When [ensureSubscription] returns, the reverse index maps the
    subscription id of the streamer to it. *)
Lemma ensureSubscription_indexes l s s' :
  ensureSubscription l s = (Ret tt, s') ->
  mapGet (subscriptionId (obj s' l)) (st_subscriptions s') = Some l.
Proof.
  unfold ensureSubscription, subscribe, api. run_bot.
  destruct (client _) as [token |]; [| discriminate].
  destruct (api_request _ _ _) as [e | existing]; simpl; [discriminate |].
  destruct (match existing with
            | RSubscriptions entries => List.find is_chat_subscription entries
            | _ => None
            end) as [entry |]; simpl.
  - intros [= <-]. unfold obj. simpl. rewrite lookup_insert_eq. simpl.
    apply mapGet_mapSet.
  - destruct (api_request _ _ _) as [e | created]; simpl; [discriminate |].
    destruct created as [| | | [| first rest] | |]; simpl; try discriminate.
    destruct (truthyS (subscription_id first)); simpl; [| discriminate].
    intros [= <-]. unfold obj. simpl. rewrite lookup_insert_eq. simpl.
    apply mapGet_mapSet.
Qed.

(** ** Onboarding *)

(** Whatever the request and the platform, the onboarding endpoint never
    answers 200: the call of [initializeStreamer] throws on the only path
    that leads there. *)
Lemma handleAddStreamer_never_ok req s :
  exists status body s',
    handleAddStreamer config req s = (Ret (status, body), s')
    /\ status <> 200%Z.
Proof.
  unfold handleAddStreamer, readBody, parse, exchangeCodeForToken, api,
    upsertStreamer, persistState, saveStore, writeFile, fs_op, initializeStreamer, alloc.
  run_bot.
  repeat (match goal with
          | |- context [match ?x with inl _ => _ | inr _ => _ end] =>
              destruct x; simpl
          | |- context [match ?x with Some _ => _ | None => _ end] =>
              destruct x; simpl
          | |- context [if ?c then _ else _] => destruct c; simpl
          | |- context [match ?x with JNull => _ | _ => _ end] =>
              destruct x; simpl
          | |- context [match ?x with RNull => _ | _ => _ end] =>
              destruct x; simpl
          | |- context [match ?x with [] => _ | _ :: _ => _ end] =>
              destruct x; simpl
          end);
    eexists _, _, _; (split; [reflexivity | done]).
Qed.

End Properties.

(** ** The store on disk *)

(** C3. Persisting a tenant and reloading the store, on a platform whose
    JSON is [Json]: when the file system accepts the write, [upsertStreamer]
    leaves a text in the store file from which [loadStore] reads a document
    whose [streamers] are one record for each registered streamer object, in
    the order of the registry; the record of the tenant is among them; each
    record gives back the broadcaster id, the slug, the refresh token and
    the subscription id of its streamer object exactly, and has no other
    property.  The text does not depend on the access tokens: a process
    that differs in the runtime fields of its streamer objects only writes
    the same text. *)
Theorem persist_reload_roundtrip oauth rest disk s l :
  let P := Demo.platform oauth rest disk in
  representable (obj s l) ->
  (forall k l', (k, l') ∈ st_streamers s -> representable (obj s l')) ->
  disk (st_tick s) = None ->
  disk (S (st_tick s)) = None ->
  exists s' text store records,
    @upsertStreamer P l s = (Ret tt, s')
    /\ mapGet (broadcasterUserId (obj s l)) (st_streamers s') = Some l
    /\ obj s' l = obj s l
    /\ st_file s' = Some text
    /\ @loadStore P s' = (Ret store, s')
    /\ field (Some store) "streamers" = Some (JArr records)
    /\ Forall2 (fun e record => recordOf (obj s' e.2) record)
               (st_streamers s') records
    /\ (exists record, record ∈ records /\ recordOf (obj s l) record)
    /\ (forall s2, same_records s s2 -> st_tick s2 = st_tick s ->
          st_file (@upsertStreamer P l s2).2 = Some text).
Proof.
  intros P Hl Hall F1 F2.
  destruct (@upsertStreamer_writes P l s F1 F2) as (s' & Hrun & Hheap & Hreg & Hfile).
  assert (Hobj : forall l', obj s' l' = obj s l')
    by (intros l'; unfold obj; by rewrite Hheap).
  assert (Hget : mapGet (broadcasterUserId (obj s l)) (st_streamers s') = Some l)
    by (rewrite Hreg; apply mapGet_mapSet).
  assert (Hprint : printable (payload s')).
  { apply printable_payload. intros k l' Hin. rewrite Hobj.
    rewrite Hreg in Hin. apply elem_of_mapSet in Hin as [[= -> ->] | Hin];
      [done | by eapply Hall]. }
  destruct (snapshot_records s') as (records & Hrecords & Hforall).
  exists s', (Json.stringify (payload s')), (payload s'), records.
  split; [exact Hrun |]. split; [exact Hget |]. split; [apply Hobj |].
  split; [exact Hfile |].
  split; [apply (@loadStore_reads P s' _ s' Hfile), JsonFacts.parse_stringify, Hprint |].
  split; [exact Hrecords |]. split; [exact Hforall |].
  split.
  - apply mapGet_elem in Hget. apply list_elem_of_lookup in Hget as [i Hi].
    destruct (Forall2_lookup_l _ _ _ _ _ Hforall Hi) as (record & Hr & Hrec).
    exists record. split; [by eapply list_elem_of_lookup_2 |].
    by rewrite <- Hobj.
  - intros s2 [Hreg2 Hsame] Htick.
    destruct (@upsertStreamer_writes P l s2) as (s2' & Hrun2 & Hheap2 & Hreg2' & Hfile2);
      [by rewrite Htick | by rewrite Htick |].
    rewrite Hrun2. simpl. rewrite Hfile2. do 2 f_equal.
    apply payload_same_records.
    + rewrite Hreg2', Hreg, Hreg2. by destruct (Hsame l) as (-> & _).
    + intros l'. unfold obj. rewrite Hheap2, Hheap. apply Hsame.
Qed.

(** * Examples on the demo platform *)

Lemma verifyWebhook_key_not_loaded_witness :
  truthyS (st_publicKey initial) = false
  /\ @verifyWebhook Demo.offline Demo.config
       (req_headers (Examples.delivery "sub-9" "bS50Lnt9" (Utf8.encode (js "{}"))))
       (Utf8.encode (js "{}")) initial
     = (Ret false, initial).
Proof.
  split; [reflexivity |].
  apply (@verifyWebhook_key_not_loaded Demo.offline Demo.config). reflexivity.
Defined.

Lemma verifyWebhook_fails_closed_witness :
  (exists s',
     @verifyWebhook Demo.offline Demo.config
       [("kick-event-message-timestamp", js "t");
        ("kick-event-signature", js "bS50Lnt9");
        ("kick-app-secret", js "s3cret")]
       (Utf8.encode (js "{}")) Examples.ready = (Ret false, s'))
  /\ (exists s',
        @verifyWebhook Demo.offline Demo.config
          [("kick-event-message-id", js "m");
           ("kick-event-signature", js "bS50Lnt9");
           ("kick-app-secret", js "s3cret")]
          (Utf8.encode (js "{}")) Examples.ready = (Ret false, s'))
  /\ (exists s',
        @verifyWebhook Demo.offline Demo.config
          [("kick-event-message-id", js "m");
           ("kick-event-message-timestamp", js "t");
           ("kick-app-secret", js "s3cret")]
          (Utf8.encode (js "{}")) Examples.ready = (Ret false, s'))
  /\ (exists s',
        @verifyWebhook Demo.offline Demo.config
          [("kick-event-message-id", js "m");
           ("kick-event-message-timestamp", js "t");
           ("kick-event-signature", js "bS50Lnt9");
           ("kick-app-secret", js "guess")]
          (Utf8.encode (js "{}")) Examples.ready = (Ret false, s'))
  /\ (exists s',
        @verifyWebhook Demo.offline Demo.config
          [("kick-event-message-id", js "m");
           ("kick-event-message-timestamp", js "t");
           ("kick-event-signature", js "bS50Lnt9");
           ("kick-app-secret", js "s3cret")]
          (Utf8.encode (js "{}"))
          (set_publicKey (val (js "not a key")) initial) = (Ret false, s')).
Proof.
  repeat split; apply (@verifyWebhook_fails_closed Demo.offline Demo.config).
  - left. reflexivity.
  - right. left. reflexivity.
  - right. right. left. reflexivity.
  - right. right. right. left. split; vm_compute; discriminate.
  - right. right. right. right. eexists. vm_compute. reflexivity.
Defined.

Lemma verifyWebhook_signed_payload_witness :
  wellFormedUtf8 (Utf8.encode (js "{}"))
  /\ exists messageId timestamp signature key,
       header (req_headers (Examples.delivery "sub-9" "bS50Lnt9"
                              (Utf8.encode (js "{}"))))
              "kick-event-message-id" = val messageId
       /\ header (req_headers (Examples.delivery "sub-9" "bS50Lnt9"
                                 (Utf8.encode (js "{}"))))
                 "kick-event-message-timestamp" = val timestamp
       /\ header (req_headers (Examples.delivery "sub-9" "bS50Lnt9"
                                 (Utf8.encode (js "{}"))))
                 "kick-event-signature" = val signature
       /\ st_publicKey Examples.ready = val key
       /\ Demo.verify key
            (signedData messageId timestamp (Utf8.encode (js "{}")))
            (Base64.decode signature) = inr true
       /\ signedData messageId timestamp (Utf8.encode (js "{}"))
          = exactPayload messageId timestamp (Utf8.encode (js "{}")).
Proof.
  assert (W : wellFormedUtf8 (Utf8.encode (js "{}"))).
  { exists (js "{}"). split; [| reflexivity].
    repeat constructor. }
  split; [exact W |].
  destruct (@verifyWebhook_signed_payload Demo.offline Demo.config
              (req_headers (Examples.delivery "sub-9" "bS50Lnt9"
                              (Utf8.encode (js "{}"))))
              (Utf8.encode (js "{}")) Examples.ready Examples.ready)
    as (m & t & g & k & Hm & Ht & Hg & Hk & Hv & _ & Hexact).
  { vm_compute. reflexivity. }
  exists m, t, g, k. repeat split; try assumption. by apply Hexact.
Defined.

(** C5, as stated, fails on a body that is not well-formed UTF-8: the
    single byte 0xFF is hashed as U+FFFD, so a signature over
    [m.t.] followed by EF BF BD is accepted although it does not verify the
    exact bytes [m.t.] followed by FF. *)
Lemma verifyWebhook_reencodes_body :
  @verifyWebhook Demo.offline Demo.config
    (req_headers (Examples.delivery "sub-9" "bS50Lu+/vQ==" [Byte.xff])) [Byte.xff]
    Examples.ready
  = (Ret true, Examples.ready)
  /\ signedData (js "m") (js "t") [Byte.xff]
     <> exactPayload (js "m") (js "t") [Byte.xff]
  /\ Demo.verify Demo.pem (exactPayload (js "m") (js "t") [Byte.xff])
                 (Base64.decode (js "bS50Lu+/vQ==")) = inr false.
Proof.
  split; [vm_compute; reflexivity |].
  split; [vm_compute; discriminate | vm_compute; reflexivity].
Qed.

Lemma handleChatMessage_commands_witness :
  client (obj Examples.two_tenants 0%nat) = Some (val (js "AT-1"))
  /\ (exists s' logs,
        @handleChatMessage Demo.online 0%nat (Examples.message "!PING")
          Examples.two_tenants = (Ret tt, s')
        /\ same_process Examples.two_tenants s'
        /\ st_trace s'
           = st_trace Examples.two_tenants
             ++ EvApi (val (js "AT-1")) (PostChat (pong (JStr (js "msg-1"))))
             :: logs
        /\ forallb is_console logs = true)
  /\ @handleChatMessage Demo.online 0%nat (Examples.message "!title   ")
       Examples.two_tenants = (Ret tt, Examples.two_tenants)
  /\ @handleChatMessage Demo.online 0%nat (Examples.message "hello chat")
       Examples.two_tenants = (Ret tt, Examples.two_tenants).
Proof.
  assert (H : client (obj Examples.two_tenants 0%nat) = Some (val (js "AT-1")))
    by reflexivity.
  destruct (@handleChatMessage_commands Demo.online 0%nat Examples.two_tenants
              (val (js "AT-1")) H) as (A & B & C).
  split; [exact H |]. split; [| split].
  - apply (A _ (js "!PING")); reflexivity.
  - apply (B _ (js "!title   ")); reflexivity.
  - apply (C _ (js "hello chat")); [reflexivity | | reflexivity].
    vm_compute. discriminate.
Defined.

(** End to end: a signed [!PING] for the subscription of the first tenant
    is answered 200 after one post, [!pong] in reply to the message. *)
Example ping_end_to_end :
  @handleEventWebhook Demo.online Demo.config
    (Examples.delivery "sub-1"
       "bS50LnsKICAibWVzc2FnZV9pZCI6ICJtc2ctMSIsCiAgImNvbnRlbnQiOiAiIVBJTkciCn0="
       (Utf8.encode (Json.stringify (Examples.event_of "!PING"))))
    Examples.two_tenants
  = (Ret (200%Z, js "ok"),
     set_tick 1
       (set_trace [EvApi (val (js "AT-1")) (PostChat (pong (JStr (js "msg-1"))))]
                  Examples.two_tenants)).
Proof. vm_compute. reflexivity. Qed.

Lemma handleEventWebhook_unrouted_witness :
  exists body logs,
    @handleEventWebhook Demo.online Demo.config
      (Examples.delivery "sub-9" "bS50Lnt9" (Utf8.encode (js "{}")))
      Examples.two_tenants
    = (Ret (match Json.parse (Buffer_toString (Utf8.encode (js "{}"))) with
            | Some _ => 200%Z
            | None => 500%Z
            end, body),
       set_trace (st_trace Examples.two_tenants ++ logs) Examples.two_tenants)
    /\ forallb is_console logs = true.
Proof.
  apply (@handleEventWebhook_unrouted Demo.online Demo.config
           (Examples.delivery "sub-9" "bS50Lnt9" (Utf8.encode (js "{}")))
           (Utf8.encode (js "{}")) Examples.two_tenants).
  - reflexivity.
  - vm_compute. reflexivity.
  - vm_compute. reflexivity.
Defined.

(** C7, as stated, fails on an authenticated delivery whose body is not
    JSON: the answer is 500. *)
Lemma handleEventWebhook_unrouted_not_json :
  (@verifyWebhook Demo.online Demo.config
     (req_headers (Examples.delivery "sub-9" "bS50Lm5vdCBqc29u"
                     (Utf8.encode (js "not json"))))
     (Utf8.encode (js "not json")) Examples.two_tenants).1 = Ret true
  /\ mapGet (header (req_headers (Examples.delivery "sub-9" "bS50Lm5vdCBqc29u"
                                    (Utf8.encode (js "not json"))))
                    "kick-event-subscription-id")
            (st_subscriptions Examples.two_tenants) = None
  /\ (@handleEventWebhook Demo.online Demo.config
        (Examples.delivery "sub-9" "bS50Lm5vdCBqc29u" (Utf8.encode (js "not json")))
        Examples.two_tenants).1
     = Ret (500%Z, js "error").
Proof. repeat split; vm_compute; reflexivity. Qed.

Lemma refresh_failure_isolated_witness :
  exists s',
    @fire Demo.offline Demo.config 0%nat Examples.two_tenants = (Ret tt, s')
    /\ st_heap s' = st_heap Examples.two_tenants
    /\ st_streamers s' = st_streamers Examples.two_tenants
    /\ st_subscriptions s' = st_subscriptions Examples.two_tenants
    /\ st_file s' = st_file Examples.two_tenants
    /\ (forall id2, id2 <> 0%nat ->
          mapGet id2 (st_timers s') = mapGet id2 (st_timers Examples.two_tenants)).
Proof.
  apply (@refresh_failure_isolated Demo.offline Demo.config
           Examples.two_tenants 0%nat 0%nat (Some 3480000%Z) (KickApiError 503));
    reflexivity.
Defined.

Lemma keepAlive_tick_witness :
  exists s',
    @fire Demo.online Demo.config 1%nat Examples.two_tenants = (Ret tt, s')
    /\ same_process Examples.two_tenants s'
    /\ mapGet 1%nat (st_timers s') = Some (KeepAliveInterval 0%nat 300000)
    /\ st_trace s'
       = [EvApi (val (js "AT-1"))
            (PostChat (keepAliveUser Demo.config (obj Examples.two_tenants 0%nat)));
          EvApi (val (js "AT-1")) (PostChat (keepAliveBot Demo.config));
          EvConsole log "Keep-alive messages posted for broadcaster"].
Proof.
  destruct (@keepAlive_tick Demo.online Demo.config Examples.two_tenants 1%nat
              0%nat 300000%Z eq_refl)
    as (s' & posts & line & Hrun & Hframe & Hkeep & Htrace & Hcases).
  vm_compute in Hcases. destruct Hcases as [-> ->].
  exists s'. split; [exact Hrun |]. split; [exact Hframe |].
  split; [exact Hkeep |]. rewrite Htrace. reflexivity.
Defined.

(** C8, as stated, fails: when the post as the user fails, the post as the
    bot is not attempted, although the platform would have accepted it. *)
Lemma keepAlive_first_failure_skips_second :
  @api_request Examples.flaky 1%nat (val (js "AT-1"))
    (PostChat (keepAliveBot Demo.config)) = inr RNull
  /\ st_trace (@fire Examples.flaky Demo.config 1%nat Examples.two_tenants).2
     = [EvApi (val (js "AT-1"))
          (PostChat (keepAliveUser Demo.config (obj Examples.two_tenants 0%nat)));
        EvConsole error "Kick API error while keep-alive"].
Proof. split; vm_compute; reflexivity. Qed.

Lemma refresh_rearms_then_persists_witness :
  exists s' doc records record,
    @refreshTask Demo.online 0%nat Examples.two_tenants = (Ret tt, s')
    /\ refreshToken (obj s' 0%nat) = js "RT2"
    /\ st_timers s'
       = st_timers Examples.two_tenants
         ++ [(4%nat, RefreshTimeout 0%nat (Some 3480000%Z))]
    /\ st_trace s'
       = [EvToken (RefreshGrant (js "RT-1"));
          EvSetTimeout 4%nat 0%nat (Some 3480000%Z);
          EvMkdir;
          EvWriteFile (Json.stringify doc);
          EvConsole log "Updated streamer store";
          EvConsole log "Refreshed token for broadcaster"]
    /\ st_file s' = Some (Json.stringify doc)
    /\ field (Some doc) "streamers" = Some (JArr records)
    /\ length records = 2%nat
    /\ record ∈ records
    /\ field (Some record) "broadcasterUserId" = Some (JNum 42)
    /\ field (Some record) "refreshToken" = Some (JStr (js "RT2")).
Proof.
  destruct (@refresh_rearms_then_persists Demo.online Examples.two_tenants 0%nat
              {| access_token := val (js "AT2"); refresh_token := val (js "RT2");
                 expires_in := val 3600%Z |})
    as (s' & rest & Hrun & Htoken & Hreg & Htimers & Htrace & Hfs).
  - vm_compute. discriminate.
  - reflexivity.
  - destruct Hfs as (doc & records & Hrest & Hfile & Hdoc & Hall & Hmine);
      [reflexivity | reflexivity |].
    destruct (Hmine 42) as (record & Hin & Hrec & Hrot); [reflexivity |].
    exists s', doc, records, record.
    split; [exact Hrun |]. split; [exact Htoken |]. split; [exact Htimers |].
    split; [rewrite Htrace, Hrest; reflexivity |].
    split; [exact Hfile |]. split; [exact Hdoc |].
    split; [by rewrite <- (Forall2_length _ _ _ Hall), Hreg |].
    split; [exact Hin |]. split; [| exact Hrot].
    destruct Hrec as (-> & _).
    assert (E : s' = (@refreshTask Demo.online 0%nat Examples.two_tenants).2)
      by (by rewrite Hrun).
    rewrite E. reflexivity.
Defined.

(** C9, as stated, fails: in a successful refresh the timeout is armed
    before the store is written. *)
Lemma refresh_rearms_before_persisting :
  (@refreshTask Demo.online 0%nat Examples.two_tenants).1 = Ret tt
  /\ List.map (fun e => match e with
                        | EvToken _ => "token"
                        | EvSetTimeout _ _ _ => "setTimeout"
                        | EvMkdir => "mkdir"
                        | EvWriteFile _ => "writeFile"
                        | EvConsole _ _ => "console"
                        | _ => "other"
                        end)
       (st_trace (@refreshTask Demo.online 0%nat Examples.two_tenants).2)
     = ["token"; "setTimeout"; "mkdir"; "writeFile"; "console"; "console"]
  /\ persists_before_rearming false
       (st_trace (@refreshTask Demo.online 0%nat Examples.two_tenants).2)
     = false.
Proof. repeat split; vm_compute; reflexivity. Qed.

Lemma persist_reload_roundtrip_witness :
  same_records Examples.two_tenants Cases.reissued
  /\ accessToken (obj Cases.reissued 0%nat)
     <> accessToken (obj Examples.two_tenants 0%nat)
  /\ exists s' text store records record,
       @upsertStreamer Demo.online 0%nat Examples.two_tenants = (Ret tt, s')
       /\ st_file s' = Some text
       /\ @loadStore Demo.online s' = (Ret store, s')
       /\ field (Some store) "streamers" = Some (JArr records)
       /\ length records = 2%nat
       /\ record ∈ records
       /\ field (Some record) "broadcasterUserId" = Some (JNum 42)
       /\ field (Some record) "slug" = Some (JStr (js "foo"))
       /\ field (Some record) "refreshToken" = Some (JStr (js "RT-1"))
       /\ field (Some record) "subscriptionId" = Some (JStr (js "sub-1"))
       /\ field (Some record) "accessToken" = None
       /\ st_file (@upsertStreamer Demo.online 0%nat Cases.reissued).2
          = Some text.
Proof.
  assert (Hsame : same_records Examples.two_tenants Cases.reissued).
  { split; [reflexivity |]. intros l.
    destruct (decide (l = 0%nat)) as [-> | Hl]; [by repeat split |].
    unfold obj, Cases.reissued. simpl. rewrite lookup_insert_ne by done.
    by repeat split. }
  split; [exact Hsame |]. split; [vm_compute; discriminate |].
  destruct (persist_reload_roundtrip
              (fun _ _ => inr {| access_token := val (js "AT2");
                                 refresh_token := val (js "RT2");
                                 expires_in := val 3600%Z |})
              (fun _ _ _ => inr RNull) (fun _ => None)
              Examples.two_tenants 0%nat)
    as (s' & text & store & records & Hrun & Hget & Hobj & Hfile & Hload
        & Hstore & Hall & (record & Hin & Hrec) & Hindep).
  - repeat split; try reflexivity. vm_compute. discriminate.
  - intros k l' Hin.
    repeat (apply elem_of_cons in Hin as [[= -> ->] | Hin];
            [repeat split; try reflexivity; vm_compute; discriminate |]).
    by apply elem_of_nil in Hin.
  - reflexivity.
  - reflexivity.
  - exists s', text, store, records, record.
    destruct Hrec as (H1 & H2 & H3 & H4 & Hnone).
    split; [exact Hrun |]. split; [exact Hfile |]. split; [exact Hload |].
    split; [exact Hstore |].
    split.
    { rewrite <- (Forall2_length _ _ _ Hall).
      assert (E : s' = (@upsertStreamer Demo.online 0%nat Examples.two_tenants).2).
      { change Demo.online
          with (Demo.platform
                  (fun _ _ => inr {| access_token := val (js "AT2");
                                     refresh_token := val (js "RT2");
                                     expires_in := val 3600%Z |})
                  (fun _ _ _ => inr RNull) (fun _ => None)).
        by rewrite Hrun. }
      rewrite E. reflexivity. }
    split; [exact Hin |]. split; [exact H1 |]. split; [exact H2 |].
    split; [exact H3 |]. split; [exact H4 |].
    split.
    { destruct (field (Some record) "accessToken") as [v |] eqn:F; [| done].
      apply Hnone in F.
      repeat (apply elem_of_cons in F as [F | F]; [discriminate |]).
      by apply elem_of_nil in F. }
    apply (Hindep Cases.reissued Hsame). reflexivity.
Defined.

(** C1 on the code: in the scenario of the specification the endpoint
    answers 500; the registry then holds the one record of broadcaster 42,
    slug foo, refresh token RT1, whose subscription id is still [null]; no
    subscription was listed or created and no timer was armed. *)
Lemma handleAddStreamer_scenario :
  exists s',
    @handleAddStreamer Scenario.platform Demo.config Scenario.request
      Examples.ready
    = (Ret (500%Z, js "error"), s')
    /\ List.map (fun e => persisted (obj s' e.2)) (st_streamers s')
       = [JObj [("broadcasterUserId", JNum 42); ("slug", JStr (js "foo"));
                ("refreshToken", JStr (js "RT1")); ("subscriptionId", JNull)]]
    /\ subscriptionId (obj s' 0%nat) = null
    /\ st_subscriptions s' = []
    /\ st_timers s' = []
    /\ List.filter (fun e => negb (is_console e)) (st_trace s')
       = [EvToken (AuthorizationCode (JStr (js "abc"))
                     (JStr (redirectUri Demo.config)) (JStr (js "xyz")));
          EvApi (val (js "AT1")) GetChannels;
          EvMkdir;
          EvWriteFile (Json.stringify (payload s'))].
Proof. eexists. split; [vm_compute; reflexivity |]. repeat split. Qed.

(** * Further properties *)

Ltac run_monad :=
  unfold bind, ret, throw, try_catch, get_state, modify, emit, console,
    next_tick, lift, deref, update; simpl.

(** ** Frames: what a run leaves as it was *)

#[global] Instance same_process_frame : Frame same_process.
Proof.
  split.
  - by repeat split.
  - unfold same_process. intros s1 s2 s3 H1 H2.
    destruct H1 as (?&?&?&?&?&?&?&?), H2 as (?&?&?&?&?&?&?&?).
    repeat split; congruence.
  - by repeat split.
  - by repeat split.
Qed.

#[global] Instance same_tenants_frame : Frame same_tenants.
Proof.
  split.
  - by repeat split.
  - unfold same_tenants. intros s1 s2 s3 (?&?&?) (?&?&?).
    repeat split; congruence.
  - by repeat split.
  - by repeat split.
Qed.

#[global] Instance same_tenants_heap : IgnoresHeap same_tenants.
Proof. split; by repeat split. Qed.
#[global] Instance same_tenants_timers : IgnoresTimers same_tenants.
Proof. by repeat split. Qed.
#[global] Instance same_tenants_file : IgnoresFile same_tenants.
Proof. by repeat split. Qed.

#[global] Instance same_key_frame : Frame same_key.
Proof.
  split; try done. unfold same_key. intros. congruence.
Qed.
#[global] Instance same_key_heap : IgnoresHeap same_key.
Proof. by split. Qed.
#[global] Instance same_key_timers : IgnoresTimers same_key.
Proof. done. Qed.
#[global] Instance same_key_file : IgnoresFile same_key.
Proof. done. Qed.
#[global] Instance same_key_streamers : IgnoresStreamers same_key.
Proof. done. Qed.
#[global] Instance same_key_subscriptions : IgnoresSubscriptions same_key.
Proof. done. Qed.

Section Frames.
Context {P : Platform} (config : Config).
Context (R : state -> state -> Prop) `{!Frame R}.

Lemma keeps_ret {A} (a : A) : keeps R (ret a).
Proof. intros s r s' [= <- <-]. apply frame_refl. Qed.

Lemma keeps_throw {A} e : keeps R (@throw A e).
Proof. intros s r s' [= <- <-]. apply frame_refl. Qed.

Lemma keeps_lift {A} (x : exn + A) : keeps R (lift x).
Proof. destruct x; [apply keeps_throw | apply keeps_ret]. Qed.

Lemma keeps_get_state : keeps R get_state.
Proof. intros s r s' [= <- <-]. apply frame_refl. Qed.

Lemma keeps_deref l : keeps R (deref l).
Proof. intros s r s' [= <- <-]. apply frame_refl. Qed.

Lemma keeps_bind {A B} (m : M A) (k : A -> M B) :
  keeps R m -> (forall a, keeps R (k a)) -> keeps R (bind m k).
Proof.
  intros Hm Hk s r s'. unfold bind.
  destruct (m s) as [[a | e] s1] eqn:E.
  - intros H. eapply frame_trans; [by eapply Hm | by eapply Hk].
  - intros [= <- <-]. by eapply Hm.
Qed.

Lemma keeps_try_catch {A} (m : M A) (h : exn -> M A) :
  keeps R m -> (forall e, keeps R (h e)) -> keeps R (try_catch m h).
Proof.
  intros Hm Hh s r s'. unfold try_catch.
  destruct (m s) as [[a | e] s1] eqn:E.
  - intros [= <- <-]. by eapply Hm.
  - intros H. eapply frame_trans; [by eapply Hm | by eapply Hh].
Qed.

Lemma keeps_modify f : (forall s, R s (f s)) -> keeps R (modify f).
Proof. intros H s r s' [= <- <-]. apply H. Qed.

Lemma keeps_emit e : keeps R (emit e).
Proof. apply keeps_modify. intros s. apply frame_trace. Qed.

Lemma keeps_console l msg : keeps R (console l msg).
Proof. apply keeps_emit. Qed.

Lemma keeps_next_tick : keeps R next_tick.
Proof. intros s r s' [= <- <-]. apply frame_tick. Qed.

Lemma keeps_readFile : keeps R readFile.
Proof.
  intros s r s'. unfold readFile.
  destruct (st_file s); intros [= <- <-]; apply frame_refl.
Qed.

Lemma keeps_update `{!IgnoresHeap R} l f : keeps R (update l f).
Proof. apply keeps_modify. intros s. apply ignores_heap. Qed.

Lemma keeps_alloc `{!IgnoresHeap R} o : keeps R (alloc o).
Proof.
  intros s r s' [= <- <-].
  eapply frame_trans; [apply ignores_heap | apply ignores_next].
Qed.

Lemma keeps_setTimer `{!IgnoresTimers R} t : keeps R (setTimer t).
Proof. intros s r s' [= <- <-]. apply ignores_timers. Qed.

End Frames.

(** One step of a frame proof: the monad operations, then the branches of
    the code. *)
Ltac keeps_step :=
  first
    [ match goal with |- Frame _ => tc_solve | |- IgnoresHeap _ => tc_solve
      | |- IgnoresTimers _ => tc_solve | |- IgnoresFile _ => tc_solve
      | |- IgnoresStreamers _ => tc_solve
      | |- IgnoresSubscriptions _ => tc_solve
      | |- forall _, _ => intros ?
      | |- _ _ (set_file _ _) => apply ignores_file
      | |- _ _ (set_timers _ _ _) => apply ignores_timers
      | |- _ _ (set_streamers _ _) => apply ignores_streamers
      | |- _ _ (set_subscriptions _ _) => apply ignores_subscriptions
      end
    | apply keeps_bind
    | apply keeps_try_catch
    | apply keeps_ret
    | apply keeps_throw
    | apply keeps_lift
    | apply keeps_get_state
    | apply keeps_deref
    | apply keeps_emit
    | apply keeps_console
    | apply keeps_next_tick
    | apply keeps_readFile
    | apply keeps_update
    | apply keeps_alloc
    | apply keeps_setTimer
    | apply keeps_modify
    | match goal with
      | H : _ |- keeps _ _ => apply H
      | |- keeps _ (match ?x with _ => _ end) => destruct x
      | |- keeps _ (let _ := _ in _) => cbv zeta
      end
    | progress unfold reportError, sendChatMessage, refreshAccessToken,
        exchangeCodeForToken, initializeStreamer, parse ].

Ltac keeps_all := repeat keeps_step.

Section FrameFacts.
Context {P : Platform} (config : Config).
Context (R : state -> state -> Prop) `{!Frame R}.

Lemma keeps_handleChatMessage l payload : keeps R (handleChatMessage l payload).
Proof. unfold handleChatMessage. keeps_all. Qed.

Lemma keeps_verifyWebhook headers rawBody :
  keeps R (verifyWebhook config headers rawBody).
Proof. unfold verifyWebhook. keeps_all. Qed.

Lemma keeps_handleEventWebhook req : keeps R (handleEventWebhook config req).
Proof.
  unfold handleEventWebhook.
  repeat first [apply keeps_verifyWebhook | apply keeps_handleChatMessage | keeps_step].
Qed.

Lemma keeps_keepAliveTask l : keeps R (keepAliveTask config l).
Proof. unfold keepAliveTask. keeps_all. Qed.

Lemma keeps_loadStore : keeps R loadStore.
Proof.
  unfold loadStore. apply keeps_try_catch; [done | keeps_all |].
  intros e. apply keeps_bind; [done | | keeps_all].
  assert (H : forall A (a b : M A),
             match e with FsError "ENOENT" => a | _ => b end = a
             \/ match e with FsError "ENOENT" => a | _ => b end = b).
  { intros A a b. destruct e; auto.
    repeat (match goal with
            | |- context [match ?x with _ => _ end] => destruct x; auto
            end). }
  destruct (H _ (ret tt) (console warn "Failed to read store file:")) as [-> | ->];
    keeps_all.
Qed.

Lemma keeps_persistState `{!IgnoresFile R} : keeps R persistState.
Proof. unfold persistState. keeps_all. Qed.

Lemma keeps_refreshTask `{!IgnoresHeap R, !IgnoresTimers R, !IgnoresFile R} l :
  keeps R (refreshTask l).
Proof. unfold refreshTask. repeat first [apply keeps_persistState | keeps_step]. Qed.

Lemma keeps_fire `{!IgnoresHeap R, !IgnoresTimers R, !IgnoresFile R} id :
  keeps R (fire config id).
Proof.
  unfold fire.
  repeat first [apply keeps_refreshTask | apply keeps_keepAliveTask | keeps_step].
Qed.

Lemma keeps_ensureSubscription `{!IgnoresHeap R, !IgnoresSubscriptions R} l :
  keeps R (ensureSubscription l).
Proof. unfold ensureSubscription. keeps_all. Qed.

Lemma keeps_handleAddStreamer
  `{!IgnoresHeap R, !IgnoresStreamers R, !IgnoresFile R} req :
  keeps R (handleAddStreamer config req).
Proof.
  unfold handleAddStreamer.
  repeat first [apply keeps_persistState | keeps_step].
Qed.

End FrameFacts.

#[global] Instance same_wiring_frame : Frame same_wiring.
Proof.
  split.
  - by repeat split.
  - unfold same_wiring. intros s1 s2 s3 (?&?&?&?) (?&?&?&?).
    repeat split; congruence.
  - by repeat split.
  - by repeat split.
Qed.
#[global] Instance same_wiring_heap : IgnoresHeap same_wiring.
Proof. split; by repeat split. Qed.
#[global] Instance same_wiring_streamers : IgnoresStreamers same_wiring.
Proof. by repeat split. Qed.
#[global] Instance same_wiring_file : IgnoresFile same_wiring.
Proof. by repeat split. Qed.

(** ** Maps and strings *)

Section MapFacts.
Context {K V : Type} `{EqDecision K}.

Lemma mapGet_mapSet_ne (k k' : K) (v : V) m :
  k' <> k -> mapGet k' (mapSet k v m) = mapGet k' m.
Proof.
  intros Hne. induction m as [| [k0 v0] m IH]; simpl.
  - by rewrite decide_False.
  - destruct (decide (k = k0)) as [-> | Hk]; simpl.
    + by rewrite !decide_False.
    + by rewrite IH.
Qed.

Lemma mapGet_None_keys (k : K) (m : list (K * V)) :
  mapGet k m = None <-> k ∉ keys m.
Proof.
  induction m as [| [k0 v0] m IH]; simpl.
  - split; [intros _; apply not_elem_of_nil | done].
  - destruct (decide (k = k0)) as [-> | Hk].
    + split; [done |]. intros Hn. exfalso. apply Hn. apply list_elem_of_here.
    + rewrite IH. unfold keys. simpl. rewrite not_elem_of_cons. tauto.
Qed.

Lemma keys_mapSet (k : K) (v : V) m :
  keys (mapSet k v m)
  = match mapGet k m with Some _ => keys m | None => keys m ++ [k] end.
Proof.
  induction m as [| [k0 v0] m IH]; simpl; [done |].
  destruct (decide (k = k0)) as [-> | Hk]; simpl; [done |].
  unfold keys in *. rewrite IH. by destruct (mapGet k m).
Qed.

Lemma NoDup_keys_mapSet (k : K) (v : V) m :
  NoDup (keys m) -> NoDup (keys (mapSet k v m)).
Proof.
  intros Hm. rewrite keys_mapSet.
  destruct (mapGet k m) eqn:E; [done |].
  apply NoDup_app. split; [done |]. split.
  - intros x Hx Hk. apply list_elem_of_singleton in Hk as ->.
    by apply mapGet_None_keys in E.
  - apply NoDup_singleton.
Qed.

End MapFacts.

Section Behaviour.

Context {P : Platform} (config : Config) (routes : Routes).

(** ** The registry and the store *)

(** X1. [upsertStreamer]: the registry holds one streamer object per
    broadcaster id.  Whether or not the store can be written, the object
    becomes the one registered under its id; the objects registered under
    other ids stay; an id that was registered keeps its place in the
    iteration order and a new id goes last, so that ids are never
    duplicated. *)
Theorem upsertStreamer_registry l s :
  let id := broadcasterUserId (obj s l) in
  let s' := (upsertStreamer l s).2 in
  mapGet id (st_streamers s') = Some l
  /\ (forall k, k <> id ->
        mapGet k (st_streamers s') = mapGet k (st_streamers s))
  /\ keys (st_streamers s')
     = match mapGet id (st_streamers s) with
       | Some _ => keys (st_streamers s)
       | None => keys (st_streamers s) ++ [id]
       end
  /\ (NoDup (keys (st_streamers s)) -> NoDup (keys (st_streamers s'))).
Proof.
  intros id s'.
  assert (E : st_streamers s' = mapSet id l (st_streamers s)).
  { subst s' id. unfold upsertStreamer, persistState, saveStore, writeFile, fs_op, obj.
    run_monad.
    destruct (fs_write (st_tick s)); simpl; [done |].
    destruct (fs_write (S (st_tick s))); simpl; [| done].
    by destruct (fs_written (S (st_tick s))). }
  rewrite E. split; [apply mapGet_mapSet |].
  split; [intros k Hk; by apply mapGet_mapSet_ne |].
  split; [apply keys_mapSet | apply NoDup_keys_mapSet].
Qed.

(** X2. [upsertStreamer] registers before it writes, and the write is not
    atomic.  When the file system refuses to create the directory or to
    write the file, the call throws that error and the streamer is
    registered in memory all the same.  The store file is as before when
    the directory or the file could not be opened; when the write fails
    once the file is open, the file holds the bytes written so far of the
    new snapshot and nothing of what it held: the old store is lost. *)
Theorem upsertStreamer_write_fails l s e :
  fs_write (st_tick s) = Some e
  \/ (fs_write (st_tick s) = None /\ fs_write (S (st_tick s)) = Some e) ->
  exists s',
    upsertStreamer l s = (Throw e, s')
    /\ mapGet (broadcasterUserId (obj s l)) (st_streamers s') = Some l
    /\ st_file s'
       = match fs_write (st_tick s), fs_written (S (st_tick s)) with
         | None, Some k =>
             Some (Buffer_toString
                     (take k (Utf8.encode (JSON_stringify (payload s')))))
         | _, _ => st_file s
         end.
Proof.
  intros H. unfold upsertStreamer, persistState, saveStore, writeFile, fs_op, obj.
  run_monad.
  destruct H as [H | [H1 H2]].
  - rewrite H. simpl. eexists. split; [reflexivity |]. simpl.
    split; [apply mapGet_mapSet | done].
  - rewrite H1. simpl. rewrite H2. simpl.
    destruct (fs_written (S (st_tick s))) as [k |]; simpl;
      (eexists; split; [reflexivity |]; simpl;
       split; [apply mapGet_mapSet | done]).
Qed.

(** X3. [loadStore] never throws and changes nothing: whatever the file
    holds, it returns a document whose [streamers] is an array, having
    written to the console at most.  A missing file gives the empty store
    silently; a file that does not parse gives the empty store with a
    warning. *)
Theorem loadStore_total s :
  exists store entries logs,
    loadStore s = (Ret store, set_trace (st_trace s ++ logs) s)
    /\ field (Some store) "streamers" = Some (JArr entries)
    /\ forallb is_console logs = true
    /\ (st_file s = None -> store = emptyStore /\ logs = [])
    /\ (forall raw, st_file s = Some raw -> JSON_parse raw = None ->
          store = emptyStore
          /\ logs = [EvConsole warn "Failed to read store file:"])
    /\ (forall raw data, st_file s = Some raw -> JSON_parse raw = Some data ->
          store = match field (Some data) "streamers" with
                  | Some (JArr _) => data
                  | _ => emptyStore
                  end).
Proof.
  unfold loadStore, readFile, parse. run_monad.
  destruct (st_file s) as [raw |] eqn:F; simpl.
  - destruct (JSON_parse raw) as [data |] eqn:J; simpl.
    + destruct data as [| b | z | str | arr | fs]; simpl;
        try (eexists _, _, [_]; split; [reflexivity |];
             by repeat split; intros; simplify_eq).
      * eexists _, _, []. rewrite set_trace_nil. split; [reflexivity |].
        repeat split; intros; by simplify_eq.
      * eexists _, _, []. rewrite set_trace_nil. split; [reflexivity |].
        repeat split; intros; by simplify_eq.
      * eexists _, _, []. rewrite set_trace_nil. split; [reflexivity |].
        repeat split; intros; by simplify_eq.
      * eexists _, _, []. rewrite set_trace_nil. split; [reflexivity |].
        repeat split; intros; by simplify_eq.
      * destruct (assoc "streamers" fs) as [[| | | | arr |] |] eqn:A; simpl;
          eexists _, _, []; rewrite set_trace_nil;
          (split; [reflexivity |]); simpl; rewrite ?A;
          repeat split; intros; simplify_eq; simpl; by rewrite ?A.
    + eexists _, _, [_]. split; [reflexivity |].
      repeat split; intros; by simplify_eq.
  - eexists _, _, []. rewrite set_trace_nil. split; [reflexivity |].
    repeat split; intros; by simplify_eq.
Qed.

Lemma readEntry_Entry entry o :
  readEntry entry = Entry o ->
  refreshToken o <> [] /\ client o = None /\ o = stored o.
Proof.
  unfold readEntry.
  destruct entry; try discriminate;
    destruct (negb _) eqn:T; try discriminate;
    destruct (field _ "broadcasterUserId") as [[] |]; try discriminate;
    destruct (optString (field _ "slug")); try discriminate;
    destruct (field _ "refreshToken") as [[| | | token | |] |] eqn:F;
    try discriminate;
    destruct (optString (field _ "subscriptionId")); try discriminate;
    intros [= <-]; simpl; repeat split;
    destruct token; done.
Qed.

(** ** Subscriptions *)

(** X5. [ensureSubscription] reuses a subscription that exists: when the
    list of the broadcaster's subscriptions holds an entry for
    [chat.message.sent] version 1, the first such entry becomes the
    subscription of the streamer and is indexed; the list request is the
    only request, nothing is created. *)
Theorem ensureSubscription_reuses l s token existing entry :
  client (obj s l) = Some token ->
  api_request (st_tick s) token
    (ListEventSubscriptions (broadcasterUserId (obj s l))) = inr existing ->
  listedSubscription existing = Some entry ->
  exists s',
    ensureSubscription l s = (Ret tt, s')
    /\ st_trace s'
       = st_trace s
         ++ [EvApi token (ListEventSubscriptions (broadcasterUserId (obj s l)))]
    /\ subscriptionId (obj s' l) = sub_id entry
    /\ st_subscriptions s' = mapSet (sub_id entry) l (st_subscriptions s)
    /\ mapGet (sub_id entry) (st_subscriptions s') = Some l
    /\ st_streamers s' = st_streamers s
    /\ st_timers s' = st_timers s
    /\ st_file s' = st_file s.
Proof.
  intros Hc Hlist Hfind.
  unfold ensureSubscription, subscribe, api. unfold obj in *. run_monad.
  rewrite Hc. simpl. rewrite Hlist. simpl.
  unfold listedSubscription in Hfind. rewrite Hfind. simpl.
  eexists. split; [reflexivity |]. simpl.
  rewrite lookup_insert_eq. simpl.
  repeat split. apply mapGet_mapSet.
Qed.

(** X6. When no such subscription is listed, [ensureSubscription] asks for
    one: the list request and the create request are its two requests.  If
    the answer is an array whose first element has a truthy
    [subscription_id], this id becomes the subscription of the streamer and
    is indexed; otherwise the call throws, and the streamer objects and the
    reverse index are as before. *)
Theorem ensureSubscription_creates l s token existing created :
  client (obj s l) = Some token ->
  api_request (st_tick s) token
    (ListEventSubscriptions (broadcasterUserId (obj s l))) = inr existing ->
  listedSubscription existing = None ->
  api_request (S (st_tick s)) token
    (CreateEventSubscriptions (broadcasterUserId (obj s l))) = inr created ->
  exists r s',
    ensureSubscription l s = (r, s')
    /\ st_trace s'
       = st_trace s
         ++ [EvApi token (ListEventSubscriptions (broadcasterUserId (obj s l)));
             EvApi token (CreateEventSubscriptions (broadcasterUserId (obj s l)))]
    /\ if truthyS (createdId created) then
         r = Ret tt
         /\ subscriptionId (obj s' l) = createdId created
         /\ mapGet (createdId created) (st_subscriptions s') = Some l
       else
         r = Throw (Error "Failed to create chat.message.sent subscription")
         /\ st_heap s' = st_heap s
         /\ st_subscriptions s' = st_subscriptions s.
Proof.
  intros Hc Hlist Hfind Hcreate.
  unfold ensureSubscription, subscribe, api. unfold obj in *. run_monad.
  rewrite Hc. simpl. rewrite Hlist. simpl.
  unfold listedSubscription in Hfind. rewrite Hfind. simpl.
  rewrite Hcreate. simpl.
  destruct created as [| | | [| first rest] | |]; simpl;
    try (eexists _, _; split; [reflexivity |]; simpl;
         rewrite <- app_assoc; by repeat split).
  destruct (truthyS (subscription_id first)) eqn:E; simpl.
  - eexists _, _. split; [reflexivity |]. simpl.
    rewrite <- app_assoc. split; [done |].
    rewrite lookup_insert_eq. simpl. repeat split. apply mapGet_mapSet.
  - eexists _, _. split; [reflexivity |]. simpl.
    rewrite <- app_assoc. by repeat split.
Qed.

(** ** Webhook deliveries *)

(** X7. [loadKickPublicKey] asks for the key once: with a key loaded it
    returns at once and sends nothing.  Without one it sends one request.
    It returns exactly when the answer has a truthy [public_key], which is
    then the key; any other answer makes it throw its own error and a
    failed request makes it throw the error of the request, and both leave
    the key as it was. *)
Theorem loadKickPublicKey_once s :
  if truthyS (st_publicKey s) then loadKickPublicKey s = (Ret tt, s)
  else
    exists r s',
      loadKickPublicKey s = (r, s')
      /\ List.filter (fun e => negb (is_console e)) (st_trace s')
         = List.filter (fun e => negb (is_console e)) (st_trace s)
           ++ [EvApi null GetPublicKey]
      /\ match api_request (st_tick s) null GetPublicKey with
         | inr (RPublicKey k) =>
             if truthyS k then r = Ret tt /\ st_publicKey s' = k
             else
               r = Throw (Error "Unable to fetch Kick public key for webhook verification.")
               /\ st_publicKey s' = st_publicKey s
         | inr _ =>
             r = Throw (Error "Unable to fetch Kick public key for webhook verification.")
             /\ st_publicKey s' = st_publicKey s
         | inl e => r = Throw e /\ st_publicKey s' = st_publicKey s
         end.
Proof.
  unfold loadKickPublicKey, api. run_monad.
  destruct (truthyS (st_publicKey s)) eqn:E; [done |].
  destruct (api_request _ _ _) as [e | [| | | | k |]]; simpl;
    try (eexists _, _; split; [reflexivity |]; simpl;
         rewrite List.filter_app; by split).
  destruct (truthyS k) eqn:Ek; simpl.
  - eexists _, _. split; [reflexivity |]. simpl.
    rewrite !List.filter_app. simpl. rewrite app_nil_r. by split.
  - eexists _, _. split; [reflexivity |]. simpl.
    rewrite List.filter_app. by split.
Qed.

(** X8. A correctly signed delivery is accepted: when the key is loaded,
    the three headers are present, the secret header equals the configured
    secret (or no secret is configured) and the signature verifies,
    [verifyWebhook] returns true and changes nothing. *)
Theorem verifyWebhook_valid_delivery headers rawBody s key messageId timestamp
  signature :
  st_publicKey s = val key -> key <> [] ->
  header headers "kick-event-message-id" = val messageId -> messageId <> [] ->
  header headers "kick-event-message-timestamp" = val timestamp ->
  timestamp <> [] ->
  header headers "kick-event-signature" = val signature -> signature <> [] ->
  eventSecret config = []
  \/ header headers "kick-app-secret" = val (eventSecret config) ->
  rsa_sha256_verify key (signedData messageId timestamp rawBody)
                    (base64_decode signature) = inr true ->
  verifyWebhook config headers rawBody s = (Ret true, s).
Proof.
  intros Hk Hk' Hm Hm' Ht Ht' Hg Hg' Hsecret Hv.
  unfold verifyWebhook, bind, get_state. rewrite Hk, Hm, Ht, Hg.
  destruct key as [| k0 key']; [done |].
  destruct messageId as [| m0 m']; [done |].
  destruct timestamp as [| t0 t']; [done |].
  destruct signature as [| g0 g']; [done |].
  cbn [truthyS negb orb nullish st_publicKey].
  assert (Hs : truthyS (val (eventSecret config))
               && (negb (truthyS (header headers "kick-app-secret"))
                   || negb (bool_decide (header headers "kick-app-secret"
                                         = val (eventSecret config))))
               = false).
  { destruct Hsecret as [-> | ->]; [done |].
    rewrite bool_decide_eq_true_2 by done.
    destruct (eventSecret config); done. }
  cbn [truthyS] in Hs. rewrite Hs. unfold try_catch, lift. rewrite Hv. reflexivity.
Qed.

(** [verifyWebhook] writes to the console at most. *)
Lemma verifyWebhook_logs headers rawBody s r s' :
  verifyWebhook config headers rawBody s = (r, s') ->
  exists logs, s' = set_trace (st_trace s ++ logs) s
               /\ forallb is_console logs = true.
Proof.
  unfold verifyWebhook. run_monad.
  repeat (match goal with
          | |- context [if ?c then _ else _] => destruct c; simpl
          | |- context [match ?x with inl _ => _ | inr _ => _ end] =>
              destruct x; simpl
          end);
    intros [= <- <-];
    first [ exists []; by rewrite set_trace_nil | by eexists [_] ].
Qed.

(** X9. A delivery that [verifyWebhook] rejects is answered 401 and goes no
    further: the body is not parsed, no streamer is looked up, no command
    runs and no request is sent; the handler has written to the console at
    most. *)
Theorem handleEventWebhook_rejects req rawBody s :
  req_body req = inr rawBody ->
  (verifyWebhook config (req_headers req) rawBody s).1 = Ret false ->
  exists logs,
    handleEventWebhook config req s
    = (Ret (401, js "invalid signature"), set_trace (st_trace s ++ logs) s)
    /\ forallb is_console logs = true.
Proof.
  intros Hbody Hv.
  unfold handleEventWebhook, readBody. rewrite Hbody.
  unfold bind at 1, try_catch, lift, ret at 1. unfold bind at 1.
  destruct (verifyWebhook config (req_headers req) rawBody s) as [r s1] eqn:E.
  simpl in Hv. subst r.
  apply verifyWebhook_logs in E as (logs & -> & Hlogs).
  by exists logs.
Qed.

(** X10. The webhook handler always answers, with 200 [ok], 401
    [invalid signature] or 500 [error], and never throws; whatever the
    delivery, it leaves the streamer objects, the registry, the reverse
    index, the key, the timers and the store as they were. *)
Theorem handleEventWebhook_answers req s :
  exists answer s',
    handleEventWebhook config req s = (Ret answer, s')
    /\ same_process s s'
    /\ (answer = (200, js "ok") \/ answer = (401, js "invalid signature")
        \/ answer = (500, js "error")).
Proof.
  destruct (handleEventWebhook config req s) as [r s'] eqn:E.
  assert (Hf : same_process s s')
    by exact (keeps_handleEventWebhook config same_process req s r s' E).
  revert E. unfold handleEventWebhook, readBody, parse.
  unfold bind at 1, try_catch, lift.
  destruct (req_body req) as [e | rawBody].
  - run_monad. intros [= <- <-]. eexists _, _. split; [done |]. auto.
  - unfold ret at 1. unfold bind at 1.
    destruct (verifyWebhook config (req_headers req) rawBody s)
      as [[[] | e] s1].
    + cbn [negb]. destruct (JSON_parse (Buffer_toString rawBody)).
      * unfold ret at 1. unfold bind at 1.
        destruct (bool_decide _).
        -- unfold bind at 1. unfold bind at 1, get_state.
           destruct (mapGet _ _).
           ++ destruct (handleChatMessage _ _ s1) as [[[] | e] s2]; run_monad;
                intros [= <- <-]; eexists _, _; (split; [done |]); auto.
           ++ run_monad. intros [= <- <-]. eexists _, _. split; [done |]. auto.
        -- run_monad. intros [= <- <-]. eexists _, _. split; [done |]. auto.
      * run_monad. intros [= <- <-]. eexists _, _. split; [done |]. auto.
    + run_monad. intros [= <- <-]. eexists _, _. split; [done |]. auto.
    + run_monad. intros [= <- <-]. eexists _, _. split; [done |]. auto.
Qed.

(** ** Onboarding *)

(** X11. Onboarding with a wrong secret: when a secret is configured and the
    [kick-app-secret] header is missing or different, a request whose body
    is JSON is answered 401 and nothing happens: no token is requested and
    the state and the trace are as before. *)
Theorem handleAddStreamer_wrong_secret req rawBody body s :
  req_body req = inr rawBody ->
  JSON_parse (Buffer_toString rawBody) = Some body ->
  eventSecret config <> [] ->
  header (req_headers req) "kick-app-secret" <> val (eventSecret config) ->
  handleAddStreamer config req s = (Ret (401, js "invalid secret"), s).
Proof.
  intros Hbody Hparse Hs Hh.
  unfold handleAddStreamer, readBody, parse. rewrite Hbody.
  run_monad. rewrite Hparse. simpl. rewrite bool_decide_eq_false_2 by done.
  destruct (eventSecret config); done.
Qed.

(** X12. Onboarding without a code: a request that passes the secret check
    and whose body has no truthy [code] or no truthy [code_verifier] is
    answered 400 and nothing happens. *)
Theorem handleAddStreamer_missing_code req rawBody body s :
  req_body req = inr rawBody ->
  JSON_parse (Buffer_toString rawBody) = Some body ->
  eventSecret config = []
  \/ header (req_headers req) "kick-app-secret" = val (eventSecret config) ->
  truthyJ (field (Some body) "code") = false
  \/ truthyJ (field (Some body) "code_verifier") = false ->
  handleAddStreamer config req s
  = (Ret (400, js "code and code_verifier required"), s).
Proof.
  intros Hbody Hparse Hs Hc.
  unfold handleAddStreamer, readBody, parse. rewrite Hbody.
  run_monad. rewrite Hparse. simpl.
  assert (E : match eventSecret config with [] => false | _ :: _ => true end
              && negb (bool_decide (header (req_headers req) "kick-app-secret"
                                    = val (eventSecret config))) = false).
  { destruct Hs as [-> | ->]; [done |].
    rewrite bool_decide_eq_true_2 by done. by destruct (eventSecret config). }
  rewrite E. simpl in Hc.
  destruct Hc as [-> | ->]; simpl; [done |].
  by rewrite orb_true_r.
Qed.

(** X13. The onboarding endpoint always answers, with 400, 401 or 500, and
    never throws.  Every answer but the catch-all 500 [error] leaves the
    process as it was; and no request at all makes the endpoint index a
    subscription, arm a timer or change the key. *)
Theorem handleAddStreamer_answers req s :
  exists status body s',
    handleAddStreamer config req s = (Ret (status, body), s')
    /\ (status = 400 \/ status = 401 \/ status = 500)
    /\ (body <> js "error" -> same_process s s')
    /\ st_subscriptions s' = st_subscriptions s
    /\ st_timers s' = st_timers s
    /\ st_publicKey s' = st_publicKey s.
Proof.
  unfold handleAddStreamer, readBody, parse, exchangeCodeForToken, api,
    upsertStreamer, persistState, saveStore, writeFile, fs_op, initializeStreamer, alloc.
  run_monad.
  repeat (match goal with
          | |- context [match ?x with inl _ => _ | inr _ => _ end] =>
              destruct x; simpl
          | |- context [match ?x with Some _ => _ | None => _ end] =>
              destruct x; simpl
          | |- context [if ?c then _ else _] => destruct c; simpl
          | |- context [match ?x with JNull => _ | _ => _ end] =>
              destruct x; simpl
          | |- context [match ?x with RNull => _ | _ => _ end] =>
              destruct x; simpl
          | |- context [match ?x with [] => _ | _ :: _ => _ end] =>
              destruct x; simpl
          end);
    eexists _, _, _; (split; [reflexivity |]); simpl;
    (split; [auto |]); (split; [| done]);
    first [ by intros _ | intros H; by destruct H ].
Qed.

(** X14. When the exchange returns both tokens and the channel lookup a
    broadcaster id, the endpoint registers a new streamer object under that
    id, in place of the object that was registered under it if there was
    one, and writes the store; then the call of [initializeStreamer]
    throws and the answer is 500.  The new object holds the refresh token
    of the exchange and the slug of the channel; its subscription id is
    [null] and it has no client and no timer. *)
Theorem handleAddStreamer_registers req rawBody body code verifier redirect
  tokens token refresh ch others id s :
  req_body req = inr rawBody ->
  JSON_parse (Buffer_toString rawBody) = Some body ->
  eventSecret config = []
  \/ header (req_headers req) "kick-app-secret" = val (eventSecret config) ->
  field (Some body) "code" = Some code -> truthyJ (Some code) = true ->
  field (Some body) "code_verifier" = Some verifier ->
  truthyJ (Some verifier) = true ->
  redirectOf config body = Some redirect ->
  truthyJ (Some redirect) = true ->
  oauth_token (st_tick s) (AuthorizationCode code redirect verifier)
  = inr tokens ->
  access_token tokens = val token -> token <> [] ->
  refresh_token tokens = val refresh -> refresh <> [] ->
  api_request (S (st_tick s)) (val token) GetChannels
  = inr (RChannels (ch :: others)) ->
  broadcaster_user_id ch = val id -> id <> 0 ->
  exists s',
    handleAddStreamer config req s = (Ret (500, js "error"), s')
    /\ st_streamers s' = mapSet id (st_next s) (st_streamers s)
    /\ obj s' (st_next s) = newTenant id (channel_slug ch) refresh
    /\ (fs_write (2 + st_tick s) = None -> fs_write (3 + st_tick s) = None ->
        st_file s' = Some (JSON_stringify (payload s')))
    /\ st_subscriptions s' = st_subscriptions s
    /\ st_timers s' = st_timers s.
Proof.
  intros Hbody Hparse Hs Hcode Hc Hver Hv Hred Hr Hex Hat Hat' Hrt Hrt' Hch Hid Hid'.
  assert (E : truthyS (val (eventSecret config))
              && negb (bool_decide (header (req_headers req) "kick-app-secret"
                                    = val (eventSecret config))) = false).
  { destruct Hs as [-> | ->]; [done |].
    rewrite bool_decide_eq_true_2 by done. by destruct (eventSecret config). }
  unfold handleAddStreamer, readBody, parse. rewrite Hbody.
  unfold try_catch, lift. unfold bind at 1, ret at 1. rewrite Hparse.
  unfold bind at 1, ret at 1. cbv zeta. rewrite E.
  unfold redirectOf in Hred. cbv zeta in Hred.
  rewrite Hcode, Hver, Hred. rewrite Hc, Hv.
  cbn [negb orb].
  unfold exchangeCodeForToken, api, upsertStreamer, persistState, saveStore,
    writeFile, fs_op, initializeStreamer, alloc.
  rewrite Hc, Hv, Hr. run_monad.
  rewrite Hex. simpl. rewrite Hat, Hrt.
  destruct token as [| t0 token']; [done |].
  destruct refresh as [| r0 refresh']; [done |]. simpl.
  rewrite Hch. simpl. rewrite Hid.
  assert (Z : (id =? 0)%Z = false) by (by apply Z.eqb_neq).
  simpl. rewrite Z. simpl.
  rewrite !lookup_insert_eq. simpl.
  destruct (fs_write (S (S (st_tick s)))) as [e1 |] eqn:F1; simpl.
  - eexists. split; [reflexivity |]. simpl. unfold obj. simpl.
    rewrite lookup_insert_eq. by repeat split.
  - destruct (fs_write (S (S (S (st_tick s))))) as [e2 |] eqn:F2; simpl.
    + destruct (fs_written (S (S (S (st_tick s))))); simpl;
        (eexists; split; [reflexivity |]; simpl; unfold obj; simpl;
         rewrite lookup_insert_eq; by repeat split).
    + eexists. split; [reflexivity |]. simpl. unfold obj. simpl.
      rewrite lookup_insert_eq. by repeat split.
Qed.

(** ** Chat commands *)

Lemma reportError_returns context e s :
  exists msg, reportError context e s
              = (Ret tt, set_trace (st_trace s ++ [EvConsole error msg]) s).
Proof. unfold reportError. destruct e; run_monad; eauto. Qed.

Lemma sendReply_returns l message replyTo s :
  exists s', sendReply l message replyTo s = (Ret tt, s').
Proof.
  unfold sendReply, try_catch.
  match goal with |- context [match ?m s with _ => _ end] =>
    destruct (m s) as [[[] | e] s1] end; [eauto |].
  destruct (reportError_returns "sending reply" e s1) as [msg ->]. eauto.
Qed.

(** X15. [handleChatMessage] throws only for a [content] that is neither a
    string nor missing; for every other event it returns normally,
    whatever the platform answers and even for a streamer that has no
    client, and it leaves the process as it was. *)
Theorem handleChatMessage_returns l payload s :
  match field payload "content" with
  | None | Some JNull | Some (JStr _) =>
      exists s', handleChatMessage l payload s = (Ret tt, s')
                 /\ same_process s s'
  | Some _ =>
      handleChatMessage l payload s
      = (Throw (TypeError "payload?.content?.trim is not a function"), s)
  end.
Proof.
  assert (Hf : forall r s', handleChatMessage l payload s = (r, s') ->
                            same_process s s')
    by exact (keeps_handleChatMessage same_process l payload s).
  unfold handleChatMessage in *.
  destruct (field payload "content") as [[| b | z | raw | arr | fs] |];
    try reflexivity;
    try (eexists; split; [reflexivity | by eapply Hf]).
  cbv zeta in *.
  destruct (trim raw) as [| c r];
    [eexists; split; [reflexivity | by eapply Hf] |].
  destruct (bool_decide _).
  { destruct (sendReply_returns l (js "!pong") (field payload "message_id") s)
      as [s' E].
    exists s'. split; [done |]. by eapply Hf. }
  destruct (startsWith _ _);
    [| eexists; split; [reflexivity | by eapply Hf]].
  destruct (trim (slice _ _)) as [| n t];
    [eexists; split; [reflexivity | by eapply Hf] |].
  match goal with
  | |- exists s', ?m s = _ /\ _ =>
      assert (Hr : exists s', m s = (Ret tt, s'))
  end.
  { unfold try_catch.
    match goal with |- context [match ?m s with _ => _ end] =>
      destruct (m s) as [[[] | e] s1] end; [eauto |].
    unfold bind.
    destruct (reportError_returns "updating title" e s1) as [msg ->].
    apply sendReply_returns. }
  destruct Hr as [s' Hr]. exists s'. split; [done |]. by eapply Hf.
Qed.

(** X16. Whatever the event and the platform, a chat command acts for the
    streamer it was routed to and for no other: every request it sends
    carries the token of the client of that streamer, and is either a
    message posted as the bot, never blank, or a title update, whose title
    is not blank and has no blank at either end.  It requests no token,
    writes no file and arms no timer. *)
Theorem handleChatMessage_effects l payload s :
  exists r s' new,
    handleChatMessage l payload s = (r, s')
    /\ st_trace s' = st_trace s ++ new
    /\ Forall (command_effect (client (obj s l))) new.
Proof.
  unfold handleChatMessage, sendReply, with_streamer_client, sendChatMessage,
    updateChannelMetadata, api, reportError, obj.
  destruct (field payload "content") as [[| b | z | raw | arr | fs] |];
    try (eexists _, _, []; rewrite app_nil_r; by repeat split).
  cbv zeta.
  destruct (trim raw) as [| c0 r0];
    [eexists _, _, []; rewrite app_nil_r; by repeat split |].
  destruct (bool_decide _).
  { run_monad.
    destruct (client _) as [token |]; simpl;
      [| eexists _, _, [_]; by repeat constructor].
    destruct (api_request _ _ _); simpl.
    - destruct e; eexists _, _, [_; _]; simpl;
        (split; [reflexivity |]); simpl; rewrite <- ?app_assoc;
        (split; [reflexivity |]); by repeat constructor.
    - eexists _, _, [_]; simpl.
      split; [reflexivity |]. split; [reflexivity |]. by repeat constructor. }
  destruct (startsWith _ _);
    [| eexists _, _, []; rewrite app_nil_r; by repeat split].
  destruct (trim (slice _ _)) as [| n t] eqn:T;
    [eexists _, _, []; rewrite app_nil_r; by repeat split |].
  assert (Ht : trim (n :: t) = n :: t) by (rewrite <- T; apply trim_trim).
  remember (js "Updated title to: " ++ n :: t) as updated eqn:Hupdated.
  clear Hupdated.
  destruct (trim updated) as [| u0 u] eqn:U.
  all: destruct (client (default emptyObject (st_heap s !! l))) as [token |] eqn:C.
  all: run_monad; repeat (progress (rewrite ?C; simpl)).
  all: repeat (match goal with
               | |- context [match ?x with inl _ => _ | inr _ => _ end] =>
                   destruct x; simpl; repeat (progress (rewrite ?C; simpl))
               | |- context [match ?e with KickApiError _ => _ | _ => _ end] =>
                   destruct e; simpl; repeat (progress (rewrite ?C; simpl))
               end).
  all: first [ eexists _, _, [_; _; _; _]; simpl; split; [reflexivity |];
               simpl; rewrite <- ?app_assoc; split; [reflexivity |]
             | eexists _, _, [_; _; _]; simpl; split; [reflexivity |];
               simpl; rewrite <- ?app_assoc; split; [reflexivity |]
             | eexists _, _, [_; _]; simpl; split; [reflexivity |];
               simpl; rewrite <- ?app_assoc; split; [reflexivity |]
             | eexists _, _, [_]; simpl; split; [reflexivity |];
               simpl; rewrite <- ?app_assoc; split; [reflexivity |] ].
  all: repeat constructor; simpl; try done.
  all: try (rewrite U; done).
  all: try (vm_compute; discriminate).
Qed.

(** X17. [!title]: for a streamer that has a client, a message that starts
    with [!title] and a space, in any case, and goes on with a title that is
    not blank, makes one title update and one reply.  The title is the rest
    of the message as it was typed, without the blanks around it.  When the
    update succeeds the reply confirms the title; when the update fails the
    failure is reported on the console and the reply says so.  The handler
    returns normally in both cases. *)
Theorem handleChatMessage_title l s token payload raw :
  client (obj s l) = Some token ->
  field payload "content" = Some (JStr raw) ->
  startsWith (toLowerCase (trim raw)) (js "!title ") = true ->
  trim (slice 7 (trim raw)) <> [] ->
  let newTitle := trim (slice 7 (trim raw)) in
  let messageId := field payload "message_id" in
  exists s' report logs,
    handleChatMessage l payload s = (Ret tt, s')
    /\ forallb is_console logs = true
    /\ st_trace s'
       = st_trace s
         ++ EvApi token (PatchChannels newTitle)
         :: match api_request (st_tick s) token (PatchChannels newTitle) with
            | inr _ =>
                EvApi token
                  (PostChat (botReply (js "Updated title to: " ++ newTitle)
                                      messageId))
                :: logs
            | inl _ =>
                EvConsole error report
                :: EvApi token
                     (PostChat (botReply (js "Failed to update title. Check logs.")
                                         messageId))
                :: logs
            end.
Proof.
  intros Hc Hcontent Hstart Htitle newTitle messageId.
  unfold handleChatMessage. rewrite Hcontent. cbv zeta.
  destruct (trim raw) as [| c0 r0] eqn:R; [discriminate |].
  destruct (bool_decide (toLowerCase (c0 :: r0) = js "!ping")) eqn:B.
  { apply bool_decide_eq_true in B. rewrite B in Hstart. discriminate. }
  rewrite Hstart. change (String.length "!title ") with 7%nat.
  fold newTitle. fold messageId.
  destruct newTitle as [| n t] eqn:T; [done |].
  set (s1 := set_tick (S (st_tick s))
               (set_trace (st_trace s ++ [EvApi token (PatchChannels (n :: t))]) s)).
  assert (E1 : with_streamer_client l
                 (fun token => updateChannelMetadata token (n :: t)) s
               = (match api_request (st_tick s) token (PatchChannels (n :: t)) with
                  | inr _ => Ret tt
                  | inl e => Throw e
                  end, s1)).
  { unfold with_streamer_client, updateChannelMetadata, api. run_monad.
    unfold obj in Hc. rewrite Hc. simpl.
    destruct (api_request _ _ _); reflexivity. }
  assert (Hc1 : forall t', client (obj (set_trace t' s1) l) = Some token)
    by (intros; exact Hc).
  unfold try_catch, bind at 1. rewrite E1.
  destruct (api_request (st_tick s) token (PatchChannels (n :: t))) as [e | v].
  - unfold bind.
    destruct (reportError_returns "updating title" e s1) as [msg ->].
    destruct (sendReply_spec l (js "Failed to update title. Check logs.")
                messageId
                (set_trace (st_trace s1 ++ [EvConsole error msg]) s1) token
                (Hc1 _))
      as (s' & logs & -> & _ & _ & Ht & Hl); [by vm_compute |].
    exists s', msg, logs. split; [done |]. split; [done |].
    rewrite Ht. simpl. by rewrite <- !app_assoc.
  - unfold bind at 1. unfold bind at 1.
    destruct (sendReply_spec l (js "Updated title to: " ++ n :: t)
                messageId s1 token Hc)
      as (s' & logs & -> & _ & _ & Ht & Hl).
    { change (js "Updated title to: " ++ n :: t)
        with (85%N :: (js "pdated title to: " ++ n :: t)).
      apply trim_head. reflexivity. }
    run_monad.
    eexists _, "", (logs ++ [EvConsole log "Updated title for broadcaster"]).
    split; [reflexivity |].
    split; [by rewrite forallb_app, Hl |].
    simpl. rewrite Ht. simpl. by rewrite <- !app_assoc.
Qed.

(** ** Timers *)

(** X18. [scheduleStreamerRefresh] always arms one timeout and returns it.
    The delay that Node arms for it is [(expiresIn - 120)] seconds and
    never less than 30 seconds, as long as the lifetime is at most
    2147603 seconds: it is 30 seconds for every lifetime up to 150 seconds.
    A longer lifetime gives a delay above [TIMEOUT_MAX], and a streamer
    object without [expiresIn] the delay NaN: Node arms both as 1 ms. *)
Theorem scheduleStreamerRefresh_delay l s :
  exists s' delay,
    scheduleStreamerRefresh l s = (Ret (st_nextTimer s), s')
    /\ st_timers s' = st_timers s ++ [(st_nextTimer s, RefreshTimeout l delay)]
    /\ st_nextTimer s' = S (st_nextTimer s)
    /\ st_trace s' = st_trace s ++ [EvSetTimeout (st_nextTimer s) l delay]
    /\ match expiresIn (obj s l) with
       | val e =>
           (e <= 150 -> armedDelay delay = 30000)
           /\ (150 <= e <= 2147603 -> armedDelay delay = (e - 120) * 1000)
           /\ (2147603 < e -> armedDelay delay = 1)
       | null => armedDelay delay = 30000
       | undefined => armedDelay delay = 1
       end.
Proof.
  unfold scheduleStreamerRefresh, setTimer, obj. run_monad.
  eexists _, _. repeat split.
  destruct (expiresIn _) as [| | e]; try reflexivity.
  unfold refreshInMs, armedDelay, TIMEOUT_MAX.
  repeat split; intros He;
    repeat (match goal with
            | |- context [(?a <=? ?b)%Z] => destruct (Z.leb_spec a b)
            end; simpl); lia.
Qed.

(** The callback of a refresh timeout arms at most one timer, a refresh
    timeout of the same streamer, and removes none. *)
Lemma refreshTask_timers l s :
  exists new,
    st_timers (refreshTask l s).2 = st_timers s ++ new
    /\ (new = [] \/ exists d, new = [(st_nextTimer s, RefreshTimeout l d)]).
Proof.
  unfold refreshTask, refreshStreamerTokens, refreshAccessToken,
    scheduleStreamerRefresh, setTimer, persistState, saveStore, writeFile, fs_op.
  destruct (refreshToken (default emptyObject (st_heap s !! l)))
    as [| c r] eqn:E.
  - run_monad. rewrite E. simpl. exists []. rewrite app_nil_r. auto.
  - run_monad. rewrite E. simpl.
    destruct (oauth_token _ _) as [e | response]; simpl.
    + exists []. rewrite app_nil_r. auto.
    + destruct (fs_write _); simpl; [eexists; split; [reflexivity | eauto] |].
      destruct (fs_write _); simpl; [destruct (fs_written _); simpl |];
        eexists; (split; [reflexivity | eauto]).
Qed.

Lemma mapGet_app {K V} `{EqDecision K} (k : K) (v : V) a b :
  mapGet k a = Some v -> mapGet k (a ++ b) = Some v.
Proof.
  induction a as [| [k' v'] a IH]; simpl; [done |].
  destruct (decide (k = k')); [done | exact IH].
Qed.

Lemma pendingRefreshes_app l a b :
  pendingRefreshes l (a ++ b) = (pendingRefreshes l a + pendingRefreshes l b)%nat.
Proof. unfold pendingRefreshes. by rewrite List.filter_app, length_app. Qed.

Lemma pendingRefreshes_fired l id d (t : list (nat * timer)) :
  mapGet id t = Some (RefreshTimeout l d) ->
  (S (pendingRefreshes l (List.filter (fun e => negb (e.1 =? id)%nat) t))
   <= pendingRefreshes l t)%nat.
Proof.
  unfold pendingRefreshes.
  induction t as [| [k v] t IH]; simpl; [done |].
  destruct (decide (id = k)) as [-> | Hk].
  - intros [= ->]. rewrite Nat.eqb_refl. simpl.
    unfold is_refresh_of at 2. simpl. rewrite bool_decide_eq_true_2 by done.
    simpl. apply le_n_S.
    clear IH. induction t as [| [k' v'] t IH]; simpl; [done |].
    destruct (negb (k' =? k)%nat); simpl;
      destruct (is_refresh_of l (k', v')); simpl; lia.
  - intros H. specialize (IH H).
    destruct (Nat.eqb_spec k id) as [-> | _]; [done |]. simpl.
    destruct (is_refresh_of l (k, v)); simpl; lia.
Qed.

Lemma pendingRefreshes_filter_le l id (t : list (nat * timer)) :
  (pendingRefreshes l (List.filter (fun e => negb (e.1 =? id)%nat) t)
   <= pendingRefreshes l t)%nat.
Proof.
  unfold pendingRefreshes.
  induction t as [| [k v] t IH]; simpl; [done |].
  destruct (negb (k =? id)%nat); simpl;
    destruct (is_refresh_of l (k, v)); simpl; lia.
Qed.

(** X19. No timer callback lets an exception escape into the event loop.
    Running one never adds or removes a tenant or an entry of the reverse
    index, never changes the key, and never cancels another timer. *)
Theorem fire_keeps_tenants id s :
  exists s',
    fire config id s = (Ret tt, s')
    /\ st_streamers s' = st_streamers s
    /\ st_subscriptions s' = st_subscriptions s
    /\ st_publicKey s' = st_publicKey s
    /\ (forall id2 t, id2 <> id -> mapGet id2 (st_timers s) = Some t ->
          mapGet id2 (st_timers s') = Some t).
Proof.
  destruct (fire_returns config id s) as [s' E].
  exists s'. split; [exact E |].
  destruct (keeps_fire config same_tenants id s _ s' E) as (A & B & C).
  repeat split; try done.
  intros id2 t Hne Ht. revert E. unfold fire, bind at 1, get_state.
  destruct (mapGet id (st_timers s)) as [[l d | l d] |] eqn:M.
  - unfold bind, modify. intros E.
    destruct (refreshTask_timers l
                (set_timers (List.filter (fun t => negb (t.1 =? id)%nat)
                                         (st_timers s)) (st_nextTimer s) s))
      as (new & Hnew & _).
    rewrite E in Hnew. simpl in Hnew. rewrite Hnew.
    apply mapGet_app. by rewrite mapGet_filter_ne.
  - intros E.
    destruct (keeps_keepAliveTask config same_process l s _ _ E)
      as (_ & _ & _ & _ & _ & -> & _). done.
  - intros [= <-]. done.
Qed.

(** X20. Firing a timer never increases the number of pending refresh
    timeouts of a streamer: a refresh timeout that fires is replaced by at
    most one. *)
Theorem fire_pendingRefreshes id s l :
  (pendingRefreshes l (st_timers (fire config id s).2)
   <= pendingRefreshes l (st_timers s))%nat.
Proof.
  unfold fire, bind at 1, get_state.
  destruct (mapGet id (st_timers s)) as [[l0 d | l0 d] |] eqn:M.
  - unfold bind, modify.
    set (s0 := set_timers _ _ s).
    destruct (refreshTask_timers l0 s0) as (new & Hnew & Hcases).
    rewrite Hnew, pendingRefreshes_app. subst s0. simpl.
    destruct Hcases as [-> | [d' ->]].
    + pose proof (pendingRefreshes_filter_le l id (st_timers s)).
      unfold pendingRefreshes at 2. simpl. lia.
    + unfold pendingRefreshes at 2. simpl. unfold is_refresh_of. simpl.
      destruct (decide (l0 = l)) as [-> | Hl].
      * rewrite bool_decide_eq_true_2 by done. simpl.
        pose proof (pendingRefreshes_fired l id d (st_timers s) M). lia.
      * rewrite bool_decide_eq_false_2 by done. simpl.
        pose proof (pendingRefreshes_filter_le l id (st_timers s)). lia.
  - destruct (keepAliveTask config l0 s) as [r s'] eqn:E.
    destruct (keeps_keepAliveTask config same_process l0 s _ _ E)
      as (_ & _ & _ & _ & _ & Ht & _). simpl. by rewrite Ht.
  - simpl. done.
Qed.

(** ** Start-up *)

Lemma initStreamers_try_wired l s s' :
  initStreamers_try config l s = (Ret tt, s') -> wired config s' l.
Proof.
  unfold initStreamers_try, refreshStreamerTokens, refreshAccessToken,
    scheduleStreamerRefresh, ensureSubscription, subscribe, scheduleKeepAlive,
    setTimer, api, wired, obj.
  destruct (refreshToken (default emptyObject (st_heap s !! l)))
    as [| c r] eqn:E.
  { run_monad. rewrite E. discriminate. }
  run_monad. rewrite E. simpl.
  destruct (oauth_token _ _) as [e | response]; simpl; [discriminate |].
  rewrite !lookup_insert_eq. simpl.
  destruct (api_request _ _ _) as [e | existing]; simpl; [discriminate |].
  destruct (match existing with
            | RSubscriptions entries => List.find is_chat_subscription entries
            | _ => None
            end) as [entry |]; simpl.
  - rewrite !lookup_insert_eq. simpl.
    destruct (truthyS (sub_id entry)); simpl; intros [= <-]; simpl;
      rewrite !lookup_insert_eq; simpl;
      (split; [apply mapGet_mapSet |]);
      (split; [rewrite ?mapGet_mapSet; try done; apply mapGet_mapSet |]);
      (split; [done |]);
      (split; [eexists _, _; split; [reflexivity |];
               rewrite !elem_of_app; left; right; apply list_elem_of_here
              | eexists; split; [reflexivity |];
                rewrite !elem_of_app; right; apply list_elem_of_here]).
  - destruct (api_request _ _ _) as [e | created]; simpl; [discriminate |].
    destruct created as [| | | [| first rest] | |]; simpl; try discriminate.
    destruct (truthyS (subscription_id first)) eqn:Ts; simpl; [| discriminate].
    rewrite !lookup_insert_eq. simpl. rewrite Ts. simpl.
    intros [= <-]; simpl.
    rewrite !lookup_insert_eq; simpl.
    (split; [apply mapGet_mapSet |]);
      (split; [apply mapGet_mapSet |]);
      (split; [done |]);
      (split; [eexists _, _; split; [reflexivity |];
               rewrite !elem_of_app; left; right; apply list_elem_of_here
              | eexists; split; [reflexivity |];
                rewrite !elem_of_app; right; apply list_elem_of_here]).
Qed.

(** X21. When the [try] block of [initStreamers] completes for an entry, the
    streamer is ready: the registry maps its broadcaster id to it and the
    reverse index its subscription id, it has a client that holds its
    access token, and its refresh timeout and its keep-alive interval are
    armed. *)
Theorem initStreamers_try_wires l s s' :
  initStreamers_try config l s = (Ret tt, s') -> wired config s' l.
Proof. apply initStreamers_try_wired. Qed.

(** X22. Start-up goes on after an entry whose refresh token the token
    endpoint rejects: the failure is logged, the entry is not registered,
    no timer is armed for it, and the loop continues with the next
    entry. *)
Theorem initStreamers_skips_rejected entry o rest s e :
  readEntry entry = Entry o ->
  oauth_token (st_tick s) (RefreshGrant (refreshToken o)) = inl e ->
  exists s1,
    initStreamers_for config (entry :: rest) s = initStreamers_for config rest s1
    /\ st_streamers s1 = st_streamers s
    /\ st_subscriptions s1 = st_subscriptions s
    /\ st_timers s1 = st_timers s
    /\ st_file s1 = st_file s
    /\ st_trace s1
       = st_trace s ++ [EvToken (RefreshGrant (refreshToken o));
                        EvConsole error "Failed to initialize streamer"].
Proof.
  intros Hentry Hfail.
  destruct (readEntry_Entry entry o Hentry) as (Htoken & _ & _).
  simpl. rewrite Hentry.
  unfold initStreamers_try, refreshStreamerTokens, refreshAccessToken, alloc.
  destruct (refreshToken o) as [| c r] eqn:E; [done |].
  run_monad. rewrite lookup_insert_eq. simpl. rewrite E. simpl.
  rewrite Hfail. simpl.
  eexists. split; [reflexivity |]. simpl. rewrite <- app_assoc. by repeat split.
Qed.

(** X23. An entry whose tokens are refreshed but whose subscriptions cannot
    be listed is not registered either; yet its refresh timeout has been
    armed before, and stays armed for a streamer object that neither the
    registry nor the reverse index knows. *)
Theorem initStreamers_orphan_timer entry o rest s response e :
  readEntry entry = Entry o ->
  oauth_token (st_tick s) (RefreshGrant (refreshToken o)) = inr response ->
  api_request (2 + st_tick s)
    (nullish_client (new_KickApiClient (access_token response)))
    (ListEventSubscriptions (broadcasterUserId o)) = inl e ->
  exists s1,
    initStreamers_for config (entry :: rest) s = initStreamers_for config rest s1
    /\ st_streamers s1 = st_streamers s
    /\ st_subscriptions s1 = st_subscriptions s
    /\ st_timers s1
       = st_timers s
         ++ [(st_nextTimer s, RefreshTimeout (st_next s) (delayAfter response))]
    /\ refreshTimer (obj s1 (st_next s)) = Some (st_nextTimer s).
Proof.
  intros Hentry Hok Hfail.
  destruct (readEntry_Entry entry o Hentry) as (Htoken & _ & _).
  simpl. rewrite Hentry.
  unfold initStreamers_try, refreshStreamerTokens, refreshAccessToken, alloc,
    scheduleStreamerRefresh, setTimer, ensureSubscription, api, delayAfter.
  destruct (refreshToken o) as [| c r] eqn:E; [done |].
  run_monad. rewrite !lookup_insert_eq. simpl. rewrite E. simpl.
  rewrite Hok. simpl. rewrite !lookup_insert_eq. simpl.
  simpl in Hfail. rewrite Hfail. simpl.
  eexists. split; [reflexivity |]. simpl. unfold obj. simpl.
  rewrite lookup_insert_eq. by repeat split.
Qed.



(** The [try] block of [initStreamers] writes to the object of its entry
    only, arms timers and cancels none, and registers the entry exactly
    when it completes. *)
Ltac grown :=
  first [ by eexists
        | exists []; by rewrite app_nil_r
        | rewrite <- app_assoc; by eexists ].

Lemma initStreamers_try_outcome l s r s' :
  initStreamers_try config l s = (r, s') ->
  st_next s' = st_next s
  /\ (forall l', l' <> l -> st_heap s' !! l' = st_heap s !! l')
  /\ (exists new, st_timers s' = st_timers s ++ new)
  /\ match r with
     | Ret _ => exists k, st_streamers s' = mapSet k l (st_streamers s)
     | Throw _ => st_streamers s' = st_streamers s
     end.
Proof.
  unfold initStreamers_try, refreshStreamerTokens, refreshAccessToken,
    scheduleStreamerRefresh, ensureSubscription, subscribe, scheduleKeepAlive,
    setTimer, api.
  destruct (refreshToken (default emptyObject (st_heap s !! l)))
    as [| c0 r0] eqn:E.
  { run_monad. rewrite E. intros [= <- <-]. repeat split; grown. }
  run_monad. rewrite E. simpl.
  destruct (oauth_token _ _) as [e | response]; simpl.
  { intros [= <- <-]. repeat split; grown. }
  rewrite !lookup_insert_eq. simpl.
  destruct (api_request _ _ _) as [e | existing]; simpl.
  { intros [= <- <-]. simpl. split; [done |].
    split; [intros; by rewrite !lookup_insert_ne by done |].
    split; [grown | done]. }
  destruct (match existing with
            | RSubscriptions entries => List.find is_chat_subscription entries
            | _ => None
            end) as [entry |]; simpl.
  - rewrite !lookup_insert_eq. simpl.
    destruct (truthyS (sub_id entry)); simpl; intros [= <- <-]; simpl;
      (split; [done |]);
      (split; [intros; by rewrite !lookup_insert_ne by done |]);
      (split; [grown | by eexists]).
  - destruct (api_request _ _ _) as [e | created]; simpl.
    { intros [= <- <-]. simpl. split; [done |].
      split; [intros; by rewrite !lookup_insert_ne by done |].
      split; [grown | done]. }
    destruct created as [| | | [| first rest] | |]; simpl;
      try (intros [= <- <-]; simpl; split; [done |];
           split; [intros; by rewrite !lookup_insert_ne by done |];
           split; [grown | done]).
    destruct (truthyS (subscription_id first)) eqn:Ts; simpl.
    + rewrite !lookup_insert_eq. simpl. rewrite Ts. simpl.
      intros [= <- <-]; simpl.
      (split; [done |]);
      (split; [intros; by rewrite !lookup_insert_ne by done |]);
      (split; [grown | by eexists]).
    + intros [= <- <-]; simpl. split; [done |].
      split; [intros; by rewrite !lookup_insert_ne by done |].
      split; [grown | done].
Qed.

Lemma wired_ready s l : wired config s l -> ready config s l.
Proof.
  intros (_ & _ & Hc & Hr & Hk). split; [| done].
  rewrite Hc. unfold new_KickApiClient. done.
Qed.

Lemma ready_frame s s' l :
  st_heap s' !! l = st_heap s !! l ->
  (exists new, st_timers s' = st_timers s ++ new) ->
  ready config s l -> ready config s' l.
Proof.
  intros Hh [new Ht] (Hc & (id & d & Hr & Hr') & (id' & Hk & Hk')).
  unfold ready, obj in *. rewrite Hh, Ht.
  split; [done |]. split.
  - exists id, d. split; [done |]. apply elem_of_app. by left.
  - exists id'. split; [done |]. apply elem_of_app. by left.
Qed.

Lemma initStreamers_for_ready entries : forall s r s',
  registry_ready config s ->
  initStreamers_for config entries s = (r, s') ->
  registry_ready config s'.
Proof.
  induction entries as [| entry rest IH]; intros s r s' Hinv; simpl.
  - by intros [= <- <-].
  - destruct (readEntry entry) as [| | o |].
    + by intros [= <- <-].
    + unfold bind at 1. run_monad. apply IH.
      intros k l Hl. destruct (Hinv k l Hl) as [Hlt Hr].
      split; [done |]. eapply ready_frame; [| | exact Hr]; [done | exists []; by rewrite app_nil_r].
    + unfold bind at 1, alloc.
      set (l := st_next s).
      set (sa := set_next (S l) (set_heap (<[l := o]> (st_heap s)) s)).
      unfold bind at 1, try_catch.
      destruct (initStreamers_try config l sa) as [[[] | e] sb] eqn:T.
      * destruct (initStreamers_try_outcome l sa _ sb T)
          as (Hn & Hh & Ht & [k Hreg]).
        apply IH. intros k' l' Hl'. rewrite Hreg in Hl'.
        apply elem_of_mapSet in Hl' as [[= -> ->] | Hl'].
        -- split; [rewrite Hn; simpl; lia |].
           apply wired_ready. by eapply initStreamers_try_wired.
        -- destruct (Hinv k' l' Hl') as [Hlt Hr].
           split; [rewrite Hn; simpl; lia |].
           eapply ready_frame; [| exact Ht |].
           ++ rewrite Hh by (subst l; lia). simpl.
              rewrite lookup_insert_ne by (subst l; lia). reflexivity.
           ++ eapply ready_frame; [| | exact Hr]; [| exists []; by rewrite app_nil_r].
              simpl. rewrite lookup_insert_ne by (subst l; lia). reflexivity.
      * destruct (initStreamers_try_outcome l sa _ sb T)
          as (Hn & Hh & Ht & Hreg).
        run_monad. apply IH. intros k' l' Hl'. simpl in Hl'.
        rewrite Hreg in Hl'. simpl in Hl'.
        destruct (Hinv k' l' Hl') as [Hlt Hr].
        split; [simpl; rewrite Hn; simpl; lia |].
        eapply ready_frame; [| | exact Hr].
        -- simpl. rewrite Hh by (subst l; lia). simpl.
           rewrite lookup_insert_ne by (subst l; lia). reflexivity.
        -- simpl. destruct Ht as [new ->]. by exists new.
    + by intros [= <- <-].
Qed.

Lemma persistState_objects s r s' :
  persistState s = (r, s') ->
  st_heap s' = st_heap s /\ st_next s' = st_next s
  /\ st_streamers s' = st_streamers s /\ st_timers s' = st_timers s.
Proof.
  unfold persistState, saveStore, writeFile, fs_op. run_monad.
  destruct (fs_write _); simpl; [by intros [= <- <-] |].
  destruct (fs_write _); simpl; [destruct (fs_written _); simpl |];
    by intros [= <- <-].
Qed.

(** X25. Start-up registers ready streamers only: if every streamer of the
    registry is ready before [initStreamers], as in a process that has just
    started and has none, then every streamer of the registry is ready
    after it, whatever the platform answers and whatever the entries of a
    typed store are: it has a client, and its refresh timeout and its
    keep-alive interval are armed. *)
Theorem initStreamers_ready s r s' :
  typedStore s ->
  registry_ready config s ->
  initStreamers config s = (r, s') ->
  registry_ready config s'.
Proof.
  intros _ Hinv. unfold initStreamers. unfold bind at 1.
  destruct (loadStore s) as [[store | e] s0] eqn:L.
  - destruct (keeps_loadStore same_process s _ s0 L)
      as (Hh & Hn & Hs & _ & _ & Ht & _).
    assert (Hinv0 : registry_ready config s0).
    { intros k l Hl. rewrite Hs in Hl. destruct (Hinv k l Hl) as [Hlt Hr].
      split; [by rewrite Hn |].
      eapply ready_frame; [| | exact Hr]; [by rewrite Hh |].
      exists []. by rewrite app_nil_r. }
    destruct (field (Some store) "streamers") as [[| | | | [| e es] |] |];
      try (by intros [= <- <-]).
    unfold bind at 1.
    destruct (initStreamers_for config (e :: es) s0) as [[[] | e'] s1] eqn:F.
    + pose proof (initStreamers_for_ready _ _ _ _ Hinv0 F) as Hinv1.
        intros E. apply persistState_objects in E as (Hh1 & Hn1 & Hs1 & Ht1).
        intros k l Hl. rewrite Hs1 in Hl.
        destruct (Hinv1 k l Hl) as [Hlt Hr]. split; [by rewrite Hn1 |].
        eapply ready_frame; [| | exact Hr]; [by rewrite Hh1 |].
        exists []. by rewrite app_nil_r.
    + intros [= <- <-]. by eapply initStreamers_for_ready.
  - intros [= <- <-].
    destruct (keeps_loadStore same_process s _ s0 L)
      as (Hh & Hn & Hs & _ & _ & Ht & _).
    intros k l Hl. rewrite Hs in Hl. destruct (Hinv k l Hl) as [Hlt Hr].
    split; [by rewrite Hn |].
    eapply ready_frame; [| | exact Hr]; [by rewrite Hh |].
    exists []. by rewrite app_nil_r.
Qed.

Lemma keeps_initStreamers_for R
  `{!Frame R, !IgnoresHeap R, !IgnoresTimers R, !IgnoresFile R,
    !IgnoresStreamers R, !IgnoresSubscriptions R} entries :
  keeps R (initStreamers_for config entries).
Proof.
  induction entries as [| entry rest IH]; simpl.
  - by apply keeps_ret.
  - destruct (readEntry entry).
    + by apply keeps_throw.
    + apply keeps_bind; [done | by apply keeps_console | done].
    + apply keeps_bind; [done | by apply keeps_alloc |]. intros l.
      apply keeps_bind; [done | | done].
      apply keeps_try_catch; [done | | intros; by apply keeps_console].
      unfold initStreamers_try.
      repeat first [apply keeps_ensureSubscription | keeps_step].
    + by apply keeps_throw.
Qed.

Lemma keeps_initStreamers R
  `{!Frame R, !IgnoresHeap R, !IgnoresTimers R, !IgnoresFile R,
    !IgnoresStreamers R, !IgnoresSubscriptions R} :
  keeps R (initStreamers config).
Proof.
  unfold initStreamers.
  apply keeps_bind; [done | by apply keeps_loadStore |]. intros store.
  destruct (field (Some store) "streamers") as [[| | | | [| e es] |] |];
    try (by apply keeps_throw); [by apply keeps_console |].
  apply keeps_bind; [done | by apply keeps_initStreamers_for |].
  intros. by apply keeps_persistState.
Qed.

(** X26. [main] starts the server only with the key loaded: when it returns,
    the key is truthy.  When the key cannot be loaded, [main] throws before
    it reads the store: no token is refreshed, no tenant is registered, no
    timer is armed and no file is written. *)
Theorem main_needs_key s :
  exists r s',
    main config s = (r, s')
    /\ (r = Ret tt -> truthyS (st_publicKey s') = true)
    /\ (truthyS (st_publicKey s') = false ->
        r <> Ret tt
        /\ st_heap s' = st_heap s /\ st_streamers s' = st_streamers s
        /\ st_subscriptions s' = st_subscriptions s
        /\ st_timers s' = st_timers s /\ st_file s' = st_file s).
Proof.
  unfold main. unfold bind at 1.
  destruct (loadKickPublicKey s) as [[[] | e] s1] eqn:L.
  - pose proof (loadKickPublicKey_loads s s1 L) as Hk.
    destruct (bind (initStreamers config) (fun _ => startWebhookServer) s1)
      as [r s'] eqn:E.
    assert (K : keeps same_key
                  (bind (initStreamers config) (fun _ => startWebhookServer))).
    { apply keeps_bind; [tc_solve | apply keeps_initStreamers; tc_solve |].
      intros. unfold startWebhookServer. keeps_all. }
    pose proof (K s1 r s' E) as Hs.
    exists r, s'. split; [done |]. unfold same_key in Hs. rewrite Hs, Hk.
    split; [done | discriminate].
  - exists (Throw e), s1. split; [done |]. split; [discriminate |].
    intros _. split; [discriminate |].
    revert L. unfold loadKickPublicKey, api. run_monad.
    destruct (truthyS (st_publicKey s)); [discriminate |].
    destruct (api_request _ _ _) as [e' | [| | | | k |]]; simpl;
      try (intros [= <- <-]; by repeat split).
    destruct (truthyS k); simpl; [discriminate |].
    intros [= <- <-]. by repeat split.
Qed.

(** ** The server *)

Lemma handleEventWebhook_returns req s :
  exists answer s', handleEventWebhook config req s = (Ret answer, s').
Proof.
  unfold handleEventWebhook, try_catch.
  match goal with |- context [match ?m s with _ => _ end] =>
    destruct (m s) as [[a | e] s1] end; [eauto |].
  run_monad. eauto.
Qed.

(** X27. The request listener answers every request and never throws.  A
    request that is not a POST to one of the two paths is answered 404 and
    changes nothing; no request at all changes the reverse index, the
    timers or the key; and a request to the onboarding path is never
    answered 200, so that a webhook path equal to the onboarding path is
    never served. *)
Theorem listener_answers method url req s :
  exists status body s',
    listener config routes method url req s = (Ret (status, body), s')
    /\ same_wiring s s'
    /\ (method <> js "POST"
        \/ (url <> addStreamerEndpoint routes /\ url <> webhookPath routes) ->
        status = 404 /\ body = [] /\ s' = s)
    /\ (url = addStreamerEndpoint routes -> status <> 200).
Proof.
  unfold listener.
  destruct (bool_decide (method = js "POST")) eqn:M; simpl.
  - apply bool_decide_eq_true in M.
    destruct (bool_decide (url = addStreamerEndpoint routes)) eqn:A.
    + apply bool_decide_eq_true in A.
      destruct (handleAddStreamer_never_ok config req s)
        as (status & body & s' & E & Hs).
      exists status, body, s'. split; [done |].
      split; [exact (keeps_handleAddStreamer config same_wiring req s _ s' E) |].
      split; [| done]. intros [H | [H _]]; done.
    + apply bool_decide_eq_false in A.
      destruct (bool_decide (url = webhookPath routes)) eqn:W.
      * apply bool_decide_eq_true in W.
        destruct (handleEventWebhook_returns req s) as ([status body] & s' & E).
        exists status, body, s'. split; [done |].
        destruct (keeps_handleEventWebhook config same_process req s _ s' E)
          as (_ & _ & _ & H1 & H2 & H3 & H4 & _).
        split; [by repeat split |].
        split; [| done]. intros [H | [_ H]]; done.
      * exists 404, [], s. by repeat split.
  - exists 404, [], s. by repeat split.
Qed.

End Behaviour.

(** ** Restart *)

(** X4. What start-up finds in a store that [persistState] wrote, on a
    platform whose JSON is [Json]: [loadStore] reads the text back into one
    entry for each streamer object that was registered, in the order of the
    registry, and [initStreamers] takes each entry for a streamer object
    with the same broadcaster id, slug, refresh token and subscription id
    and no runtime field, or skips it when its refresh token is empty.  No
    entry has a field of another type: the store is one that the typed
    streamer objects hold. *)
Theorem persisted_store_restart oauth rest disk s s1 s2 :
  let P := Demo.platform oauth rest disk in
  (forall k l, (k, l) ∈ st_streamers s -> representable (obj s l)) ->
  @persistState P s = (Ret tt, s1) ->
  st_file s2 = st_file s1 ->
  exists store entries,
    @loadStore P s2 = (Ret store, s2)
    /\ field (Some store) "streamers" = Some (JArr entries)
    /\ List.map readEntry entries
       = List.map (fun e => restarted (obj s e.2)) (st_streamers s)
    /\ @typedStore P s2.
Proof.
  intros P Hall Hrun Hfile.
  assert (Hs1 : st_file s1 = Some (Json.stringify (payload s))).
  { revert Hrun. unfold persistState, saveStore, writeFile, fs_op.
    unfold bind, ret, throw, get_state, modify, emit, console, next_tick.
    simpl. destruct (disk (st_tick s)); simpl; [discriminate |].
    destruct (disk (S (st_tick s))); simpl; [discriminate |].
    by intros [= <-]. }
  rewrite Hs1 in Hfile.
  assert (Hload : @loadStore P s2 = (Ret (payload s), s2)).
  { apply (@loadStore_reads P s2 _ s Hfile).
    apply JsonFacts.parse_stringify, printable_payload, Hall. }
  assert (Hentries : List.map readEntry
                       (List.map (fun e => persisted (obj s e.2)) (st_streamers s))
                     = List.map (fun e => restarted (obj s e.2)) (st_streamers s)).
  { rewrite List.map_map. apply List.map_ext. intros e.
    apply readEntry_persisted. }
  eexists _, _. split; [exact Hload |]. split; [reflexivity |].
  split; [exact Hentries |].
  intros store entries Hstore Hf. rewrite Hload in Hstore.
  injection Hstore as <-. injection Hf as <-.
  apply List.Forall_forall. intros entry Hin.
  apply in_map_iff in Hin as (e & <- & _).
  rewrite readEntry_persisted. unfold restarted.
  by destruct (refreshToken _).
Qed.

(** ** PKCE *)

Module PkceFacts.
Import Pkce.

Lemma list_ind3 {A} (Q : list A -> Prop) :
  Q [] -> (forall a, Q [a]) -> (forall a b, Q [a; b]) ->
  (forall a b c r, Q r -> Q (a :: b :: c :: r)) ->
  forall l, Q l.
Proof.
  intros H0 H1 H2 H3 l.
  cut (Q l /\ (forall a, Q (a :: l)) /\ (forall a b, Q (a :: b :: l)));
    [tauto |].
  induction l as [| x l (IH0 & IH1 & IH2)]; [auto |].
  split; [apply IH1 |]. split; [intros; apply IH2 |]. intros a b. by apply H3.
Qed.

Lemma digit_ok_all : Utf8Check.all_below 6 0 digit_ok = true.
Proof. vm_compute. reflexivity. Qed.

Lemma digit_facts v :
  (v < 64)%N ->
  urlSafe (urlDigit v) = true
  /\ Base64.sextet (urlDigit v) = Some v
  /\ urlDigit v <> 61%N
  /\ replaceAll 47 95 (replaceAll 43 45 [digit v]) = [urlDigit v].
Proof.
  intros Hv.
  assert (H : digit_ok v = true).
  { apply (Utf8Facts.all_below_spec _ _ 0%N v digit_ok_all).
    change (2 ^ N.of_nat 6)%N with 64%N. lia. }
  unfold digit_ok in H. apply andb_true_iff in H as [H H3].
  apply andb_true_iff in H as [H1 H2].
  split; [done |].
  destruct (Base64.sextet (urlDigit v)) as [v' |] eqn:S; [| done].
  apply N.eqb_eq in H2 as ->. split; [done |].
  split.
  - intros E. rewrite E in H1. discriminate.
  - apply N.eqb_eq in H3. rewrite H3. unfold replaceAll. simpl.
    destruct (digit v =? 43)%N eqn:E1.
    + apply N.eqb_eq in E1. rewrite E1. reflexivity.
    + destruct (digit v =? 47)%N eqn:E2; reflexivity.
Qed.

Lemma sextetsOf_lt bytes :
  Forall (fun b => b < 256)%N bytes -> Forall (fun v => v < 64)%N (sextetsOf bytes).
Proof.
  induction bytes as [| a | a b | a b c r IH] using list_ind3; simpl.
  - constructor.
  - intros H. apply Forall_cons in H as [Ha _].
    repeat constructor.
    + apply N.Div0.div_lt_upper_bound. lia.
    + pose proof (N.mod_upper_bound a 4). lia.
  - intros H. apply Forall_cons in H as [Ha H]. apply Forall_cons in H as [Hb _].
    repeat constructor.
    + apply N.Div0.div_lt_upper_bound. lia.
    + pose proof (N.mod_upper_bound a 4).
      assert (b / 16 < 16)%N by (apply N.Div0.div_lt_upper_bound; lia). lia.
    + pose proof (N.mod_upper_bound b 16). lia.
  - intros H. apply Forall_cons in H as [Ha H]. apply Forall_cons in H as [Hb H].
    apply Forall_cons in H as [Hc H].
    repeat (apply Forall_cons; split); [| | | | by apply IH].
    + apply N.Div0.div_lt_upper_bound. lia.
    + pose proof (N.mod_upper_bound a 4).
      assert (b / 16 < 16)%N by (apply N.Div0.div_lt_upper_bound; lia). lia.
    + pose proof (N.mod_upper_bound b 16).
      assert (c / 64 < 4)%N by (apply N.Div0.div_lt_upper_bound; lia). lia.
    + apply N.mod_upper_bound. lia.
Qed.

Lemma base64_sextets bytes :
  base64 bytes = List.map digit (sextetsOf bytes) ++ padding bytes.
Proof.
  induction bytes as [| a | a b | a b c r IH] using list_ind3; simpl;
    try reflexivity.
  by rewrite IH.
Qed.

Lemma replaceAll_app c d a b :
  replaceAll c d (a ++ b) = replaceAll c d a ++ replaceAll c d b.
Proof. unfold replaceAll. apply List.map_app. Qed.

Lemma replaceAll_padding bytes :
  replaceAll 47 95 (replaceAll 43 45 (padding bytes)) = padding bytes.
Proof.
  induction bytes as [| a | a b | a b c r IH] using list_ind3; simpl;
    try reflexivity.
  exact IH.
Qed.

Lemma replaceAll_sextets ds :
  Forall (fun v => v < 64)%N ds ->
  replaceAll 47 95 (replaceAll 43 45 (List.map digit ds))
  = List.map urlDigit ds.
Proof.
  induction 1 as [| v ds Hv _ IH]; [reflexivity |].
  destruct (digit_facts v Hv) as (_ & _ & _ & H).
  simpl. injection H as ->. f_equal. exact IH.
Qed.

Lemma dropPadding_padding bytes rest :
  dropPadding (rev (padding bytes) ++ rest) = dropPadding rest.
Proof.
  induction bytes as [| a | a b | a b c r IH] using list_ind3; simpl;
    try reflexivity.
  exact IH.
Qed.

Lemma stripPadding_sextets ds bytes :
  Forall (fun v => v < 64)%N ds ->
  stripPadding (List.map urlDigit ds ++ padding bytes) = List.map urlDigit ds.
Proof.
  intros Hds. unfold stripPadding.
  rewrite rev_app_distr, dropPadding_padding.
  assert (H : dropPadding (rev (List.map urlDigit ds))
              = rev (List.map urlDigit ds)).
  { destruct (rev (List.map urlDigit ds)) as [| c r] eqn:E; [reflexivity |].
    assert (Hc : In c (List.map urlDigit ds)).
    { apply in_rev. rewrite E. by left. }
    apply in_map_iff in Hc as (v & <- & Hv).
    rewrite List.Forall_forall in Hds.
    destruct (digit_facts v (Hds v Hv)) as (_ & _ & Hne & _).
    simpl. apply N.eqb_neq in Hne. by rewrite Hne. }
  rewrite H. apply rev_involutive.
Qed.

Lemma to_N_lt buffer :
  Forall (fun b => b < 256)%N (List.map Byte.to_N buffer).
Proof.
  apply List.Forall_forall. intros n Hn.
  apply in_map_iff in Hn as (b & <- & _).
  pose proof (Byte.to_N_bounded b). lia.
Qed.

(** The encoding is the list of the base64url digits of the sextets. *)
Lemma base64UrlEncode_sextets buffer :
  base64UrlEncode buffer
  = List.map urlDigit (sextetsOf (List.map Byte.to_N buffer)).
Proof.
  unfold base64UrlEncode, Buffer_toString_base64.
  pose proof (sextetsOf_lt _ (to_N_lt buffer)) as Hd.
  rewrite base64_sextets, !replaceAll_app, replaceAll_padding,
    replaceAll_sextets by done.
  by apply stripPadding_sextets.
Qed.

Lemma length_sextets bytes :
  length (sextetsOf bytes) = ((4 * length bytes + 2) / 3)%nat.
Proof.
  induction bytes as [| a | a b | a b c r IH] using list_ind3; simpl length;
    try reflexivity.
  rewrite IH.
  replace (4 * S (S (S (length r))) + 2)%nat
    with (4 * length r + 2 + 4 * 3)%nat by lia.
  rewrite Nat.div_add by done. lia.
Qed.

Lemma decode_sextets ds :
  Forall (fun v => v < 64)%N ds ->
  Base64.sextets (List.map urlDigit ds) = ds.
Proof.
  induction 1 as [| v ds Hv _ IH]; [reflexivity |].
  destruct (digit_facts v Hv) as (_ & Hs & Hne & _).
  simpl. apply N.eqb_neq in Hne. rewrite Hne, Hs. by rewrite IH.
Qed.

Ltac Zify.zify_post_hook ::= Z.to_euclidean_division_equations.

Lemma octets_sextets bytes :
  Forall (fun b => b < 256)%N bytes -> Base64.octets (sextetsOf bytes) = bytes.
Proof.
  induction bytes as [| a | a b | a b c r IH] using list_ind3; simpl.
  - reflexivity.
  - intros H. apply Forall_cons in H as [Ha _]. f_equal. lia.
  - intros H. apply Forall_cons in H as [Ha H]. apply Forall_cons in H as [Hb _].
    f_equal; [lia |]. f_equal. lia.
  - intros H. apply Forall_cons in H as [Ha H]. apply Forall_cons in H as [Hb H].
    apply Forall_cons in H as [Hc H].
    rewrite (IH H). f_equal; [lia |]. f_equal; [lia |]. f_equal. lia.
Qed.

Ltac Zify.zify_post_hook ::= idtac.

Lemma byte_of_to_N buffer :
  List.map Utf8.byte_of_N (List.map Byte.to_N buffer) = buffer.
Proof.
  induction buffer as [| b r IH]; [reflexivity |].
  simpl. rewrite IH. unfold Utf8.byte_of_N. by rewrite Byte.of_to_N.
Qed.

Lemma encode_shape buffer :
  length (base64UrlEncode buffer) = ((4 * length buffer + 2) / 3)%nat
  /\ forallb urlSafe (base64UrlEncode buffer) = true.
Proof.
  rewrite base64UrlEncode_sextets.
  rewrite length_map, length_sextets, length_map.
  split; [reflexivity |].
  apply forallb_forall. intros c Hc.
  apply in_map_iff in Hc as (v & <- & Hv).
  pose proof (sextetsOf_lt _ (to_N_lt buffer)) as Hd.
  rewrite List.Forall_forall in Hd.
  by destruct (digit_facts v (Hd v Hv)) as (? & _).
Qed.

End PkceFacts.

(** X28. [base64UrlEncode] writes a buffer of [n] bytes as the
    [ceil (4 n / 3)] characters of its base64 digits, without padding, all
    of them letters, digits, [-] or [_]. *)
Theorem base64UrlEncode_shape buffer :
  length (Pkce.base64UrlEncode buffer) = ((4 * length buffer + 2) / 3)%nat
  /\ forallb Pkce.urlSafe (Pkce.base64UrlEncode buffer) = true.
Proof. apply PkceFacts.encode_shape. Qed.

(** X29. Nothing is lost: decoding what [base64UrlEncode] wrote, as
    [Buffer.from(s, 'base64')] does, gives the buffer back; two buffers
    with the same encoding are the same. *)
Theorem base64UrlEncode_decode buffer :
  Base64.decode (Pkce.base64UrlEncode buffer) = buffer
  /\ (forall other, Pkce.base64UrlEncode other = Pkce.base64UrlEncode buffer ->
                    other = buffer).
Proof.
  assert (H : forall b, Base64.decode (Pkce.base64UrlEncode b) = b).
  { intros b. unfold Base64.decode.
    rewrite PkceFacts.base64UrlEncode_sextets.
    rewrite PkceFacts.decode_sextets
      by apply PkceFacts.sextetsOf_lt, PkceFacts.to_N_lt.
    rewrite PkceFacts.octets_sextets by apply PkceFacts.to_N_lt.
    apply PkceFacts.byte_of_to_N. }
  split; [apply H |].
  intros other E. rewrite <- (H other), E. apply H.
Qed.

(** X30. [createPkcePair]: for the 64 random bytes of the default length and
    a digest of 32 bytes, the verifier has 86 characters and the challenge
    43, all of them unreserved characters, as RFC 7636 asks (43 to 128
    characters); the challenge is the encoded digest of the verifier. *)
Theorem createPkcePair_lengths sha256 random :
  length random = 64%nat ->
  (forall verifier, length (sha256 verifier) = 32%nat) ->
  let (verifier, challenge) := Pkce.createPkcePair sha256 random in
  length verifier = 86%nat /\ forallb Pkce.urlSafe verifier = true
  /\ length challenge = 43%nat /\ forallb Pkce.urlSafe challenge = true
  /\ challenge = Pkce.base64UrlEncode (sha256 verifier).
Proof.
  intros Hr Hs. unfold Pkce.createPkcePair, Pkce.generatePkceVerifier,
    Pkce.generatePkceChallenge.
  destruct (PkceFacts.encode_shape random) as [L1 A1].
  destruct (PkceFacts.encode_shape (sha256 (Pkce.base64UrlEncode random)))
    as [L2 A2].
  rewrite Hr in L1. rewrite Hs in L2. by repeat split.
Qed.

(** * Further examples *)

Lemma upsertStreamer_write_fails_witness :
  mapGet 44 (st_streamers Cases.arrival) = None
  /\ st_file Cases.arrival
     = Some (Json.stringify (payload Examples.two_tenants))
  /\ exists s',
       @upsertStreamer Cases.disk_fills 2%nat Cases.arrival
       = (Throw (FsError "ENOSPC"), s')
       /\ mapGet 44 (st_streamers s') = Some 2%nat
       /\ st_file s' = Some [].
Proof.
  split; [reflexivity |]. split; [reflexivity |].
  apply (@upsertStreamer_write_fails Cases.disk_fills 2%nat Cases.arrival).
  right. split; reflexivity.
Defined.

Lemma persisted_store_restart_witness :
  exists store entries,
    @loadStore Demo.online Cases.restart = (Ret store, Cases.restart)
    /\ field (Some store) "streamers" = Some (JArr entries)
    /\ List.map readEntry entries
       = [Entry (stored (obj Examples.two_tenants 0%nat));
          Entry (stored (obj Examples.two_tenants 1%nat))]
    /\ @typedStore Demo.online Cases.restart.
Proof.
  apply (persisted_store_restart
           (fun _ _ => inr {| access_token := val (js "AT2");
                              refresh_token := val (js "RT2");
                              expires_in := val 3600%Z |})
           (fun _ _ _ => inr RNull) (fun _ => None)
           Examples.two_tenants
           (@persistState Demo.online Examples.two_tenants).2
           Cases.restart).
  - intros k l Hin.
    repeat (apply elem_of_cons in Hin as [[= -> ->] | Hin];
            [repeat split; try reflexivity; vm_compute; discriminate |]).
    by apply elem_of_nil in Hin.
  - vm_compute. reflexivity.
  - vm_compute. reflexivity.
Defined.

Lemma ensureSubscription_reuses_witness :
  exists s',
    @ensureSubscription Cases.subscribed 0%nat Examples.two_tenants
    = (Ret tt, s')
    /\ st_trace s' = [EvApi (val (js "AT-1")) (ListEventSubscriptions 42)]
    /\ subscriptionId (obj s' 0%nat) = val (js "sub-chat")
    /\ st_subscriptions s'
       = mapSet (val (js "sub-chat")) 0%nat
                (st_subscriptions Examples.two_tenants)
    /\ mapGet (val (js "sub-chat")) (st_subscriptions s') = Some 0%nat
    /\ st_streamers s' = st_streamers Examples.two_tenants
    /\ st_timers s' = st_timers Examples.two_tenants
    /\ st_file s' = st_file Examples.two_tenants.
Proof.
  apply (@ensureSubscription_reuses Cases.subscribed 0%nat Examples.two_tenants
           (val (js "AT-1"))
           (RSubscriptions
              [{| sub_id := val (js "sub-follow");
                  sub_event := val (js "channel.followed");
                  sub_version := val 1%Z |};
               {| sub_id := val (js "sub-chat");
                  sub_event := val (js "chat.message.sent");
                  sub_version := val 1%Z |}])
           {| sub_id := val (js "sub-chat");
              sub_event := val (js "chat.message.sent");
              sub_version := val 1%Z |}); reflexivity.
Defined.

Lemma ensureSubscription_creates_witness :
  exists r s',
    @ensureSubscription Scenario.platform 0%nat Examples.two_tenants = (r, s')
    /\ st_trace s'
       = [EvApi (val (js "AT-1")) (ListEventSubscriptions 42);
          EvApi (val (js "AT-1")) (CreateEventSubscriptions 42)]
    /\ r = Ret tt
    /\ subscriptionId (obj s' 0%nat) = val (js "sub-1")
    /\ mapGet (val (js "sub-1")) (st_subscriptions s') = Some 0%nat.
Proof.
  apply (@ensureSubscription_creates Scenario.platform 0%nat Examples.two_tenants
           (val (js "AT-1")) (RSubscriptions [])
           (RCreated [{| subscription_id := val (js "sub-1") |}]));
    reflexivity.
Defined.

Lemma verifyWebhook_valid_delivery_witness :
  @verifyWebhook Demo.offline Demo.config
    (req_headers (Examples.delivery "sub-9" "bS50Lnt9" (Utf8.encode (js "{}"))))
    (Utf8.encode (js "{}")) Examples.ready
  = (Ret true, Examples.ready).
Proof.
  apply (@verifyWebhook_valid_delivery Demo.offline Demo.config _ _ _
           Demo.pem (js "m") (js "t") (js "bS50Lnt9"));
    try reflexivity; try discriminate.
  right. reflexivity.
Defined.

Lemma handleEventWebhook_rejects_witness :
  exists logs,
    @handleEventWebhook Demo.online Demo.config
      (Examples.delivery "sub-1" "AAAA"
         (Utf8.encode (Json.stringify (Examples.event_of "!ping"))))
      Examples.two_tenants
    = (Ret (401, js "invalid signature"),
       set_trace (st_trace Examples.two_tenants ++ logs) Examples.two_tenants)
    /\ forallb is_console logs = true.
Proof.
  apply (@handleEventWebhook_rejects Demo.online Demo.config
           (Examples.delivery "sub-1" "AAAA"
              (Utf8.encode (Json.stringify (Examples.event_of "!ping"))))
           (Utf8.encode (Json.stringify (Examples.event_of "!ping")))).
  - reflexivity.
  - vm_compute. reflexivity.
Defined.

Lemma handleAddStreamer_wrong_secret_witness :
  @handleAddStreamer Scenario.platform Demo.config
    (Cases.onboarding "guess" Scenario.body) Examples.ready
  = (Ret (401, js "invalid secret"), Examples.ready).
Proof.
  apply (@handleAddStreamer_wrong_secret Scenario.platform Demo.config
           (Cases.onboarding "guess" Scenario.body)
           (Utf8.encode (Json.stringify Scenario.body)) Scenario.body).
  - reflexivity.
  - vm_compute. reflexivity.
  - vm_compute. discriminate.
  - vm_compute. discriminate.
Defined.

Lemma handleAddStreamer_missing_code_witness :
  @handleAddStreamer Scenario.platform Demo.config
    (Cases.onboarding "s3cret" (JObj [("code", JStr (js "abc"))]))
    Examples.ready
  = (Ret (400, js "code and code_verifier required"), Examples.ready).
Proof.
  apply (@handleAddStreamer_missing_code Scenario.platform Demo.config
           (Cases.onboarding "s3cret" (JObj [("code", JStr (js "abc"))]))
           (Utf8.encode (Json.stringify (JObj [("code", JStr (js "abc"))])))
           (JObj [("code", JStr (js "abc"))])).
  - reflexivity.
  - vm_compute. reflexivity.
  - right. reflexivity.
  - right. reflexivity.
Defined.

Lemma handleAddStreamer_registers_witness :
  exists s',
    @handleAddStreamer Scenario.platform Demo.config Scenario.request
      Examples.two_tenants
    = (Ret (500, js "error"), s')
    /\ st_streamers s' = [(42, 2%nat); (43, 1%nat)]
    /\ obj s' 2%nat = newTenant 42 (val (js "foo")) (js "RT1")
    /\ st_file s' = Some (Json.stringify (payload s'))
    /\ st_subscriptions s' = st_subscriptions Examples.two_tenants
    /\ st_timers s' = st_timers Examples.two_tenants.
Proof.
  destruct (@handleAddStreamer_registers Scenario.platform Demo.config
              Scenario.request (Utf8.encode (Json.stringify Scenario.body))
              Scenario.body (JStr (js "abc")) (JStr (js "xyz"))
              (JStr (redirectUri Demo.config)) Scenario.tokens
              (js "AT1") (js "RT1")
              {| broadcaster_user_id := val 42%Z; channel_slug := val (js "foo") |}
              [] 42 Examples.two_tenants)
    as (s' & Hrun & Hreg & Hobj & Hfile & Hsub & Htimers);
    try first [reflexivity | discriminate | right; reflexivity].
  exists s'. repeat split; try assumption. apply Hfile; reflexivity.
Defined.

Lemma handleChatMessage_title_witness :
  exists s' report logs,
    @handleChatMessage Demo.online 0%nat
      (Examples.message "  !TITLE   Speedrun Night ") Examples.two_tenants
    = (Ret tt, s')
    /\ forallb is_console logs = true
    /\ st_trace s'
       = EvApi (val (js "AT-1")) (PatchChannels (js "Speedrun Night"))
         :: match @api_request Demo.online 0%nat (val (js "AT-1"))
                               (PatchChannels (js "Speedrun Night")) with
            | inr _ =>
                EvApi (val (js "AT-1"))
                  (PostChat (botReply (js "Updated title to: Speedrun Night")
                                      (Some (JStr (js "msg-1")))))
                :: logs
            | inl _ =>
                EvConsole error report
                :: EvApi (val (js "AT-1"))
                     (PostChat (botReply (js "Failed to update title. Check logs.")
                                         (Some (JStr (js "msg-1")))))
                :: logs
            end.
Proof.
  apply (@handleChatMessage_title Demo.online 0%nat Examples.two_tenants
           (val (js "AT-1")) (Examples.message "  !TITLE   Speedrun Night ")
           (js "  !TITLE   Speedrun Night ")).
  - reflexivity.
  - reflexivity.
  - vm_compute. reflexivity.
  - vm_compute. discriminate.
Defined.

Lemma initStreamers_try_wires_witness :
  (@initStreamers_try Scenario.platform Demo.config 1%nat Examples.two_tenants).1
  = Ret tt
  /\ wired Demo.config
       (@initStreamers_try Scenario.platform Demo.config 1%nat
          Examples.two_tenants).2 1%nat.
Proof.
  split; [vm_compute; reflexivity |].
  apply (@initStreamers_try_wires Scenario.platform Demo.config 1%nat
           Examples.two_tenants).
  vm_compute. reflexivity.
Defined.

Lemma initStreamers_skips_rejected_witness :
  exists s1,
    @initStreamers_for Cases.revoked Demo.config [Cases.entry] Examples.ready
    = @initStreamers_for Cases.revoked Demo.config [] s1
    /\ st_streamers s1 = []
    /\ st_subscriptions s1 = []
    /\ st_timers s1 = []
    /\ st_file s1 = None
    /\ st_trace s1
       = [EvToken (RefreshGrant (js "RT-1"));
          EvConsole error "Failed to initialize streamer"].
Proof.
  apply (@initStreamers_skips_rejected Cases.revoked Demo.config Cases.entry
           (stored (obj Examples.two_tenants 0%nat)) [] Examples.ready
           (KickApiError 401)); reflexivity.
Defined.

Lemma initStreamers_orphan_timer_witness :
  exists s1,
    @initStreamers_for Cases.api_down Demo.config [Cases.entry] Examples.ready
    = @initStreamers_for Cases.api_down Demo.config [] s1
    /\ st_streamers s1 = []
    /\ st_subscriptions s1 = []
    /\ st_timers s1 = [(0%nat, RefreshTimeout 0%nat (Some 3480000))]
    /\ refreshTimer (obj s1 0%nat) = Some 0%nat.
Proof.
  apply (@initStreamers_orphan_timer Cases.api_down Demo.config Cases.entry
           (stored (obj Examples.two_tenants 0%nat)) [] Examples.ready
           Scenario.tokens (KickApiError 503)); reflexivity.
Defined.


Lemma initStreamers_ready_witness :
  @typedStore Cases.revoked Cases.restart
  /\ registry_ready Demo.config Cases.restart
  /\ registry_ready Demo.config
       (@initStreamers Cases.revoked Demo.config Cases.restart).2.
Proof.
  assert (T : @typedStore Cases.revoked Cases.restart).
  { intros store entries Hstore Hentries.
    vm_compute in Hstore. injection Hstore as <-.
    vm_compute in Hentries. injection Hentries as <-.
    repeat constructor; vm_compute; discriminate. }
  assert (H : registry_ready Demo.config Cases.restart).
  { intros k l Hl. by apply elem_of_nil in Hl. }
  split; [exact T |]. split; [exact H |].
  apply (@initStreamers_ready Cases.revoked Demo.config Cases.restart
           (@initStreamers Cases.revoked Demo.config Cases.restart).1
           _ T H).
  by destruct (@initStreamers Cases.revoked Demo.config Cases.restart).
Defined.

Lemma createPkcePair_lengths_witness :
  let (verifier, challenge) :=
    Pkce.createPkcePair (fun _ => repeat Byte.x00 32) (repeat Byte.xff 64) in
  length verifier = 86%nat /\ forallb Pkce.urlSafe verifier = true
  /\ length challenge = 43%nat /\ forallb Pkce.urlSafe challenge = true
  /\ challenge = Pkce.base64UrlEncode (repeat Byte.x00 32).
Proof.
  apply (createPkcePair_lengths (fun _ => repeat Byte.x00 32)
           (repeat Byte.xff 64)).
  - reflexivity.
  - intros. reflexivity.
Defined.
